(** * MP3_Scraping: a shallow embedding of the crawler and the uploader

    The development follows the JavaScript sources:
    - [authenticated_uploader_with_login.js] (class AuthenticatedChabadUploader):
      [generateS3Key], [sanitizeMetadataValue], [checkLoginStatus],
      [downloadAuthenticatedMp3], [processSingleMp3], [processAllMp3s],
      [saveRAGMetadata];
    - [mp3_scraper.js] (class ChabadMP3Scraper): [checkForCaptcha],
      [handleCaptcha], [scrapeRecursively], [extractVideoLinks],
      [extractMp3FromVideoPage], [checkNestedVideoLinks], [extractMetadata];
    - [paginated_scraper.js] (class PaginatedChabadScraper):
      [scrapeCurrentPage], [extractMetadata], [collectAllVideoUrls],
      [extractMetadataFromAllVideos];
    - [config.js]: the selector tables and the limits.

    JavaScript strings are sequences of UTF-16 code units, modelled as
    [list N].  The browser, the file system and the object store are inputs
    of the model: a page is what the DOM queries of the code observe on it. *)

From Stdlib Require Import NArith ZArith List Ascii String DecimalString Lia.
From Stdlib Require DecimalN.
From Stdlib Require Import Uint63 Floats.
From stdpp Require Import base option list gmap sets.

Open Scope N_scope.

(** ** JavaScript strings *)

Abbreviation jsstring := (list N).

(** A string literal of the source, as code units. *)
Definition js (s : string) : jsstring :=
  List.map N_of_ascii (list_ascii_of_string s).

Module JsString.

(** Character classes of the regular expressions of the source. *)
Definition inRange (lo hi c : N) : bool := (lo <=? c) && (c <=? hi).

Definition isDigit (c : N) : bool := inRange 48 57 c.
Definition isLower (c : N) : bool := inRange 97 122 c.
Definition isUpper (c : N) : bool := inRange 65 90 c.

(** [\s] of ECMAScript: WhiteSpace and LineTerminator code units. *)
Definition isWhiteSpace (c : N) : bool :=
  inRange 9 13 c || (c =? 32) || (c =? 160) || (c =? 5760)
  || inRange 8192 8202 c || (c =? 8232) || (c =? 8233) || (c =? 8239)
  || (c =? 8287) || (c =? 12288) || (c =? 65279).

(** [[a-zA-Z0-9\s\-]] *)
Definition isTitleChar (c : N) : bool :=
  isLower c || isUpper c || isDigit c || isWhiteSpace c || (c =? 45).

(** [[\x20-\x7E]] *)
Definition isPrintableAscii (c : N) : bool := inRange 32 126 c.

(** [[\x00-\x1F\x7F]] *)
Definition isControl (c : N) : bool := inRange 0 31 c || (c =? 127).

(** [s.replace(/[^C]/g, '')] keeps the code units of the class [C];
    [s.replace(/[C]/g, '')] keeps the others. *)
Definition keepClass (cls : N -> bool) (s : jsstring) : jsstring :=
  List.filter cls s.
Definition dropClass (cls : N -> bool) (s : jsstring) : jsstring :=
  List.filter (fun c => negb (cls c)) s.

(** [s.replace(/\s+/g, '-')]: every maximal run of white space becomes one
    hyphen.  [inRun] tells whether the previous code unit was white space. *)
Fixpoint replaceWsRuns (inRun : bool) (s : jsstring) : jsstring :=
  match s with
  | [] => []
  | c :: r =>
      if isWhiteSpace c
      then (if inRun then replaceWsRuns true r else 45 :: replaceWsRuns true r)
      else c :: replaceWsRuns false r
  end.

(** [toLowerCase] on the Basic Latin letters; other code units are kept.
    Where the source applies it to arbitrary text (page titles) the model
    takes the case mapping as a parameter instead. *)
Definition lowerUnit (c : N) : N := if isUpper c then c + 32 else c.
Definition toLowerCase (s : jsstring) : jsstring := List.map lowerUnit s.

(** [s.substring(0, n)] *)
Definition substring0 (n : nat) (s : jsstring) : jsstring := firstn n s.

Fixpoint dropWhile (p : N -> bool) (s : jsstring) : jsstring :=
  match s with
  | [] => []
  | c :: r => if p c then dropWhile p r else s
  end.

Fixpoint takeWhile (p : N -> bool) (s : jsstring) : jsstring :=
  match s with
  | [] => []
  | c :: r => if p c then c :: takeWhile p r else []
  end.

(** [s.trim()] *)
Definition trim (s : jsstring) : jsstring :=
  rev (dropWhile isWhiteSpace (rev (dropWhile isWhiteSpace s))).

(** [s.startsWith(p)], returning what follows the prefix. *)
Fixpoint stripPrefix (p s : jsstring) : option jsstring :=
  match p, s with
  | [], _ => Some s
  | _ :: _, [] => None
  | a :: p', b :: s' => if a =? b then stripPrefix p' s' else None
  end.

Definition startsWith (p s : jsstring) : bool :=
  match stripPrefix p s with Some _ => true | None => false end.

(** [s.includes(sub)] *)
Fixpoint includes (sub s : jsstring) : bool :=
  startsWith sub s ||
  match s with
  | [] => false
  | _ :: r => includes sub r
  end.

(** [String(n)] for a non-negative safe integer (at most 2^53 - 1): its
    decimal numeral.  The callers pass positions of an array, file sizes
    and counters.  Beyond the safe integers a double does not hold every
    integer, and from 10^21 on the source prints an exponent ("1e+21"):
    such numbers are outside the model. *)
Definition ofNumber (n : N) : jsstring :=
  js (NilEmpty.string_of_uint (N.to_uint n)).

(** [s.padStart(len, '0')] *)
Definition padStart0 (len : nat) (s : jsstring) : jsstring :=
  repeat 48 (len - length s)%nat ++ s.

(** [s.match(/\/aid\/(\d+)/)]: the capture group of the leftmost match.
    [aidAt s] is the match anchored at the start of [s]. *)
Definition aidAt (s : jsstring) : option jsstring :=
  match stripPrefix (js "/aid/") s with
  | Some r =>
      match takeWhile isDigit r with
      | [] => None
      | ds => Some ds
      end
  | None => None
  end.

Fixpoint matchAid (s : jsstring) : option jsstring :=
  match aidAt s with
  | Some ds => Some ds
  | None =>
      match s with
      | [] => None
      | _ :: r => matchAid r
      end
  end.

End JsString.

(** ** Completions: a value or a thrown exception *)

Inductive jserror : Type :=
| TypeError                      (* property access on undefined *)
| Error (message : jsstring).    (* new Error(message), or a driver error *)

Inductive completion (A : Type) : Type :=
| Normal (a : A)
| Throw (e : jserror).
Arguments Normal {A} a.
Arguments Throw {A} e.

(** ** The data model: what the scrapers store and the uploader reads *)

Record Metadata : Type := mkMetadata {
  title : option jsstring;
  author : option jsstring;
  topics : option (list jsstring);
  podcast : option jsstring;
  synopsis : option jsstring
}.

Definition emptyMetadata : Metadata := mkMetadata None None None None None.

Record Mp3Data : Type := mkMp3Data {
  videoUrl : jsstring;
  downloadUrl : jsstring;
  metadata : Metadata;
  scrapedAt : jsstring
}.

(** ** The uploader: key derivation and header sanitising *)

Module Uploader.
Import JsString.

(** The content type of [generateS3Key]: tanya is tested first. *)
Definition contentTypeOf (url : jsstring) : jsstring :=
  let isTanya := includes (js "/library/tanya/") url in
  let isRabbiGordon := includes (js "/multimedia/video_cdo/") url in
  if isTanya then js "tanya"
  else if isRabbiGordon then js "rabbi-gordon"
  else js "other".

Definition aidOf (url : jsstring) : jsstring :=
  match matchAid url with
  | Some ds => ds
  | None => js "unknown"
  end.

(** The replace/replace/toLowerCase chain shared by the folder name and
    the file name, before [substring]. *)
Definition cleanChain (t : jsstring) : jsstring :=
  toLowerCase (replaceWsRuns false (keepClass isTitleChar t)).

Definition paddedIndex (index : N) : jsstring :=
  padStart0 4 (ofNumber index).

(** [generateS3Key(mp3Data, index)].  [mp3Data.metadata.title.replace]
    throws a TypeError when the title is undefined. *)
Definition generateS3Key (mp3Data : Mp3Data) (index : N)
  : completion jsstring :=
  let aid := aidOf (videoUrl mp3Data) in
  let contentType := contentTypeOf (videoUrl mp3Data) in
  match title (metadata mp3Data) with
  | None => Throw TypeError
  | Some t =>
      let cleanTitle := substring0 80 (cleanChain t) in
      let cleanFilename := substring0 100 (cleanChain t) in
      Normal (contentType ++ js "/" ++ cleanTitle ++ js "/" ++ aid
              ++ js "/" ++ paddedIndex index ++ js "-" ++ cleanFilename
              ++ js ".mp3")
  end.

(** [sanitizeMetadataValue(value)]; [None] is undefined, and the empty
    string is falsy as well. *)
Definition sanitizeMetadataValue (value : option jsstring) : jsstring :=
  match value with
  | None => []
  | Some [] => []
  | Some s =>
      substring0 1024
        (trim (dropClass isControl (keepClass isPrintableAscii s)))
  end.

End Uploader.



(** ** Effects: state, exceptions and fuel

    A computation threads a state, and either completes normally, throws, or
    runs out of the fuel that bounds the recursion of the model ([None]).
    [tryCatch] handles exceptions only: running out of fuel is not an
    outcome of the program and cannot be caught. *)

Module Eff.
Section WithState.
Context {S : Type}.

Definition M (A : Type) : Type := S -> option (completion A * S).

Definition ret {A} (a : A) : M A := fun s => Some (Normal a, s).
Definition throw {A} (e : jserror) : M A := fun s => Some (Throw e, s).
Definition outOfFuel {A} : M A := fun _ => None.

Definition bind {A B} (m : M A) (k : A -> M B) : M B :=
  fun s =>
    match m s with
    | None => None
    | Some (Normal a, s') => k a s'
    | Some (Throw e, s') => Some (Throw e, s')
    end.

(** [try { m } catch (e) { h e }] *)
Definition tryCatch {A} (m : M A) (h : jserror -> M A) : M A :=
  fun s =>
    match m s with
    | Some (Throw e, s') => h e s'
    | r => r
    end.

(** [try { m } finally { f }], for a finaliser that does not throw. *)
Definition tryFinally {A} (m : M A) (f : S -> S) : M A :=
  fun s =>
    match m s with
    | Some (r, s') => Some (r, f s')
    | None => None
    end.

Definition lift {A} (c : completion A) : M A := fun s => Some (c, s).
Definition get : M S := fun s => Some (Normal s, s).
Definition modify (f : S -> S) : M unit := fun s => Some (Normal tt, f s).
End WithState.
Arguments M : clear implicits.
End Eff.

Declare Scope eff_scope.
Delimit Scope eff_scope with eff.
Notation "x <- c1 ;; c2" := (Eff.bind c1 (fun x => c2))
  (at level 100, c1 at next level, right associativity) : eff_scope.
Notation "c1 ;;; c2" := (Eff.bind c1 (fun _ => c2))
  (at level 100, right associativity) : eff_scope.

(** ** The uploader: retrieval with retries, per-record processing, summary *)

Module Processing.
Import JsString Uploader Eff.
Local Open Scope eff_scope.

(** The part of [config] the retrieval reads. *)
Record Config : Type := mkConfig {
  retryAttempts : nat;
  retryDelay : N
}.

Definition config : Config := {| retryAttempts := 3; retryDelay := 3000 |}.

(** What the uploader does to the outside world, in order. *)
Inductive event : Type :=
| AttemptLog (try : nat)                (* "Attempting download (try n)" *)
| Goto (url : jsstring)                 (* page.goto(url) *)
| Sleep (ms : N)                        (* await setTimeout(ms) *)
| RetryWait (ms : N)                    (* await setTimeout(config.retryDelay) *)
| Rename                                (* fs.renameSync(staged, tempFilePath) *)
| Upload (key : jsstring) (headers : list jsstring)  (* s3.upload(...) *)
| Unlink                                (* fs.unlinkSync(tempFilePath) *)
| CloseBrowser.

Inductive LogEntry : Type :=
| LogSuccess (index : N) (logTitle : option jsstring)
             (s3Key s3Url : jsstring) (fileSize : N)
| LogFailed (index : N) (logTitle : option jsstring)
            (logDownloadUrl logVideoUrl : jsstring) (error : jserror).

Record RagEntry : Type := mkRagEntry {
  ragId : jsstring;
  ragTitle : option jsstring;
  ragAuthor : option jsstring;
  ragTopics : list jsstring;
  ragPodcast : jsstring;
  ragS3Key : jsstring;
  ragS3Url : jsstring;
  ragOriginalUrl : jsstring;
  ragDownloadUrl : jsstring
}.

(** The fields of the uploader object, the file at [tempFilePath]
    ([None]: it does not exist; [Some n]: it has [n] bytes), and the
    events so far.  Timestamps are not modelled. *)
Record UploaderState : Type := mkUploaderState {
  uploadedCount : N;
  failedCount : N;
  ragMetadata : list RagEntry;
  uploadLog : list LogEntry;
  tempFile : option N;
  events : list event
}.

Definition initialState : UploaderState :=
  mkUploaderState 0 0 [] [] None [].

Definition addEvent (e : event) (s : UploaderState) : UploaderState :=
  mkUploaderState (uploadedCount s) (failedCount s) (ragMetadata s)
    (uploadLog s) (tempFile s) (events s ++ [e]).

Definition emit (e : event) : M UploaderState unit := modify (addEvent e).

Definition setTempFile (f : option N) : M UploaderState unit :=
  modify (fun s => mkUploaderState (uploadedCount s) (failedCount s)
                     (ragMetadata s) (uploadLog s) f (events s)).

Definition pushRag (r : RagEntry) : M UploaderState unit :=
  modify (fun s => mkUploaderState (uploadedCount s) (failedCount s)
                     (ragMetadata s ++ [r]) (uploadLog s) (tempFile s)
                     (events s)).

Definition pushLog (l : LogEntry) : M UploaderState unit :=
  modify (fun s => mkUploaderState (uploadedCount s) (failedCount s)
                     (ragMetadata s) (uploadLog s ++ [l]) (tempFile s)
                     (events s)).

Definition incUploaded : M UploaderState unit :=
  modify (fun s => mkUploaderState (uploadedCount s + 1) (failedCount s)
                     (ragMetadata s) (uploadLog s) (tempFile s) (events s)).

Definition incFailed : M UploaderState unit :=
  modify (fun s => mkUploaderState (uploadedCount s) (failedCount s + 1)
                     (ragMetadata s) (uploadLog s) (tempFile s) (events s)).

(** What one execution of the download sequence meets: the two
    navigations, whether the page had a link to click, and at the [i]-th
    poll the size of the newest matching file of the download directory
    ([None]: no such file). *)
Record DownloadAttempt : Type := mkDownloadAttempt {
  gotoDownload : completion unit;
  gotoVideo : completion unit;
  downloadTriggered : completion bool;
  staged : nat -> completion (option N)
}.

(** What the processing of one record meets: its download attempts by
    [retryCount], and the object store. *)
Record RecordEnv : Type := mkRecordEnv {
  attempts : nat -> DownloadAttempt;
  s3upload : jsstring -> completion jsstring    (* key -> Location *)
}.

Definition timeoutError : jserror :=
  Error (js "Download timeout or file not found").

(** [for (let i = 0; i < maxWait; i++)] with [maxWait = 60]; [remaining]
    is [maxWait - i]. *)
Fixpoint pollStaged (a : DownloadAttempt) (remaining i : nat)
  : M UploaderState bool :=
  match remaining with
  | O => ret false
  | S r =>
      emit (Sleep 2000) ;;;
      files <- lift (staged a i) ;;
      match files with
      | Some size =>
          if 1000 <? size
          then emit Rename ;;; setTempFile (Some size) ;;; ret true
          else pollStaged a r (S i)
      | None => pollStaged a r (S i)
      end
  end.

(** The body of the [try] of [downloadAuthenticatedMp3]. *)
Definition downloadSequence (a : DownloadAttempt)
    (downloadUrl videoUrl : jsstring) (retryCount : nat)
  : M UploaderState unit :=
  emit (AttemptLog (retryCount + 1)) ;;;
  emit (Goto downloadUrl) ;;;
  lift (gotoDownload a) ;;;
  emit (Sleep 3000) ;;;
  emit (Goto videoUrl) ;;;
  lift (gotoVideo a) ;;;
  emit (Sleep 3000) ;;;
  downloadSuccess <- lift (downloadTriggered a) ;;
  found <- (if downloadSuccess : bool then pollStaged a 60 0 else ret false) ;;
  if found : bool then ret tt else throw timeoutError.

(** [downloadAuthenticatedMp3(downloadUrl, tempFilePath, videoUrl,
    retryCount)].  [fuel] bounds the depth of the recursion. *)
Fixpoint downloadAuthenticatedMp3 (fuel : nat) (cfg : Config)
    (env : RecordEnv) (downloadUrl videoUrl : jsstring) (retryCount : nat)
  : M UploaderState unit :=
  match fuel with
  | O => outOfFuel
  | S fuel' =>
      tryCatch
        (downloadSequence (attempts env retryCount) downloadUrl videoUrl
           retryCount)
        (fun error =>
           if (retryCount <? retryAttempts cfg - 1)%nat
           then
             emit (RetryWait (retryDelay cfg)) ;;;
             downloadAuthenticatedMp3 fuel' cfg env downloadUrl videoUrl
               (retryCount + 1)%nat
           else throw error)
  end.

(** Enough fuel for a call with [retryCount = 0]. *)
Definition downloadFuel (cfg : Config) : nat := S (retryAttempts cfg).

(** [topics.join(sep)] *)
Fixpoint join (sep : jsstring) (l : list jsstring) : jsstring :=
  match l with
  | [] => []
  | [x] => x
  | x :: r => x ++ sep ++ join sep r
  end.

(** The [Metadata] headers of [uploadToS3], in the order of the source
    (the timestamp apart). *)
Definition s3Headers (m : Metadata) (sourceUrl : jsstring)
  : list jsstring :=
  [ sanitizeMetadataValue (title m);
    sanitizeMetadataValue (author m);
    sanitizeMetadataValue
      (Some (match topics m with Some ts => join (js ",") ts | None => [] end));
    sanitizeMetadataValue (podcast m);
    sanitizeMetadataValue (Some sourceUrl) ].

Definition uploadToS3 (env : RecordEnv) (s3Key : jsstring) (m : Metadata)
    (sourceUrl : jsstring) : M UploaderState jsstring :=
  emit (Upload s3Key (s3Headers m sourceUrl)) ;;;
  lift (s3upload env s3Key).

Definition createRAGMetadata (originalData : Mp3Data)
    (s3Url s3Key : jsstring) (index : N) : RagEntry :=
  {| ragId := js "chabad-mp3-" ++ padStart0 4 (ofNumber index);
     ragTitle := title (metadata originalData);
     ragAuthor := author (metadata originalData);
     ragTopics := match topics (metadata originalData) with
                  | Some ts => ts | None => [] end;
     ragPodcast := match podcast (metadata originalData) with
                   | Some p => p | None => [] end;
     ragS3Key := s3Key;
     ragS3Url := s3Url;
     ragOriginalUrl := videoUrl originalData;
     ragDownloadUrl := downloadUrl originalData |}.

Definition fileTooSmall (fileSize : N) : jserror :=
  Error (js "File too small (" ++ ofNumber fileSize
         ++ js " bytes) - likely an error page").

(** The [if (fs.existsSync(tempFilePath)) fs.unlinkSync(tempFilePath)] of
    the [catch] block, on a disk on which the deletion succeeds. *)
Definition cleanupTemp : M UploaderState unit :=
  s <- get ;;
  match tempFile s with
  | Some _ => emit Unlink ;;; setTempFile None
  | None => ret tt
  end.

(** [processSingleMp3(mp3Data, index)], on a disk on which the two calls
    of [fs.unlinkSync] succeed.  [Disk.processSingleMp3] below takes their
    completions as inputs and is this function when both succeed. *)
Definition processSingleMp3 (cfg : Config) (env : RecordEnv)
    (mp3Data : Mp3Data) (index : N) : M UploaderState RagEntry :=
  setTempFile None ;;;          (* a fresh temp_<index>_<now>.mp3 *)
  tryCatch
    (downloadAuthenticatedMp3 (downloadFuel cfg) cfg env
       (downloadUrl mp3Data) (videoUrl mp3Data) 0%nat ;;;
     s <- get ;;
     match tempFile s with
     | None => throw (Error (js "File not downloaded"))
     | Some fileSize =>
         if fileSize <? 1000 then throw (fileTooSmall fileSize)
         else
           s3Key <- lift (generateS3Key mp3Data index) ;;
           s3Url <- uploadToS3 env s3Key (metadata mp3Data)
                      (videoUrl mp3Data) ;;
           let ragEntry := createRAGMetadata mp3Data s3Url s3Key index in
           pushRag ragEntry ;;;
           pushLog (LogSuccess index (title (metadata mp3Data)) s3Key s3Url
                      fileSize) ;;;
           incUploaded ;;;
           emit Unlink ;;; setTempFile None ;;;
           ret ragEntry
     end)
    (fun error =>
       pushLog (LogFailed index (title (metadata mp3Data))
                  (downloadUrl mp3Data) (videoUrl mp3Data) error) ;;;
       incFailed ;;;
       cleanupTemp ;;;
       throw error).

(** The [for] loop of [processAllMp3s]; [i] is the array index of the head
    of [rest], [total] is [mp3Array.length]. *)
Fixpoint processLoop (cfg : Config) (env : nat -> RecordEnv)
    (total : nat) (i : nat) (rest : list Mp3Data) : M UploaderState unit :=
  match rest with
  | [] => ret tt
  | mp3Data :: rest' =>
      let globalIndex := (i + 1)%nat in
      tryCatch
        (processSingleMp3 cfg (env i) mp3Data (N.of_nat globalIndex) ;;;
         ret tt)
        (fun _ => ret tt) ;;;    (* continue with next MP3 *)
      (if (globalIndex <? total)%nat then emit (Sleep 2000) else ret tt) ;;;
      processLoop cfg env total (S i) rest'
  end.

(** What the whole run meets.  The login sequence and the authentication
    test are outside the model; their completions are inputs. *)
Record World : Type := mkWorld {
  initializeAndLogin : completion unit;
  authTestGoto : completion unit;
  recordEnv : nat -> RecordEnv
}.

(** [processAllMp3s(mp3Array)] *)
Definition processAllMp3s (cfg : Config) (w : World)
    (mp3Array : list Mp3Data) : M UploaderState unit :=
  lift (initializeAndLogin w) ;;;
  match mp3Array with
  | first :: _ =>
      tryCatch
        (emit (Goto (videoUrl first)) ;;;
         lift (authTestGoto w) ;;;
         emit (Sleep 2000))
        (fun _ => ret tt)
  | [] => ret tt
  end ;;;
  tryFinally
    (processLoop cfg (recordEnv w) (length mp3Array) 0 mp3Array)
    (addEvent CloseBrowser).

(** *** The summary of the upload log *)

(** A counter as a JavaScript number. *)
Definition toNumber (n : N) : float :=
  PrimFloat.of_uint63 (Uint63.of_Z (Z.of_N n)).

Definition digitsOf (n : Z) : jsstring := ofNumber (Z.to_N n).

(** The digits of [n] with a point before the last two, as in
    [Number.prototype.toFixed] with two fraction digits. *)
Definition fixed2Digits (n : Z) : jsstring :=
  let m := padStart0 3 (digitsOf n) in
  let k := length m in
  firstn (k - 2) m ++ js "." ++ skipn (k - 2) m.

(** [x.toFixed(2)].  The value of a finite double is [m * 2^e]; [n] is the
    integer nearest to [100 * |x|], the larger one on a tie.  For
    [|x| >= 10^21] the source falls back to [ToString], which is outside
    the model ([None]). *)
Definition toFixed2 (x : float) : option jsstring :=
  match Prim2SF x with
  | S754_nan => Some (js "NaN")
  | S754_infinity false => Some (js "Infinity")
  | S754_infinity true => Some (js "-Infinity")
  | S754_zero _ => Some (js "0.00")
  | S754_finite sign m e =>
      let big :=
        if (0 <=? e)%Z then (10 ^ 21 <=? Z.pos m * 2 ^ e)%Z
        else (10 ^ 21 * 2 ^ (- e) <=? Z.pos m)%Z in
      if big then None
      else
        let n :=
          if (0 <=? e)%Z then (100 * Z.pos m * 2 ^ e)%Z
          else ((2 * 100 * Z.pos m + 2 ^ (- e)) / 2 ^ (1 - e))%Z in
        Some ((if sign then js "-" else []) ++ fixed2Digits n)
  end.

Record Summary : Type := mkSummary {
  totalProcessed : N;
  successful : N;
  failed : N;
  successRate : option jsstring
}.

(** The [summary] object that [saveRAGMetadata] writes to the upload
    log file. *)
Definition summaryOf (s : UploaderState) : Summary :=
  {| totalProcessed := uploadedCount s + failedCount s;
     successful := uploadedCount s;
     failed := failedCount s;
     successRate :=
       option_map (fun r => r ++ js "%")
         (toFixed2
            (toNumber (uploadedCount s)
             / toNumber (uploadedCount s + failedCount s) * 100)%float) |}.

End Processing.

(** ** What a download attempt comes to

    The result of one execution of the download sequence depends on the
    attempt alone; [outcome] states it without the state, and
    [downloadSequence_run] below relates the two. *)

Module Outcome.
Import Processing.

Fixpoint pollOutcome (a : DownloadAttempt) (remaining i : nat)
  : completion (option N) :=
  match remaining with
  | O => Normal None
  | S r =>
      match staged a i with
      | Throw e => Throw e
      | Normal (Some size) =>
          if 1000 <? size then Normal (Some size)
          else pollOutcome a r (S i)
      | Normal None => pollOutcome a r (S i)
      end
  end.

(** The size of the file that ends at [tempFilePath], or the error. *)
Definition outcome (a : DownloadAttempt) : completion N :=
  match gotoDownload a with
  | Throw e => Throw e
  | Normal _ =>
      match gotoVideo a with
      | Throw e => Throw e
      | Normal _ =>
          match downloadTriggered a with
          | Throw e => Throw e
          | Normal false => Throw timeoutError
          | Normal true =>
              match pollOutcome a 60 0 with
              | Throw e => Throw e
              | Normal (Some size) => Normal size
              | Normal None => Throw timeoutError
              end
          end
      end
  end.

Definition fails {A : Type} (c : completion A) : Prop :=
  match c with Throw _ => True | Normal _ => False end.

(** The retrieval of a record fails at every attempt. *)
Definition retrievalAlwaysFails (env : RecordEnv) : Prop :=
  forall k : nat, fails (outcome (attempts env k)).

(** The retrieval of a record succeeds at attempt [j], one of the attempts
    the configuration allows, after failing before; [size] is the size of
    the file. *)
Definition retrievalSucceedsAt (cfg : Config) (env : RecordEnv)
    (j : nat) (size : N) : Prop :=
  (j <= retryAttempts cfg - 1)%nat
  /\ (forall k : nat, (k < j)%nat -> fails (outcome (attempts env k)))
  /\ outcome (attempts env j) = Normal size.

(** The trace, by kind of event. *)
Definition attemptLogs (evs : list event) : list nat :=
  flat_map (fun e => match e with AttemptLog n => [n] | _ => [] end) evs.

Definition retryWaits (evs : list event) : list N :=
  flat_map (fun e => match e with RetryWait ms => [ms] | _ => [] end) evs.

Definition uploads (evs : list event) : list jsstring :=
  flat_map (fun e => match e with Upload key _ => [key] | _ => [] end) evs.

(** Events of the download sequence other than its first log line. *)
Definition quiet (e : event) : Prop :=
  match e with
  | Goto _ | Sleep _ | Rename => True
  | _ => False
  end.

(** [s'] differs from [s] by the events [evs] and, possibly, by the
    temporary file. *)
Record frame (s s' : UploaderState) (evs : list event) : Prop := mkFrame {
  frame_uploaded : uploadedCount s' = uploadedCount s;
  frame_failed : failedCount s' = failedCount s;
  frame_rag : ragMetadata s' = ragMetadata s;
  frame_log : uploadLog s' = uploadLog s;
  frame_events : events s' = events s ++ evs
}.

(** [s'] comes from [s] by [du] uploads and [df] failures more, the RAG
    entries [rags], the log entries [entries] and the events [evs]. *)
Record advance (s s' : UploaderState) (du df : N) (rags : list RagEntry)
    (entries : list LogEntry) (evs : list event) : Prop := mkAdvance {
  adv_uploaded : uploadedCount s' = uploadedCount s + du;
  adv_failed : failedCount s' = failedCount s + df;
  adv_rag : ragMetadata s' = ragMetadata s ++ rags;
  adv_log : uploadLog s' = uploadLog s ++ entries;
  adv_events : events s' = events s ++ evs
}.

(** The state in which the loop of [processAllMp3s] goes on after the
    record of array index [i]: after the pause, unless it was the last. *)
Definition paused (total i : nat) (s : UploaderState) : UploaderState :=
  if (i + 1 <? total)%nat then addEvent (Sleep 2000) s else s.

End Outcome.

(** ** Pages: what the DOM queries of the scrapers observe *)

Module Dom.

Abbreviation selector := string.

(** An element handle, through the properties the code reads.
    [offsetParent] is [true] when [element.offsetParent !== null]. *)
Record Element : Type := mkElement {
  href : option jsstring;          (* getAttribute('href'), None: null *)
  titleAttr : option jsstring;     (* getAttribute('title') *)
  innerText : option jsstring;     (* None: undefined *)
  offsetParent : bool
}.

(** A page at one moment.  [querySelectorAll] is [page.$$]; an invalid
    selector throws. *)
Record Page : Type := mkPage {
  querySelectorAll : selector -> completion (list Element);
  pageTitle : completion jsstring;       (* page.title() *)
  pageUrl : jsstring;                    (* page.url() *)
  bodyInnerText : completion jsstring    (* document.body.innerText *)
}.

(** [page.$(selector)]: the first match, or null. *)
Definition querySelector (p : Page) (sel : selector)
  : completion (option Element) :=
  match querySelectorAll p sel with
  | Normal els => Normal (List.hd_error els)
  | Throw e => Throw e
  end.

(** A string in a condition: the empty string is falsy. *)
Definition truthy (s : jsstring) : bool :=
  match s with [] => false | _ :: _ => true end.

Definition truthyAttr (o : option jsstring) : option jsstring :=
  match o with
  | Some (c :: s) => Some (c :: s)
  | _ => None
  end.

(** A page as it evolves while the script waits on it: [loaded k] is the
    page at the [k]-th CAPTCHA check after the navigation. *)
Abbreviation LoadedPage := (nat -> Page).

End Dom.

(** ** config.js *)

Module Config.
Import Dom.
Local Open Scope string_scope.

Definition viewAllButtons : list selector :=
  ["a.vs-video-row__header__more-link"].

Definition videoLinks : list selector :=
  ["a.watch-link"; "a.vs-video-card__link-wrapper"; "a#LinkWrapper"].

Definition downloadLinks : list selector :=
  ["a[href*='/multimedia/filedownload_cdo/']:has-text('Download this MP3')";
   "a.inline_block[href*='/multimedia/filedownload_cdo/']";
   "a[href*='filedownload']"].

Definition metadataTitle : list selector :=
  ["h1.article-header__title"; "h2"; ".js-article-title"; "title"].
Definition metadataAuthor : list selector :=
  ["span.article-header__byline a"; ".article-header__byline a"].
Definition metadataTopics : list selector := ["tr.topics a"].
Definition metadataPodcast : list selector := [".podcast_icon a"].
Definition metadataSynopsis : list selector :=
  ["#TitleAndSynopsis .normal"; ".video_info .normal"].

Definition BASE_URL : jsstring := js "https://www.chabad.org".

(** [BROWSER_SETTINGS.headless] and [ADVANCED.maxDepth]. *)
Record Settings : Type := mkSettings {
  headless : bool;
  maxDepth : nat
}.

Definition settings : Settings := {| headless := false; maxDepth := 10 |}.

End Config.

(** ** Metadata extraction, in its two versions *)

Module Extract.
Import JsString Dom.

(** [for (const selector of selectors) { ...; break; }]: the first
    selector for which the body assigns and breaks. *)
Fixpoint firstOf {A : Type} (body : selector -> option A)
    (selectors : list selector) : option A :=
  match selectors with
  | [] => None
  | sel :: rest =>
      match body sel with
      | Some a => Some a
      | None => firstOf body rest
      end
  end.

(** [if (el) { text = el.innerText; if (text && text.trim()) { field =
    text.trim(); break; } }] inside a [try] whose [catch] continues. *)
Definition nonEmptyText (p : Page) (sel : selector) : option jsstring :=
  match querySelector p sel with
  | Normal (Some el) =>
      match innerText el with
      | Some text =>
          if truthy text && truthy (trim text) then Some (trim text)
          else None
      | None => None
      end
  | Normal None => None
  | Throw _ => None
  end.

(** [if (el) { text = el.innerText; field = text.trim(); break; }]:
    any match is taken; [undefined.trim()] throws and the [catch]
    continues with the next selector. *)
Definition anyText (p : Page) (sel : selector) : option jsstring :=
  match querySelector p sel with
  | Normal (Some el) =>
      match innerText el with
      | Some text => Some (trim text)
      | None => None
      end
  | Normal None => None
  | Throw _ => None
  end.

(** The topics of one selector: the texts that pass [keep], trimmed. *)
Definition topicTexts (keep : jsstring -> bool) (els : list Element)
  : list jsstring :=
  flat_map (fun el =>
              match innerText el with
              | Some text => if keep text then [trim text] else []
              | None => []
              end) els.

Definition topicsWith (keep : jsstring -> bool) (p : Page) (sel : selector)
  : option (list jsstring) :=
  match querySelectorAll p sel with
  | Normal els =>
      match topicTexts keep els with
      | [] => None
      | t :: ts => Some (t :: ts)
      end
  | Throw _ => None
  end.

End Extract.

(** ** mp3_scraper.js: the recursive strategy *)

Module Mp3Scraper.
Import JsString Dom Eff.
Local Open Scope eff_scope.

(** [extractMetadata(page)] *)
Definition extractMetadata (p : Page) : Metadata :=
  {| title := Extract.firstOf (Extract.nonEmptyText p) Config.metadataTitle;
     author := Extract.firstOf (Extract.anyText p) Config.metadataAuthor;
     topics :=
       Extract.firstOf (Extract.topicsWith truthy p) Config.metadataTopics;
     podcast := Extract.firstOf (Extract.anyText p) Config.metadataPodcast;
     synopsis :=
       Extract.firstOf (Extract.nonEmptyText p) Config.metadataSynopsis |}.

(** The double quote of the attribute selectors. *)
Definition dq : string := String (ascii_of_nat 34) EmptyString.

Definition notHidden : string :=
  (":not([style*=" ++ dq ++ "display: none" ++ dq ++ "])")%string.

Definition activeCaptchaSelectors : list selector :=
  [ ("iframe[src*=" ++ dq ++ "recaptcha" ++ dq ++ "]" ++ notHidden)%string;
    ("div[class*=" ++ dq ++ "g-recaptcha" ++ dq ++ "]" ++ notHidden)%string;
    ("div[id*=" ++ dq ++ "recaptcha" ++ dq ++ "]" ++ notHidden)%string;
    ("div.captcha-container" ++ notHidden)%string;
    ("form[action*=" ++ dq ++ "captcha" ++ dq ++ "]")%string ].

Definition challengePhrases : list jsstring :=
  [ js "verify you are not a robot";
    js "prove you are human";
    js "complete the security check";
    js "i am not a robot";
    js "please verify that you are a human" ].

Record VideoLink : Type := mkVideoLink {
  linkUrl : jsstring;
  linkTitle : jsstring
}.

(** The fields of the scraper object, and the [page.goto] calls so far. *)
Record ScraperState : Type := mkScraperState {
  visitedUrls : gset jsstring;
  scrapedData : list Mp3Data;
  navigations : list jsstring
}.

Definition initialState : ScraperState := mkScraperState ∅ [] [].

Section Run.
(** The settings of config.js; [new URL(href, baseUrl).href], which
    throws on an invalid URL; [String.prototype.toLowerCase] on page
    text; and the site: the pages by URL, a URL outside the site being
    one whose navigation fails. *)
Context (cfg : Config.Settings)
        (resolveUrl : jsstring -> completion jsstring)
        (lower : jsstring -> jsstring)
        (site : gmap jsstring LoadedPage).

(** *** checkForCaptcha *)

(** [page.$(selector)] found an element whose [offsetParent] is not
    null; an exception is caught and the loop continues. *)
Definition activeCaptchaAt (p : Page) (sel : selector) : bool :=
  match querySelector p sel with
  | Normal (Some captchaElement) => offsetParent captchaElement
  | Normal None => false
  | Throw _ => false
  end.

Definition captchaIndicators (pTitle url : jsstring) : list bool :=
  [ includes (js "security check") (lower pTitle);
    includes (js "verify you are human") (lower pTitle);
    includes (js "captcha") (lower pTitle)
      && includes (js "challenge") (lower pTitle);
    includes (js "bot protection") (lower pTitle);
    includes (js "/captcha") (lower url);
    includes (js "cloudflare") (lower pTitle)
      && includes (js "checking") (lower pTitle) ].

Definition challengePage (p : Page) : bool :=
  match pageTitle p with
  | Normal t => existsb (fun indicator => indicator)
                  (captchaIndicators t (pageUrl p))
  | Throw _ => false
  end.

Definition challengeText (p : Page) : bool :=
  match bodyInnerText p with
  | Normal visibleText =>
      if truthy visibleText
      then existsb (fun phrase => includes phrase (lower visibleText))
             challengePhrases
      else false
  | Throw _ => false
  end.

(** [checkForCaptcha(page)] *)
Definition checkForCaptcha (p : Page) : bool :=
  if existsb (activeCaptchaAt p) activeCaptchaSelectors then true
  else if challengePage p then true
  else if challengeText p then true
  else false.

(** *** handleCaptcha *)

(** The [while (waitTime < maxWaitTime)] loop: 180000 / 3000 = 60
    rounds; [k] checks were made before.  The result is the check at
    which the CAPTCHA was gone. *)
Fixpoint waitForCaptcha (loaded : LoadedPage) (remaining k : nat)
  : option nat :=
  match remaining with
  | O => None
  | S r =>
      if negb (checkForCaptcha (loaded (S k))) then Some (S k)
      else waitForCaptcha loaded r (S k)
  end.

(** [handleCaptcha(page, url)]: [Some k] is [true], with the page as it
    is at check [k]; [None] is [false].  The banner reads
    [page.title()], which may throw. *)
Definition handleCaptcha (loaded : LoadedPage)
  : completion (option nat) :=
  match pageTitle (loaded 0%nat) with
  | Throw e => Throw e
  | Normal _ =>
      if negb (Config.headless cfg)
      then Normal (waitForCaptcha loaded 60 0)
      else Normal None
  end.

(** *** Link collection *)

(** [for (const selector of selectors) all.push(...await page.$$(selector))] *)
Fixpoint collectElements (p : Page) (selectors : list selector)
  : completion (list Element) :=
  match selectors with
  | [] => Normal []
  | sel :: rest =>
      match querySelectorAll p sel with
      | Throw e => Throw e
      | Normal els =>
          match collectElements p rest with
          | Throw e => Throw e
          | Normal more => Normal (els ++ more)
          end
      end
  end.

(** [if (href) urls.push(new URL(href, this.baseUrl).href)] *)
Fixpoint resolveHrefs (buttons : list Element)
  : completion (list jsstring) :=
  match buttons with
  | [] => Normal []
  | button :: rest =>
      match truthyAttr (href button) with
      | None => resolveHrefs rest
      | Some h =>
          match resolveUrl h with
          | Throw e => Throw e
          | Normal fullUrl =>
              match resolveHrefs rest with
              | Throw e => Throw e
              | Normal more => Normal (fullUrl :: more)
              end
          end
      end
  end.

(** The video links of a list of anchors; [keep] filters the resolved
    URLs (all of them in [extractVideoLinks]). *)
Fixpoint videoLinksOf (keep : jsstring -> bool) (links : list Element)
  : completion (list VideoLink) :=
  match links with
  | [] => Normal []
  | link :: rest =>
      match truthyAttr (href link) with
      | None => videoLinksOf keep rest
      | Some h =>
          match resolveUrl h with
          | Throw e => Throw e
          | Normal fullUrl =>
              match videoLinksOf keep rest with
              | Throw e => Throw e
              | Normal more =>
                  if keep fullUrl
                  then Normal
                         (mkVideoLink fullUrl
                            (match truthyAttr (titleAttr link) with
                             | Some t => t
                             | None => js "Unknown Title"
                             end) :: more)
                  else Normal more
              end
          end
      end
  end.

(** The download link of a video page: the first selector whose first
    match has a non-empty href; exceptions continue the loop. *)
Fixpoint findDownloadLink (p : Page) (selectors : list selector)
  : option jsstring :=
  match selectors with
  | [] => None
  | sel :: rest =>
      match querySelector p sel with
      | Normal (Some downloadElement) =>
          match truthyAttr (href downloadElement) with
          | Some h =>
              match resolveUrl h with
              | Normal downloadLink => Some downloadLink
              | Throw _ => findDownloadLink p rest
              end
          | None => findDownloadLink p rest
          end
      | Normal None => findDownloadLink p rest
      | Throw _ => findDownloadLink p rest
      end
  end.

(** *** State changes *)

Definition markVisited (url : jsstring) : M ScraperState unit :=
  modify (fun s => mkScraperState ({[url]} ∪ visitedUrls s)
                     (scrapedData s) (navigations s)).

Definition pushData (d : Mp3Data) : M ScraperState unit :=
  modify (fun s => mkScraperState (visitedUrls s) (scrapedData s ++ [d])
                     (navigations s)).

(** [await page.goto(url, ...)] *)
Definition goto (url : jsstring) : M ScraperState LoadedPage :=
  modify (fun s => mkScraperState (visitedUrls s) (scrapedData s)
                     (navigations s ++ [url])) ;;;
  match site !! url with
  | Some loaded => ret loaded
  | None => throw (Error (js "net::ERR_FAILED"))
  end.

Fixpoint forEach {A : Type} (l : list A)
    (body : A -> M ScraperState unit) : M ScraperState unit :=
  match l with
  | [] => ret tt
  | x :: rest => body x ;;; forEach rest body
  end.

(** *** The traversal *)

(** [extractVideoLinks(page, depth)]; [visit] is
    [extractMp3FromVideoPage]. *)
Definition extractVideoLinks
    (visit : VideoLink -> nat -> M ScraperState unit)
    (p : Page) (depth : nat) : M ScraperState unit :=
  tryCatch
    (anchors <- lift (collectElements p Config.videoLinks) ;;
     videoLinks <- lift (videoLinksOf (fun _ => true) anchors) ;;
     forEach videoLinks (fun videoLink => visit videoLink (depth + 1)%nat))
    (fun _ => ret tt).

(** [checkNestedVideoLinks(page, currentVideoUrl, depth)] *)
Definition checkNestedVideoLinks
    (visit : VideoLink -> nat -> M ScraperState unit)
    (p : Page) (currentVideoUrl : jsstring) (depth : nat)
  : M ScraperState unit :=
  tryCatch
    (s <- get ;;
     anchors <- lift (collectElements p Config.videoLinks) ;;
     nestedVideoLinks <-
       lift (videoLinksOf
               (fun fullUrl =>
                  negb (bool_decide (fullUrl = currentVideoUrl))
                  && negb (bool_decide (fullUrl ∈ visitedUrls s)))
               anchors) ;;
     forEach nestedVideoLinks
       (fun nestedVideo => visit nestedVideo (depth + 1)%nat))
    (fun _ => ret tt).

(** [extractMp3FromVideoPage(page, videoLink, depth)] *)
Fixpoint extractMp3FromVideoPage (fuel : nat) (videoLink : VideoLink)
    (depth : nat) : M ScraperState unit :=
  match fuel with
  | O => outOfFuel
  | S fuel' =>
      let videoUrl := linkUrl videoLink in
      s <- get ;;
      if bool_decide (videoUrl ∈ visitedUrls s) then ret tt
      else
        markVisited videoUrl ;;;
        tryCatch
          (loaded <- goto videoUrl ;;
           let p := loaded 0%nat in
           match truthyAttr (findDownloadLink p Config.downloadLinks) with
           | Some downloadLink =>
               pushData (mkMp3Data videoUrl downloadLink
                           (extractMetadata p) [])
           | None =>
               checkNestedVideoLinks (extractMp3FromVideoPage fuel')
                 p videoUrl depth
           end)
          (fun _ => ret tt)
  end.

(** [scrapeRecursively(page, url, depth)] *)
Fixpoint scrapeRecursively (fuel : nat) (url : jsstring) (depth : nat)
  : M ScraperState unit :=
  match fuel with
  | O => outOfFuel
  | S fuel' =>
      s <- get ;;
      if bool_decide (url ∈ visitedUrls s)
         || (Config.maxDepth cfg <? depth)%nat
      then ret tt
      else
        markVisited url ;;;
        tryCatch
          (loaded <- goto url ;;
           cleared <-
             (if checkForCaptcha (loaded 0%nat)
              then lift (handleCaptcha loaded)
              else ret (Some 0%nat)) ;;
           match cleared with
           | None => ret tt      (* skipping the URL *)
           | Some k =>
               let p := loaded k in
               viewAllButtons <-
                 lift (collectElements p Config.viewAllButtons) ;;
               match viewAllButtons with
               | _ :: _ =>
                   viewAllUrls <- lift (resolveHrefs viewAllButtons) ;;
                   forEach viewAllUrls
                     (fun viewAllUrl =>
                        scrapeRecursively fuel' viewAllUrl (depth + 1)%nat)
               | [] =>
                   extractVideoLinks (extractMp3FromVideoPage fuel')
                     p depth
               end
           end)
          (fun _ => ret tt)
  end.

(** Fuel that is enough for a run from the initial state. *)
Definition scrapeFuel : nat := S (size site).

End Run.

End Mp3Scraper.

(** ** The visitation ledger of the recursive strategy *)

Module Ledger.
Import Mp3Scraper.

(** No URL was navigated to twice, and every navigation is recorded in
    [visitedUrls]. *)
Definition wellVisited (st : ScraperState) : Prop :=
  NoDup (navigations st)
  /\ forall u, In u (navigations st) -> u ∈ visitedUrls st.

(** [st'] comes after [st]: the ledger only grows, the navigations are
    extended, and [wellVisited] is kept. *)
Definition grows (st st' : ScraperState) : Prop :=
  visitedUrls st ⊆ visitedUrls st'
  /\ (exists more, navigations st' = navigations st ++ more)
  /\ (wellVisited st -> wellVisited st').

(** The pages of the site that are not in the ledger yet. *)
Definition unvisited (site : gmap jsstring Dom.LoadedPage)
    (st : ScraperState) : nat :=
  size (dom site ∖ visitedUrls st).

End Ledger.

(** ** paginated_scraper.js: the pagination strategy *)

Module Paginated.
Import JsString Dom Eff.
Local Open Scope eff_scope.

(** [extractMetadata()] *)
Definition extractMetadata (p : Page) : Metadata :=
  {| title := Extract.firstOf (Extract.nonEmptyText p) Config.metadataTitle;
     author :=
       Extract.firstOf (Extract.nonEmptyText p) Config.metadataAuthor;
     topics :=
       Extract.firstOf
         (Extract.topicsWith (fun t => truthy t && truthy (trim t)) p)
         Config.metadataTopics;
     podcast :=
       Extract.firstOf (Extract.nonEmptyText p) Config.metadataPodcast;
     synopsis :=
       Extract.firstOf (Extract.nonEmptyText p) Config.metadataSynopsis |}.

(** A listing page: its DOM, the [img.nextPage] images (whether the class
    list has [disabled], whether the image sits in a link), and whether
    the text-based selectors of [hasEnabledNextButton] and of
    [clickNextButton] find a next link. *)
Record Listing : Type := mkListing {
  listingDom : Page;
  nextImages : list (bool * bool);
  nextTextLink : bool;
  nextTextLinkClick : bool
}.

(** The browser of a run: the listing shown after [k] clicks on next, and
    the video pages by URL. *)
Record Browser : Type := mkBrowser {
  listingAfter : nat -> Listing;
  videoPage : jsstring -> completion Page
}.

(** The fields of the scraper object during phase 1, the number of clicks
    on next, and the [page.goto] calls of phase 2. *)
Record PaginatedState : Type := mkPaginatedState {
  allVideoData : list jsstring;      (* the url of each entry *)
  processedPages : nat;
  totalFound : nat;
  clicks : nat;
  navigations : list jsstring
}.

Definition initialState : PaginatedState := mkPaginatedState [] 0 0 0 [].

(** [href.startsWith('http') ? href : baseUrl + href] *)
Definition absolute (h : jsstring) : jsstring :=
  if startsWith (js "http") h then h else Config.BASE_URL ++ h.

Definition mem (u : jsstring) (l : list jsstring) : bool :=
  existsb (fun v => bool_decide (u = v)) l.

(** The inner loop of the [page.evaluate] of [scrapeCurrentPage]; [links]
    holds the URLs pushed so far, which are also the members of
    [processedUrls]. *)
Fixpoint addLinks (elements : list Element) (links : list jsstring)
  : list jsstring :=
  match elements with
  | [] => links
  | element :: rest =>
      match truthyAttr (href element) with
      | Some h =>
          if includes (js "/aid/") h
          then
            let fullUrl := absolute h in
            if mem fullUrl links then addLinks rest links
            else addLinks rest (links ++ [fullUrl])
          else addLinks rest links
      | None => addLinks rest links
      end
  end.

Fixpoint evaluateLinks (p : Page) (selectors : list selector)
    (links : list jsstring) : completion (list jsstring) :=
  match selectors with
  | [] => Normal links
  | sel :: rest =>
      match querySelectorAll p sel with
      | Throw e => Throw e
      | Normal elements => evaluateLinks p rest (addLinks elements links)
      end
  end.

(** [scrapeCurrentPage()]: an exception of the evaluation yields [[]] and
    leaves the counters alone. *)
Definition scrapeCurrentPage (b : Browser)
  : M PaginatedState (list jsstring) :=
  s <- get ;;
  tryCatch
    (videoLinks <-
       lift (evaluateLinks (listingDom (listingAfter b (clicks s)))
               Config.videoLinks []) ;;
     modify (fun s => mkPaginatedState (allVideoData s ++ videoLinks)
                        (processedPages s + 1)
                        (totalFound s + length videoLinks)
                        (clicks s) (navigations s)) ;;;
     ret videoLinks)
    (fun _ => ret []).

(** [hasEnabledNextButton()]: the first image decides; without images,
    a text-based next link counts as enabled. *)
Definition hasEnabledNextButton (l : Listing) : bool :=
  match nextImages l with
  | (isDisabled, _) :: _ => negb isDisabled
  | [] => nextTextLink l
  end.

(** [clickNextButton()]: the first enabled image inside a link is
    clicked, else a text-based next link. *)
Definition clickNextButton (b : Browser) : M PaginatedState bool :=
  s <- get ;;
  let l := listingAfter b (clicks s) in
  if existsb (fun img => negb (fst img) && snd img) (nextImages l)
     || nextTextLinkClick l
  then
    modify (fun s => mkPaginatedState (allVideoData s) (processedPages s)
                       (totalFound s) (clicks s + 1) (navigations s)) ;;;
    ret true
  else ret false.

Definition maxPages : nat := 50.

(** The [while (hasMorePages && this.processedPages < maxPages)] loop of
    [collectAllVideoUrls], entered with [hasMorePages = true]; [fuel]
    bounds the number of rounds. *)
Fixpoint collectLoop (fuel : nat) (b : Browser) : M PaginatedState unit :=
  match fuel with
  | O => outOfFuel
  | S fuel' =>
      s <- get ;;
      if (processedPages s <? maxPages)%nat then
        scrapeCurrentPage b ;;;
        s <- get ;;
        if hasEnabledNextButton (listingAfter b (clicks s)) then
          nextSuccess <- clickNextButton b ;;
          if nextSuccess : bool then collectLoop fuel' b
          else ret tt
        else ret tt
      else ret tt
  end.

(** [extractMp3FromVideoPage(videoUrl, index)]: [None] is the [null] of
    the source. *)
Fixpoint findDownloadLink (p : Page) (selectors : list selector)
  : option jsstring :=
  match selectors with
  | [] => None
  | sel :: rest =>
      match querySelector p sel with
      | Normal (Some downloadElement) =>
          match truthyAttr (href downloadElement) with
          | Some h => Some (absolute h)
          | None => findDownloadLink p rest
          end
      | Normal None => findDownloadLink p rest
      | Throw _ => findDownloadLink p rest
      end
  end.

Definition extractMp3FromVideoPage (b : Browser) (videoUrl : jsstring)
  : M PaginatedState (option Mp3Data) :=
  tryCatch
    (modify (fun s => mkPaginatedState (allVideoData s) (processedPages s)
                        (totalFound s) (clicks s)
                        (navigations s ++ [videoUrl])) ;;;
     p <- lift (videoPage b videoUrl) ;;
     match truthyAttr (findDownloadLink p Config.downloadLinks) with
     | Some downloadLink =>
         ret (Some (mkMp3Data videoUrl downloadLink (extractMetadata p) []))
     | None => ret None
     end)
    (fun _ => ret None).

(** The loop of [extractMetadataFromAllVideos] over [this.allVideoData],
    collecting [extractedData]. *)
Fixpoint extractLoop (b : Browser) (videos : list jsstring)
    (extractedData : list Mp3Data) : M PaginatedState (list Mp3Data) :=
  match videos with
  | [] => ret extractedData
  | videoUrl :: rest =>
      mp3Data <- extractMp3FromVideoPage b videoUrl ;;
      match mp3Data with
      | Some d => extractLoop b rest (extractedData ++ [d])
      | None => extractLoop b rest extractedData
      end
  end.

(** [extractMetadataFromAllVideos()], returning what replaces
    [this.allVideoData]. *)
Definition extractMetadataFromAllVideos (b : Browser)
  : M PaginatedState (list Mp3Data) :=
  s <- get ;;
  extractLoop b (allVideoData s) [].

(** [processAllPages(startUrl)], once the start page is loaded. *)
Definition processAllPages (fuel : nat) (b : Browser)
  : M PaginatedState (list Mp3Data) :=
  collectLoop fuel b ;;;
  extractMetadataFromAllVideos b.

End Paginated.

(** ** checkLoginStatus *)

Module Login.
Import JsString.

(** What the probe of the protected page would meet. *)
Record Probe : Type := mkProbe {
  probeGoto : completion unit;
  probeContent : completion jsstring
}.

Section Check.
Context (lower : jsstring -> jsstring).

(** The inner [try] of method 2: [Some b] is [return b], [None] falls
    through; an exception is caught and falls through as well. *)
Definition probeProtected (w : Probe) : option bool :=
  match probeGoto w with
  | Throw _ => None
  | Normal _ =>
      match probeContent w with
      | Throw _ => None
      | Normal pageContent =>
          if includes (js "login") (lower pageContent)
             || includes (js "sign in") (lower pageContent)
             || includes (js "please log in") (lower pageContent)
          then Some false
          else if includes (js "filedownload") pageContent
                  || includes (js "download") pageContent
                  || includes (js "mp3") pageContent
          then Some true
          else None
      end
  end.

(** The body of the outer [try] of [checkLoginStatus]. *)
Definition checkLoginStatusBody (w : Probe) : completion bool :=
  let basicCheck := true in
  if basicCheck then Normal true
  else
    match probeProtected w with
    | Some b => Normal b
    | None => Normal true
    end.

(** [checkLoginStatus()]: the [catch] returns [true]. *)
Definition checkLoginStatus (w : Probe) : bool :=
  match checkLoginStatusBody w with
  | Normal b => b
  | Throw _ => true
  end.
End Check.

End Login.

(** ** The alphabet of a derived key, and the value of an index *)

Module KeyShape.
Import JsString.

(** [[a-z0-9-]] *)
Definition isSlugChar (c : N) : bool :=
  isLower c || isDigit c || (c =? 45).

(** A slug character, a slash or a point. *)
Definition isKeyChar (c : N) : bool :=
  isSlugChar c || (c =? 47) || (c =? 46).

(** The number that a string of decimal digits denotes. *)
Definition decimalValue (s : jsstring) : N :=
  fold_left (fun acc c => 10 * acc + (c - 48)) s 0.

(** [Number.isSafeInteger(n)] for a non-negative integer: up to 2^53 - 1
    a double holds the integer itself, two such integers are two numbers,
    and [String(n)] is the decimal numeral of [n], as [ofNumber] has it.
    (From 10^21 on [String(n)] is in exponent notation.) *)
Definition isSafeInteger (n : N) : bool := n <=? 2 ^ 53 - 1.

(** The content types of [generateS3Key]. *)
Definition contentTypes : list jsstring :=
  [js "tanya"; js "rabbi-gordon"; js "other"].

(** The parts of a derived key. *)
Record keyParts (index : N) (k ct seg aid fname : jsstring) : Prop :=
  mkKeyParts {
    parts_key : k = ct ++ 47 :: seg ++ 47 :: aid ++ 47
                     :: padStart0 4 (ofNumber index) ++ 45 :: fname
                     ++ js ".mp3";
    parts_ct : In ct contentTypes;
    parts_seg : Forall (fun c => isSlugChar c = true) seg;
    parts_seg_prefix : seg = substring0 80 fname;
    parts_aid : aid = js "unknown"
                \/ (aid <> [] /\ Forall (fun c => isDigit c = true) aid);
    parts_fname : Forall (fun c => isSlugChar c = true) fname;
    parts_fname_length : (length fname <= 100)%nat
  }.

End KeyShape.

(** ** Reading the upload log *)

Module Logs.
Import Processing.

(** The [index] field of a log entry. *)
Definition logIndex (l : LogEntry) : N :=
  match l with
  | LogSuccess index _ _ _ _ => index
  | LogFailed index _ _ _ _ => index
  end.

(** The entries with [status: 'success']. *)
Definition isSuccess (l : LogEntry) : bool :=
  match l with
  | LogSuccess _ _ _ _ _ => true
  | LogFailed _ _ _ _ _ => false
  end.

End Logs.

(** ** Polls that find no file of more than 1000 bytes *)

Module Threshold.
Import Processing.

(** What poll [i] of attempt [a] sees when nothing acceptable is there. *)
Definition undersized (a : DownloadAttempt) (i : nat) : Prop :=
  match staged a i with
  | Normal (Some size) => size <= 1000
  | Normal None => True
  | Throw _ => False
  end.

End Threshold.

(** ** The records of the recursive strategy *)

Module Output.
Import Mp3Scraper Ledger.

(** The ledger is in order, no two records have the same video URL, and
    every record has a video URL that was navigated to and a download URL
    that is not empty. *)
Definition wellRecorded (st : ScraperState) : Prop :=
  wellVisited st
  /\ List.NoDup (List.map videoUrl (scrapedData st))
  /\ forall d, In d (scrapedData st) ->
               In (videoUrl d) (navigations st) /\ downloadUrl d <> [].

(** [st'] comes after [st]: the ledger and the records only grow, and
    [wellRecorded] is kept. *)
Definition keeps (st st' : ScraperState) : Prop :=
  visitedUrls st ⊆ visitedUrls st'
  /\ (exists more, scrapedData st' = scrapedData st ++ more)
  /\ (wellRecorded st -> wellRecorded st').

(** The state after [visitedUrls.add(url)] and [page.goto(url)]. *)
Definition visited (st : ScraperState) (url : jsstring) : ScraperState :=
  mkScraperState ({[url]} ∪ visitedUrls st) (scrapedData st)
    (navigations st ++ [url]).

(** The state after that and [scrapedData.push(d)]. *)
Definition recordedAt (st : ScraperState) (url : jsstring) (d : Mp3Data)
  : ScraperState :=
  mkScraperState ({[url]} ∪ visitedUrls st) (scrapedData st ++ [d])
    (navigations st ++ [url]).

End Output.

(** ** Listing pages, as the loop of the pagination strategy meets them *)

Module Listings.
Import Dom Paginated.

(** The links that [scrapeCurrentPage] collects on the listing shown after
    [k] clicks, or the exception of the evaluation. *)
Definition linksAt (b : Browser) (k : nat) : completion (list jsstring) :=
  evaluateLinks (listingDom (listingAfter b k)) Config.videoLinks [].

(** The evaluation does not throw there. *)
Definition scrapes (b : Browser) (k : nat) : Prop :=
  exists links, linksAt b k = Normal links.

Definition evaluates (b : Browser) (k : nat) : bool :=
  match linksAt b k with
  | Normal _ => true
  | Throw _ => false
  end.

Definition linksOf (b : Browser) (k : nat) : list jsstring :=
  match linksAt b k with
  | Normal links => links
  | Throw _ => []
  end.

(** The test of [clickNextButton]: an enabled image inside a link, or a
    text-based next link. *)
Definition clicksNext (l : Listing) : bool :=
  existsb (fun img => negb (fst img) && snd img) (nextImages l)
  || nextTextLinkClick l.

(** A URL as [scrapeCurrentPage] stores it. *)
Definition collectedUrl (u : jsstring) : Prop :=
  JsString.startsWith (js "http") u = true
  /\ JsString.includes (js "/aid/") u = true.

(** The download link that the second phase finds at a collected URL:
    none when the page fails to load or shows no link. *)
Definition downloadLinkAt (b : Browser) (videoUrl : jsstring)
  : option jsstring :=
  match videoPage b videoUrl with
  | Normal p => truthyAttr (findDownloadLink p Config.downloadLinks)
  | Throw _ => None
  end.

Definition yieldsRecord (b : Browser) (videoUrl : jsstring) : bool :=
  match downloadLinkAt b videoUrl with
  | Some _ => true
  | None => false
  end.

(** A record of the second phase, for the collected URLs [videos]: its
    download URL is the link found at its video URL, its metadata those
    of that page. *)
Definition extractedFrom (b : Browser) (videos : list jsstring)
    (d : Mp3Data) : Prop :=
  In (videoUrl d) videos
  /\ JsString.startsWith (js "http") (downloadUrl d) = true
  /\ downloadLinkAt b (videoUrl d) = Some (downloadUrl d)
  /\ exists p, videoPage b (videoUrl d) = Normal p
               /\ metadata d = extractMetadata p.

End Listings.

(** ** Text without surrounding white space *)

Module Text.
Import JsString.

(** A string that is not empty and neither begins nor ends with white
    space. *)
Definition trimmedNonEmpty (t : jsstring) : Prop :=
  exists c r, t = c :: r
              /\ isWhiteSpace c = false
              /\ isWhiteSpace (List.last t c) = false.

End Text.

(** ** The login of the uploader *)

Module LoginFlow.
Import JsString Eff Login.
Local Open Scope eff_scope.

(** What the login meets: the browser connection, the navigation to the
    home page, the credentials of [config.chabad], the steps of the login
    form, the probe of [checkLoginStatus], and the ENTER of the operator
    ([waitForUserInput]). *)
Record LoginWorld : Type := mkLoginWorld {
  connect : completion unit;
  gotoHome : completion unit;
  email : jsstring;
  password : jsstring;
  waitLoginLink : completion unit;     (* waitForSelector, 5000 ms *)
  loginClicked : completion bool;      (* the evaluate that clicks the link *)
  waitLoginForm : completion unit;     (* waitForSelector, 10000 ms *)
  typeEmail : completion unit;
  typePassword : completion unit;
  submit : completion unit;            (* waitForNavigation and click *)
  probe : Probe;
  userInput : completion unit
}.

(** [this.isLoggedIn], and whether the operator was asked to log in. *)
Record LoginState : Type := mkLoginState {
  isLoggedIn : bool;
  manualAsked : bool
}.

Definition loggedOut : LoginState := mkLoginState false false.

Definition loginRequired : jserror :=
  Error (js "Login required but not completed").

Section Flow.
Context (lower : jsstring -> jsstring).

Definition setLoggedIn (b : bool) : M LoginState unit :=
  modify (fun s => mkLoginState b (manualAsked s)).

(** [attemptLogin()] *)
Definition attemptLogin (w : LoginWorld) : M LoginState bool :=
  if bool_decide (email w = js "YOUR_EMAIL_HERE")
     || bool_decide (password w = js "YOUR_PASSWORD_HERE")
  then ret false
  else
    tryCatch
      (lift (waitLoginLink w) ;;;
       clicked <- lift (loginClicked w) ;;
       if negb clicked then ret false
       else
         lift (waitLoginForm w) ;;;
         lift (typeEmail w) ;;;
         lift (typePassword w) ;;;
         lift (submit w) ;;;
         setLoggedIn (checkLoginStatus lower (probe w)) ;;;
         s <- get ;;
         if isLoggedIn s then ret true else ret false)
      (fun _ => ret false).

(** [handleManualLogin()] *)
Definition handleManualLogin (w : LoginWorld) : M LoginState unit :=
  modify (fun s => mkLoginState (isLoggedIn s) true) ;;;
  lift (userInput w) ;;;
  setLoggedIn (checkLoginStatus lower (probe w)) ;;;
  s <- get ;;
  if isLoggedIn s then ret tt
  else setLoggedIn true.

(** [initializeAndLogin()]: the [catch] logs and throws again. *)
Definition initializeAndLogin (w : LoginWorld) : M LoginState unit :=
  tryCatch
    (lift (connect w) ;;;
     lift (gotoHome w) ;;;
     attemptLogin w ;;;
     s <- get ;;
     (if negb (isLoggedIn s) then handleManualLogin w else ret tt) ;;;
     s <- get ;;
     if negb (isLoggedIn s) then throw loginRequired else ret tt)
    (fun error => throw error).

End Flow.
End LoginFlow.

(** ** The splitter of the scraped file into chunks *)

Module Splitter.
Import JsString.

Definition CHUNK_SIZE : nat := 50.

(** [Math.ceil(n / d)] on a length [n] (lengths are below 2^32, where the
    division and the ceiling of doubles are exact). *)
Definition ceilDiv (n d : nat) : nat := ((n + (d - 1)) / d)%nat.

Section Split.
Context {A : Type}.

(** The parsed input file: [scrapedCount] is a field of the file, not the
    length of [data]. *)
Record Original : Type := mkOriginal {
  scrapedCount : Z;
  data : list A
}.

(** [chunkContent], without the dates and the start URL. *)
Record Chunk : Type := mkChunk {
  chunkNumber : nat;
  totalChunks : nat;
  chunkSize : nat;
  originalScrapedCount : Z;
  startIndex : nat;
  endIndex : Z;
  chunkData : list A
}.

(** An entry of [indexFile.chunks]. *)
Record IndexEntry : Type := mkIndexEntry {
  fileName : jsstring;
  entryNumber : nat;
  entryStart : nat;
  entryEnd : Z;
  entryCount : Z
}.

(** [l.slice(start, end)] for indices that are not negative. *)
Definition slice (l : list A) (start end_ : nat) : list A :=
  firstn (end_ - start) (skipn start l).

Definition chunkFileName (i : nat) : jsstring :=
  (js "scraped_mp3s_chunk_"
   ++ padStart0 2 (ofNumber (N.of_nat (i + 1))) ++ js ".json")%list.

(** The body of the loop at [i]. *)
Definition chunkAt (o : Original) (total i : nat) : Chunk :=
  let startIndex := (i * CHUNK_SIZE)%nat in
  let endIndex := Nat.min (startIndex + CHUNK_SIZE) (length (data o)) in
  let chunkData := slice (data o) startIndex endIndex in
  mkChunk (i + 1) total (length chunkData) (scrapedCount o)
          startIndex (Z.of_nat endIndex - 1) chunkData.

(** The callback of [chunkFiles.map]. *)
Definition indexEntry (o : Original) (name : jsstring) (index : nat)
  : IndexEntry :=
  mkIndexEntry name (index + 1) (index * CHUNK_SIZE)
    (Z.min (Z.of_nat ((index + 1) * CHUNK_SIZE) - 1) (scrapedCount o - 1))
    (Z.min (Z.of_nat CHUNK_SIZE)
           (scrapedCount o - Z.of_nat (index * CHUNK_SIZE))).

(** What [splitMp3Data] writes: the chunk files in the order of the
    writes, and the entries of the index file. *)
Record Written : Type := mkWritten {
  files : list (jsstring * Chunk);
  indexEntries : list IndexEntry
}.

Definition chunkCount (o : Original) : nat :=
  ceilDiv (length (data o)) CHUNK_SIZE.

Definition splitMp3Data (o : Original) : Written :=
  let totalChunks := chunkCount o in
  let written :=
    map (fun i => (chunkFileName i, chunkAt o totalChunks i))
        (seq 0 totalChunks) in
  let chunkFiles := map fst written in
  mkWritten written
    (map (fun p => indexEntry o (snd p) (fst p))
         (combine (seq 0 (length chunkFiles)) chunkFiles)).

Definition chunks (o : Original) : list Chunk :=
  map snd (files (splitMp3Data o)).

End Split.

Arguments Original : clear implicits.
Arguments Chunk : clear implicits.
Arguments Written : clear implicits.

(** The index entry and the chunk say the same. *)
Definition agree {A : Type} (e : IndexEntry) (c : Chunk A) : Prop :=
  entryNumber e = chunkNumber c
  /\ entryStart e = startIndex c
  /\ entryEnd e = endIndex c
  /\ entryCount e = Z.of_nat (chunkSize c).

End Splitter.

(** ** The metadata headers of an upload *)

Module Headers.
Import JsString Processing.

(** A header value that S3 accepts: printable ASCII, 1024 units at most. *)
Definition safeHeader (h : jsstring) : Prop :=
  Forall (fun c => 32 <= c <= 126) h /\ (length h <= 1024)%nat.

(** An event that is no upload, or an upload whose five derived headers
    are all safe. *)
Definition safeEvent (e : event) : Prop :=
  match e with
  | Upload _ headers => length headers = 5%nat /\ Forall safeHeader headers
  | _ => True
  end.

Definition safeTrace (s : UploaderState) : Prop :=
  Forall safeEvent (events s).

End Headers.

(** ** The uploader on a disk whose calls can fail

    [Processing.processSingleMp3] takes the calls of [fs] on the temporary
    file to succeed.  Here their completions are inputs: [fs.statSync],
    the [fs.readFileSync] of [uploadToS3], the [fs.unlinkSync] that ends
    the [try], after the success was counted and logged, and the
    [fs.unlinkSync] of the [catch].  The two models agree when the calls
    succeed ([DiskFacts.processSingleMp3_reliable]). *)

Module Disk.
Import JsString Uploader Processing Outcome Eff.
Local Open Scope eff_scope.

(** The completions of the calls of [fs] on [tempFilePath] for one
    record. *)
Record FileCalls : Type := mkFileCalls {
  statTemp : completion unit;        (* fs.statSync(tempFilePath) *)
  readTemp : completion unit;        (* fs.readFileSync(filePath) *)
  afterUpload : completion unit;     (* fs.unlinkSync, last of the [try] *)
  inCatch : completion unit          (* fs.unlinkSync of the [catch] *)
}.

Definition reliable : FileCalls :=
  mkFileCalls (Normal tt) (Normal tt) (Normal tt) (Normal tt).

(** [fs.unlinkSync(tempFilePath)]: the file is gone when the call
    returns. *)
Definition unlinkSync (c : completion unit) : M UploaderState unit :=
  emit Unlink ;;;
  lift c ;;;
  setTempFile None.

(** [if (fs.existsSync(tempFilePath)) fs.unlinkSync(tempFilePath)] *)
Definition cleanupTemp (c : completion unit) : M UploaderState unit :=
  s <- get ;;
  match tempFile s with
  | Some _ => unlinkSync c
  | None => ret tt
  end.

(** [uploadToS3(filePath, s3Key, metadata)]: the file is read before the
    upload is called. *)
Definition uploadToS3 (env : RecordEnv) (u : FileCalls) (s3Key : jsstring)
    (m : Metadata) (sourceUrl : jsstring) : M UploaderState jsstring :=
  lift (readTemp u) ;;;
  Processing.uploadToS3 env s3Key m sourceUrl.

(** [processSingleMp3(mp3Data, index)] *)
Definition processSingleMp3 (cfg : Config) (env : RecordEnv) (u : FileCalls)
    (mp3Data : Mp3Data) (index : N) : M UploaderState RagEntry :=
  setTempFile None ;;;          (* a fresh temp_<index>_<now>.mp3 *)
  tryCatch
    (downloadAuthenticatedMp3 (downloadFuel cfg) cfg env
       (downloadUrl mp3Data) (videoUrl mp3Data) 0%nat ;;;
     s <- get ;;
     match tempFile s with
     | None => throw (Error (js "File not downloaded"))
     | Some fileSize =>
         lift (statTemp u) ;;;
         if fileSize <? 1000 then throw (fileTooSmall fileSize)
         else
           s3Key <- lift (generateS3Key mp3Data index) ;;
           s3Url <- uploadToS3 env u s3Key (metadata mp3Data)
                      (videoUrl mp3Data) ;;
           let ragEntry := createRAGMetadata mp3Data s3Url s3Key index in
           pushRag ragEntry ;;;
           pushLog (LogSuccess index (title (metadata mp3Data)) s3Key s3Url
                      fileSize) ;;;
           incUploaded ;;;
           unlinkSync (afterUpload u) ;;;
           ret ragEntry
     end)
    (fun error =>
       pushLog (LogFailed index (title (metadata mp3Data))
                  (downloadUrl mp3Data) (videoUrl mp3Data) error) ;;;
       incFailed ;;;
       cleanupTemp (inCatch u) ;;;
       throw error).

(** The [for] loop of [processAllMp3s]; [disk i] is what the calls of
    [fs] for the record of array index [i] meet. *)
Fixpoint processLoop (cfg : Config) (env : nat -> RecordEnv)
    (disk : nat -> FileCalls) (total : nat) (i : nat)
    (rest : list Mp3Data) : M UploaderState unit :=
  match rest with
  | [] => ret tt
  | mp3Data :: rest' =>
      let globalIndex := (i + 1)%nat in
      tryCatch
        (processSingleMp3 cfg (env i) (disk i) mp3Data
           (N.of_nat globalIndex) ;;;
         ret tt)
        (fun _ => ret tt) ;;;    (* continue with next MP3 *)
      (if (globalIndex <? total)%nat then emit (Sleep 2000) else ret tt) ;;;
      processLoop cfg env disk total (S i) rest'
  end.

(** [processAllMp3s(mp3Array)] *)
Definition processAllMp3s (cfg : Config) (w : World)
    (disk : nat -> FileCalls) (mp3Array : list Mp3Data)
  : M UploaderState unit :=
  lift (initializeAndLogin w) ;;;
  match mp3Array with
  | first :: _ =>
      tryCatch
        (emit (Goto (videoUrl first)) ;;;
         lift (authTestGoto w) ;;;
         emit (Sleep 2000))
        (fun _ => ret tt)
  | [] => ret tt
  end ;;;
  tryFinally
    (processLoop cfg (recordEnv w) disk (length mp3Array) 0 mp3Array)
    (addEvent CloseBrowser).

(** The upload of a record was accepted, and the deletion of its
    temporary file then failed. *)
Definition deletionFailedAfterUpload (cfg : Config) (env : RecordEnv)
    (u : FileCalls) (r : Mp3Data) (index : N) : Prop :=
  exists j size key url e,
    retrievalSucceedsAt cfg env j size
    /\ statTemp u = Normal tt
    /\ generateS3Key r index = Normal key
    /\ readTemp u = Normal tt
    /\ s3upload env key = Normal url
    /\ afterUpload u = Throw e.

(** How often the record of array index [k] is counted and logged: twice
    when its upload was accepted and the deletion then failed, else
    once. *)
Definition countOf (cfg : Config) (env : nat -> RecordEnv)
    (disk : nat -> FileCalls) (k : nat) (r : Mp3Data) (c : nat)
  : Prop :=
  (c = 1%nat
   /\ ~ deletionFailedAfterUpload cfg (env k) (disk k) r
         (N.of_nat (k + 1)))
  \/ (c = 2%nat
      /\ deletionFailedAfterUpload cfg (env k) (disk k) r
           (N.of_nat (k + 1))).

(** The log entries of the records from array index [i] on, of which the
    [k]-th has [nth k counts] entries. *)
Fixpoint loggedIndices (i : nat) (counts : list nat) : list N :=
  match counts with
  | [] => []
  | c :: counts' =>
      repeat (N.of_nat (i + 1)) c ++ loggedIndices (S i) counts'
  end.

End Disk.

(** ** Example inputs *)

Module Examples.
Import JsString Uploader.

Definition gordonTitle : jsstring := js "Rabbi Gordon: Bereishit!".

Definition gordonPath : jsstring := js "/multimedia/video_cdo/aid/4886452/".

Definition gordonKey : jsstring :=
  js "rabbi-gordon/rabbi-gordon-bereishit/4886452/0001-rabbi-gordon-bereishit.mp3".

Definition gordonMetadata : Metadata :=
  mkMetadata (Some gordonTitle) None None None None.

(** A record of the Rabbi Gordon section. *)
Definition gordonRecord : Mp3Data :=
  mkMp3Data
    (js "https://www.chabad.org/multimedia/video_cdo/aid/4886452/jewish/Bereishit.htm")
    (js "https://www.chabad.org/multimedia/filedownload_cdo/aid/4886453")
    gordonMetadata [].

(** A record whose URL has the same path below [/library/tanya/]. *)
Definition tanyaGordonRecord : Mp3Data :=
  mkMp3Data
    (js "https://www.chabad.org/library/tanya/multimedia/video_cdo/aid/4886452/jewish/Bereishit.htm")
    (js "https://www.chabad.org/multimedia/filedownload_cdo/aid/4886453")
    gordonMetadata [].

(** A record without a title. *)
Definition untitledRecord : Mp3Data :=
  mkMp3Data
    (js "https://www.chabad.org/multimedia/video_cdo/aid/4886452/jewish/Bereishit.htm")
    (js "https://www.chabad.org/multimedia/filedownload_cdo/aid/4886453")
    emptyMetadata [].

End Examples.

Module PageExamples.
Import JsString Dom.
Local Open Scope string_scope.

Definition anchor (text : jsstring) : Element :=
  mkElement None None (Some text) true.

(** A video page whose [span.article-header__byline] holds an anchor with
    blank text, after a [div.article-header__byline] that holds the
    author's name: the first author selector matches the blank anchor,
    the second one matches the named anchor first. *)
Definition bylinePage : Page :=
  mkPage
    (fun sel =>
       if String.eqb sel "span.article-header__byline a"
       then Normal [anchor (js "  ")]
       else if String.eqb sel ".article-header__byline a"
       then Normal [anchor (js "Yehoshua B. Gordon"); anchor (js "  ")]
       else if String.eqb sel ".podcast_icon a"
       then Normal [anchor (js " ")]
       else Normal [])
    (Normal (js "Bereishit"))
    (js "https://www.chabad.org/multimedia/video_cdo/aid/4886452/jewish/Bereishit.htm")
    (Normal (js "Bereishit")).

(** A page with a reCAPTCHA container that is not rendered: the element
    is in the document, its [offsetParent] is null. *)
Definition dormantWidget : Element := mkElement None None (Some []) false.

Definition dormantCaptchaPage : Page :=
  mkPage
    (fun sel =>
       if String.eqb sel (List.nth 1 Mp3Scraper.activeCaptchaSelectors EmptyString)
       then Normal [dormantWidget]
       else Normal [])
    (Normal (js "Parshah With Rabbi Gordon"))
    (js "https://www.chabad.org/multimedia/video_cdo/aid/935151/jewish/Parshah.htm")
    (Normal (js "Daily classes")).

End PageExamples.

Module WorldExamples.
Import JsString Processing Examples.

(** An attempt whose file arrives at the first poll, with 5 MB. *)
Definition goodAttempt : DownloadAttempt :=
  mkDownloadAttempt (Normal tt) (Normal tt) (Normal true)
    (fun _ => Normal (Some 5000000)).

(** An attempt whose file is an error page of 500 bytes at every poll. *)
Definition smallFileAttempt : DownloadAttempt :=
  mkDownloadAttempt (Normal tt) (Normal tt) (Normal true)
    (fun _ => Normal (Some 500)).

Definition s3Location (key : jsstring) : jsstring :=
  js "https://bucket.s3.us-east-2.amazonaws.com/" ++ key.

Definition goodEnv : RecordEnv :=
  mkRecordEnv (fun _ => goodAttempt) (fun key => Normal (s3Location key)).

Definition failingEnv : RecordEnv :=
  mkRecordEnv (fun _ => smallFileAttempt)
    (fun key => Normal (s3Location key)).

(** A run of three records in which the retrieval of the second one
    always fails. *)
Definition secondFails : World :=
  mkWorld (Normal tt) (Normal tt)
    (fun i => if Nat.eqb i 1 then failingEnv else goodEnv).

End WorldExamples.

Module SiteExamples.
Import JsString Dom.
Local Open Scope string_scope.

Definition resolve (h : jsstring) : completion jsstring :=
  Normal (Config.BASE_URL ++ h)%list.

Definition link (h : jsstring) : Element :=
  mkElement (Some h) None (Some (js "View All")) true.

Definition plainPage (q : selector -> completion (list Element)) : Page :=
  mkPage q (Normal (js "Parshah")) (js "https://www.chabad.org/") 
    (Normal (js "Classes")).

Definition sectionA : jsstring :=
  js "/multimedia/video_cdo/aid/935151/jewish/Parshah.htm".
Definition videoB : jsstring :=
  js "/multimedia/video_cdo/aid/4886452/jewish/Bereishit.htm".

(** Page A, whose "view all" link leads to A itself. *)
Definition selfLinked : LoadedPage :=
  fun _ =>
    plainPage (fun sel =>
      if String.eqb sel "a.vs-video-row__header__more-link"
      then Normal [link sectionA]
      else Normal []).

(** A site made of page A alone. *)
Definition selfLoopSite : gmap jsstring LoadedPage :=
  {[ (Config.BASE_URL ++ sectionA)%list := selfLinked ]}.

(** Two listing pages of the pagination strategy that show the same
    video; the next button of the second one is disabled. *)
Definition listingWith (nextDisabled : bool) : Paginated.Listing :=
  Paginated.mkListing
    (plainPage (fun sel =>
       if String.eqb sel "a.watch-link" then Normal [link videoB]
       else Normal []))
    [(nextDisabled, true)] false false.

Definition repeatedListing : Paginated.Browser :=
  Paginated.mkBrowser
    (fun k => listingWith (Nat.leb 1 k))
    (fun _ => Throw (Error (js "net::ERR_FAILED"))).

End SiteExamples.

Module ListingExamples.
Import JsString Dom SiteExamples.

(** Five listing pages; the next button of the fifth one is disabled. *)
Definition fivePages : Paginated.Browser :=
  Paginated.mkBrowser
    (fun k => listingWith (Nat.leb 4 k))
    (fun _ => Throw (Error (js "net::ERR_FAILED"))).

(** Listing pages without end: the next button always works. *)
Definition endless : Paginated.Browser :=
  Paginated.mkBrowser
    (fun _ => listingWith false)
    (fun _ => Throw (Error (js "net::ERR_FAILED"))).

End ListingExamples.

Module LoginExamples.
Import JsString LoginFlow.

(** A login in which the form cannot be found and the operator logs in by
    hand. *)
Definition formMissing : LoginWorld :=
  mkLoginWorld (Normal tt) (Normal tt) (js "me@example.org") (js "secret")
    (Throw (Error (js "waiting for selector failed: timeout 5000ms")))
    (Normal false) (Normal tt) (Normal tt) (Normal tt) (Normal tt)
    (Login.mkProbe (Normal tt) (Normal (js "Please log in")))
    (Normal tt).

End LoginExamples.

Module SplitExamples.
Import Splitter.

(** A file of 120 entries that declares 120. *)
Definition hundredTwenty : Original nat :=
  mkOriginal 120%Z (seq 0 120).

End SplitExamples.

Module DiskExamples.
Import JsString Processing Disk.

(** A disk on which the temporary file cannot be deleted at the end of the
    [try], and can be in the [catch]. *)
Definition busyOnce : FileCalls :=
  mkFileCalls (Normal tt) (Normal tt)
    (Throw (Error (js "EBUSY: resource busy or locked, unlink")))
    (Normal tt).

End DiskExamples.
(** * Properties *)

(** ** Strings *)

Module JsStringFacts.
Import JsString.

Lemma stripPrefix_app (p rest : jsstring) :
  stripPrefix p (p ++ rest) = Some rest.
Proof.
  induction p as [|a p IH]; simpl; [reflexivity|].
  rewrite N.eqb_refl. exact IH.
Qed.

Lemma startsWith_app (p rest : jsstring) : startsWith p (p ++ rest) = true.
Proof. unfold startsWith. now rewrite stripPrefix_app. Qed.

Lemma includes_unfold (sub s : jsstring) :
  includes sub s =
  startsWith sub s || match s with [] => false | _ :: r => includes sub r end.
Proof. destruct s; reflexivity. Qed.

Lemma includes_app (sub pre post : jsstring) :
  includes sub (pre ++ sub ++ post) = true.
Proof.
  induction pre as [|c pre IH].
  - rewrite includes_unfold. simpl. now rewrite startsWith_app.
  - simpl. rewrite IH. apply orb_true_r.
Qed.

(** A match of [/\/aid\/\d+/] that starts inside [l] cannot be completed by
    a continuation that begins with ["/m"]. *)
Lemma aidAt_straddle (l rest : jsstring) :
  aidAt l = None -> aidAt (l ++ 47 :: 109 :: rest) = None.
Proof.
  unfold aidAt.
  destruct l as [|c0 [|c1 [|c2 [|c3 [|c4 [|c5 l]]]]]];
    cbn [js List.map list_ascii_of_string app stripPrefix];
    change (N_of_ascii "/") with 47; change (N_of_ascii "a") with 97;
    change (N_of_ascii "i") with 105; change (N_of_ascii "d") with 100;
    repeat match goal with
      | |- context [N.eqb ?a ?b] =>
          first [ is_var b; destruct (N.eqb a b) eqn:?
                | let v := eval vm_compute in (N.eqb a b) in
                  change (N.eqb a b) with v ];
          cbn [stripPrefix]; try reflexivity
      end.
  cbn [takeWhile]. destruct (isDigit c5); [discriminate | reflexivity].
Qed.

Lemma matchAid_skip (pre rest : jsstring) :
  matchAid pre = None ->
  matchAid (pre ++ 47 :: 109 :: rest) = matchAid (47 :: 109 :: rest).
Proof.
  induction pre as [|c pre IH]; [reflexivity|].
  intros H. change (matchAid ((c :: pre) ++ 47 :: 109 :: rest))
    with (match aidAt ((c :: pre) ++ 47 :: 109 :: rest) with
          | Some ds => Some ds
          | None => matchAid (pre ++ 47 :: 109 :: rest)
          end).
  assert (Hc : aidAt (c :: pre) = None /\ matchAid pre = None).
  { simpl in H. destruct (aidAt (c :: pre)); [discriminate H | now split]. }
  destruct Hc as [Hc Hp].
  rewrite (aidAt_straddle _ _ Hc). now apply IH.
Qed.

Lemma Forall_filter_true (p : N -> bool) (s : jsstring) :
  Forall (fun c => p c = true) (List.filter p s).
Proof.
  induction s as [|c s IH]; simpl; [constructor|].
  destruct (p c) eqn:E; [constructor; assumption | assumption].
Qed.

Lemma Forall_filter_keep (P : N -> Prop) (p : N -> bool) (s : jsstring) :
  Forall P s -> Forall P (List.filter p s).
Proof.
  induction 1 as [|c s Hc Hs IH]; simpl; [constructor|].
  destruct (p c); [constructor; assumption | assumption].
Qed.

Lemma Forall_dropWhile (P : N -> Prop) (p : N -> bool) (s : jsstring) :
  Forall P s -> Forall P (dropWhile p s).
Proof.
  induction 1 as [|c s Hc Hs IH]; simpl; [constructor|].
  destruct (p c); [assumption | constructor; assumption].
Qed.

Lemma Forall_trim (P : N -> Prop) (s : jsstring) :
  Forall P s -> Forall P (trim s).
Proof.
  intros H. unfold trim.
  apply Forall_rev, Forall_dropWhile, Forall_rev, Forall_dropWhile, H.
Qed.

Lemma Forall_substring0 (P : N -> Prop) (n : nat) (s : jsstring) :
  Forall P s -> Forall P (substring0 n s).
Proof.
  intros H. unfold substring0. revert n.
  induction H as [|c s Hc Hs IH]; intros [|n]; simpl; constructor; auto.
Qed.

Lemma length_substring0 (n : nat) (s : jsstring) :
  (length (substring0 n s) <= n)%nat.
Proof. unfold substring0. rewrite List.length_firstn. lia. Qed.

End JsStringFacts.

(** ** Key derivation and header sanitising *)

Module UploaderFacts.
Import JsString Uploader JsStringFacts Examples.

Lemma matchAid_gordonPath (pre post : jsstring) :
  matchAid pre = None ->
  matchAid (pre ++ gordonPath ++ post) = Some (js "4886452").
Proof.
  intros H. change (gordonPath ++ post) with
    (47 :: 109 :: (js "ultimedia/video_cdo/aid/4886452/" ++ post)).
  rewrite (matchAid_skip _ _ H). reflexivity.
Qed.

Lemma contentTypeOf_gordon (pre post : jsstring) :
  includes (js "/library/tanya/") (pre ++ gordonPath ++ post) = false ->
  contentTypeOf (pre ++ gordonPath ++ post) = js "rabbi-gordon".
Proof.
  intros H. unfold contentTypeOf. rewrite H.
  change (gordonPath ++ post) with
    (js "/multimedia/video_cdo/" ++ (js "aid/4886452/" ++ post)).
  now rewrite includes_app.
Qed.

(** C1, as amended: for a record with a title, [generateS3Key] returns the
    key [contentType/cleanTitle/aid/paddedIndex-cleanFilename.mp3], a
    function of the record and the index alone; and when the URL contains
    [/multimedia/video_cdo/aid/4886452/], does not contain
    [/library/tanya/], has no [/aid/<digits>] before that path, the title
    is "Rabbi Gordon: Bereishit!" and the index is 1, the key is
    [rabbi-gordon/rabbi-gordon-bereishit/4886452/0001-rabbi-gordon-bereishit.mp3]. *)
Theorem generateS3Key_derivation (r : Mp3Data) (index : N) (t : jsstring) :
  title (metadata r) = Some t ->
  generateS3Key r index =
    Normal (contentTypeOf (videoUrl r) ++ js "/"
            ++ substring0 80 (cleanChain t) ++ js "/"
            ++ aidOf (videoUrl r) ++ js "/"
            ++ padStart0 4 (ofNumber index) ++ js "-"
            ++ substring0 100 (cleanChain t) ++ js ".mp3")
  /\ (forall pre post : jsstring,
        videoUrl r = pre ++ gordonPath ++ post ->
        includes (js "/library/tanya/") (videoUrl r) = false ->
        matchAid pre = None ->
        t = gordonTitle ->
        index = 1 ->
        generateS3Key r index = Normal gordonKey).
Proof.
  intros Ht. unfold generateS3Key. rewrite Ht. split; [reflexivity|].
  intros pre post Hurl Htanya Hpre -> ->.
  rewrite Hurl in Htanya |- *.
  rewrite (contentTypeOf_gordon _ _ Htanya).
  unfold aidOf. rewrite (matchAid_gordonPath _ _ Hpre).
  reflexivity.
Qed.

Lemma generateS3Key_derivation_witness :
  generateS3Key gordonRecord 1 = Normal gordonKey.
Proof.
  refine (proj2 (generateS3Key_derivation gordonRecord 1 gordonTitle _)
            (js "https://www.chabad.org") (js "jewish/Bereishit.htm")
            _ _ _ _ _); reflexivity.
Defined.

(** C1, as stated, fails: a URL that contains
    [/multimedia/video_cdo/aid/4886452/] below [/library/tanya/] is
    classified as tanya. *)
Lemma generateS3Key_tanya_first :
  includes gordonPath (videoUrl tanyaGordonRecord) = true
  /\ title (metadata tanyaGordonRecord) = Some gordonTitle
  /\ generateS3Key tanyaGordonRecord 1 =
       Normal (js "tanya/rabbi-gordon-bereishit/4886452/0001-rabbi-gordon-bereishit.mp3")
  /\ generateS3Key tanyaGordonRecord 1 <> Normal gordonKey.
Proof.
  split; [reflexivity|]. split; [reflexivity|]. split; [reflexivity|].
  vm_compute. discriminate.
Qed.

(** The receiver of [toLowerCase] in [generateS3Key] has letters, digits
    and hyphens only, where [toLowerCase] is the Basic Latin mapping. *)
Lemma replaceWsRuns_ascii (b : bool) (s : jsstring) :
  Forall (fun c => isTitleChar c = true) s ->
  Forall (fun c => isLower c || isUpper c || isDigit c || (c =? 45) = true)
    (replaceWsRuns b s).
Proof.
  intros H. revert b. induction H as [|c s Hc Hs IH]; intros b; simpl.
  - constructor.
  - destruct (isWhiteSpace c) eqn:Ews.
    + destruct b; [apply IH | constructor; [reflexivity | apply IH]].
    + constructor; [|apply IH].
      unfold isTitleChar in Hc. rewrite Ews in Hc.
      now rewrite orb_false_r in Hc.
Qed.

Lemma cleanChain_receiver_ascii (t : jsstring) :
  Forall (fun c => isLower c || isUpper c || isDigit c || (c =? 45) = true)
    (replaceWsRuns false (keepClass isTitleChar t)).
Proof. apply replaceWsRuns_ascii, Forall_filter_true. Qed.

(** C5: the result of [sanitizeMetadataValue] has printable ASCII code
    units only (none below 0x20, none above 0x7E), and at most 1024 of
    them. *)
Theorem sanitizeMetadataValue_safe (value : option jsstring) :
  Forall (fun c => 32 <= c <= 126) (sanitizeMetadataValue value)
  /\ Forall (fun c => isControl c = false) (sanitizeMetadataValue value)
  /\ (length (sanitizeMetadataValue value) <= 1024)%nat.
Proof.
  assert (Hp : forall s,
    Forall (fun c => isPrintableAscii c = true)
      (substring0 1024
         (trim (dropClass isControl (keepClass isPrintableAscii s))))).
  { intros s. apply Forall_substring0, Forall_trim, Forall_filter_keep,
      Forall_filter_true. }
  assert (Hrange : forall c, isPrintableAscii c = true -> 32 <= c <= 126).
  { intros c Hc. unfold isPrintableAscii, inRange in Hc.
    apply andb_true_iff in Hc as [H1 H2].
    apply N.leb_le in H1, H2. now split. }
  assert (Hctl : forall c, isPrintableAscii c = true -> isControl c = false).
  { intros c Hc. apply Hrange in Hc. unfold isControl, inRange.
    apply orb_false_iff. split.
    - apply andb_false_iff. right. apply N.leb_gt. lia.
    - apply N.eqb_neq. lia. }
  destruct value as [[|c s]|].
  1, 3: repeat split; try constructor; simpl; lia.
  change (sanitizeMetadataValue (Some (c :: s))) with
    (substring0 1024
       (trim (dropClass isControl (keepClass isPrintableAscii (c :: s))))).
  repeat split.
  - eapply List.Forall_impl; [|apply Hp]. exact Hrange.
  - eapply List.Forall_impl; [|apply Hp]. exact Hctl.
  - apply length_substring0.
Qed.

End UploaderFacts.

(** ** CAPTCHA detection, login status, metadata extraction *)

Module PageFacts.
Import JsString Dom Mp3Scraper PageExamples.
Local Open Scope string_scope.

Lemma existsb_false {A : Type} (f : A -> bool) (l : list A) :
  (forall x, In x l -> f x = false) -> existsb f l = false.
Proof.
  induction l as [|a l IH]; intros H; simpl; [reflexivity|].
  rewrite (H a (or_introl eq_refl)). apply IH.
  intros x Hx. apply H. now right.
Qed.

(** C7: when every challenge element that the selectors find has a null
    [offsetParent], the title and the URL show no challenge phrase and
    the body text has none either, [checkForCaptcha] returns false. *)
Theorem checkForCaptcha_ignores_hidden
    (lower : jsstring -> jsstring) (p : Page) :
  (forall sel el, In sel activeCaptchaSelectors ->
     querySelector p sel = Normal (Some el) -> offsetParent el = false) ->
  (forall t, pageTitle p = Normal t ->
     Forall (fun indicator => indicator = false)
       (captchaIndicators lower t (pageUrl p))) ->
  (forall text phrase, bodyInnerText p = Normal text ->
     In phrase challengePhrases -> includes phrase (lower text) = false) ->
  checkForCaptcha lower p = false.
Proof.
  intros Hhidden Htitle Hbody. unfold checkForCaptcha.
  assert (E1 : existsb (activeCaptchaAt p) activeCaptchaSelectors = false).
  { apply existsb_false. intros sel Hsel. unfold activeCaptchaAt.
    destruct (querySelector p sel) as [[el|]|] eqn:E; try reflexivity.
    now apply (Hhidden sel el). }
  assert (E2 : challengePage lower p = false).
  { unfold challengePage. destruct (pageTitle p) as [t|] eqn:E;
      [|reflexivity].
    apply existsb_false. intros b Hb.
    specialize (Htitle t eq_refl).
    rewrite List.Forall_forall in Htitle. now apply Htitle. }
  assert (E3 : challengeText lower p = false).
  { unfold challengeText. destruct (bodyInnerText p) as [text|] eqn:E;
      [|reflexivity].
    destruct (truthy text); [|reflexivity].
    apply existsb_false. intros phrase Hphrase.
    now apply (Hbody text phrase). }
  now rewrite E1, E2, E3.
Qed.

Lemma checkForCaptcha_ignores_hidden_witness :
  querySelector dormantCaptchaPage (List.nth 1 activeCaptchaSelectors EmptyString)
    = Normal (Some dormantWidget)
  /\ checkForCaptcha toLowerCase dormantCaptchaPage = false.
Proof.
  split; [reflexivity|].
  apply (checkForCaptcha_ignores_hidden toLowerCase dormantCaptchaPage).
  - intros sel el Hsel. simpl in Hsel.
    destruct Hsel as [<-|[<-|[<-|[<-|[<-|[]]]]]]; vm_compute;
      intros H; inversion H; reflexivity.
  - intros t H. vm_compute in H. inversion H; subst.
    vm_compute. repeat constructor.
  - intros text phrase H Hphrase. vm_compute in H. inversion H; subst.
    simpl in Hphrase.
    destruct Hphrase as [<-|[<-|[<-|[<-|[<-|[]]]]]]; reflexivity.
Defined.

(** The same element, rendered, is detected. *)
Lemma checkForCaptcha_detects_visible
    (lower : jsstring -> jsstring) (p : Page) (sel : selector)
    (el : Element) :
  In sel activeCaptchaSelectors ->
  querySelector p sel = Normal (Some el) ->
  offsetParent el = true ->
  checkForCaptcha lower p = true.
Proof.
  intros Hsel Hq Hvis. unfold checkForCaptcha.
  assert (E : existsb (activeCaptchaAt p) activeCaptchaSelectors = true).
  { apply existsb_exists. exists sel. split; [assumption|].
    unfold activeCaptchaAt. now rewrite Hq. }
  now rewrite E.
Qed.

(** C9: [checkLoginStatus] returns true whatever the probe of the
    protected page would show: the body of the [try] returns at the
    [basicCheck] test, so [probeProtected] does not contribute, and the
    [catch] returns true as well. *)
Theorem checkLoginStatus_always_true
    (lower : jsstring -> jsstring) (w : Login.Probe) :
  Login.checkLoginStatusBody lower w = Normal true
  /\ Login.checkLoginStatus lower w = true
  /\ (forall e, match (Throw e : completion bool) with
                | Normal b => b
                | Throw _ => true
                end = true).
Proof. repeat split. Qed.

(** A probe on which the unreachable method 2 would have answered
    "not logged in". *)
Lemma probeProtected_login_page :
  Login.probeProtected toLowerCase
    (Login.mkProbe (Normal tt) (Normal (js "Please Log In"))) = Some false.
Proof. reflexivity. Qed.

(** *** Metadata extraction *)

Lemma firstOf_Some {A : Type} (body : selector -> option A)
    (selectors : list selector) (a : A) :
  Extract.firstOf body selectors = Some a <->
  exists before sel after,
    selectors = (before ++ sel :: after)%list
    /\ Forall (fun s => body s = None) before
    /\ body sel = Some a.
Proof.
  split.
  - induction selectors as [|s rest IH]; simpl; [discriminate|].
    destruct (body s) as [b|] eqn:E.
    + intros [= ->]. exists [], s, rest. repeat split; [constructor | exact E].
    + intros H. destruct (IH H) as (before & sel & after & -> & Hb & Hs).
      exists (s :: before), sel, after.
      repeat split; [constructor; assumption | exact Hs].
  - intros (before & sel & after & -> & Hb & Hs).
    induction Hb as [|s before Hs' Hb IH]; simpl.
    + now rewrite Hs.
    + now rewrite Hs'.
Qed.

Lemma firstOf_None {A : Type} (body : selector -> option A)
    (selectors : list selector) :
  Extract.firstOf body selectors = None <->
  Forall (fun s => body s = None) selectors.
Proof.
  induction selectors as [|s rest IH]; simpl.
  - split; [constructor | reflexivity].
  - destruct (body s) eqn:E.
    + split; [discriminate|]. intros H. inversion H; congruence.
    + rewrite IH. split; [now constructor | intros H; now inversion H].
Qed.

Lemma nonEmptyText_Some (p : Page) (sel : selector) (t : jsstring) :
  Extract.nonEmptyText p sel = Some t ->
  t <> [] /\ exists el text, querySelector p sel = Normal (Some el)
                             /\ innerText el = Some text /\ t = trim text.
Proof.
  unfold Extract.nonEmptyText.
  destruct (querySelector p sel) as [[el|]|]; try discriminate.
  destruct (innerText el) as [text|] eqn:Et; try discriminate.
  destruct (truthy text); simpl; try discriminate.
  destruct (trim text) as [|c r] eqn:E; simpl; try discriminate.
  intros [= <-]. split; [discriminate|]. exists el, text.
  split; [reflexivity|]. split; [exact Et | now rewrite E].
Qed.

(** In paginated_scraper.js each of title, author, podcast and synopsis
    is the trimmed text of the first selector whose first match has
    non-blank text, and is unset when there is none. *)
Lemma paginated_first_non_empty (p : Page) (t : jsstring) :
  let m := Paginated.extractMetadata p in
  (title m = Some t -> t <> [])
  /\ (author m = Some t -> t <> [])
  /\ (podcast m = Some t -> t <> [])
  /\ (synopsis m = Some t -> t <> []).
Proof.
  cbv zeta. unfold Paginated.extractMetadata; cbn [title author podcast synopsis].
  repeat split; intros H; apply firstOf_Some in H;
    destruct H as (? & sel & ? & _ & _ & H);
    now apply nonEmptyText_Some in H.
Qed.

(** C8, on the page [bylinePage]: the author loop of mp3_scraper.js stops
    at the first selector that matches and stores its blank text as the
    empty string, where the first non-empty match is the named anchor of
    the second selector, which paginated_scraper.js returns; the podcast
    loop stores the empty string where the field should stay unset. *)
Theorem extractMetadata_author_first_match_even_if_blank :
  Extract.nonEmptyText bylinePage "span.article-header__byline a" = None
  /\ Extract.nonEmptyText bylinePage ".article-header__byline a"
       = Some (js "Yehoshua B. Gordon")
  /\ author (Mp3Scraper.extractMetadata bylinePage) = Some []
  /\ author (Paginated.extractMetadata bylinePage)
       = Some (js "Yehoshua B. Gordon")
  /\ podcast (Mp3Scraper.extractMetadata bylinePage) = Some []
  /\ podcast (Paginated.extractMetadata bylinePage) = None.
Proof. repeat split. Qed.

End PageFacts.

(** ** Retrieval with retries *)

Module DownloadFacts.
Import JsString Uploader Processing Outcome Eff.

Lemma frame_refl (s : UploaderState) : frame s s [].
Proof. constructor; try reflexivity. now rewrite app_nil_r. Qed.

Lemma frame_trans (s1 s2 s3 : UploaderState) (e1 e2 : list event) :
  frame s1 s2 e1 -> frame s2 s3 e2 -> frame s1 s3 (e1 ++ e2).
Proof.
  intros [] []. constructor; try congruence.
  rewrite app_assoc. congruence.
Qed.

Lemma quiet_attemptLogs (evs : list event) :
  Forall quiet evs -> attemptLogs evs = [].
Proof.
  induction 1 as [|e evs He _ IH]; [reflexivity|].
  destruct e; simpl in *; try contradiction; exact IH.
Qed.

Lemma quiet_retryWaits (evs : list event) :
  Forall quiet evs -> retryWaits evs = [].
Proof.
  induction 1 as [|e evs He _ IH]; [reflexivity|].
  destruct e; simpl in *; try contradiction; exact IH.
Qed.

Lemma quiet_uploads (evs : list event) :
  Forall quiet evs -> uploads evs = [].
Proof.
  induction 1 as [|e evs He _ IH]; [reflexivity|].
  destruct e; simpl in *; try contradiction; exact IH.
Qed.

Lemma attemptLogs_app (e1 e2 : list event) :
  attemptLogs (e1 ++ e2) = attemptLogs e1 ++ attemptLogs e2.
Proof. apply flat_map_app. Qed.

Lemma retryWaits_app (e1 e2 : list event) :
  retryWaits (e1 ++ e2) = retryWaits e1 ++ retryWaits e2.
Proof. apply flat_map_app. Qed.

Lemma uploads_app (e1 e2 : list event) :
  uploads (e1 ++ e2) = uploads e1 ++ uploads e2.
Proof. apply flat_map_app. Qed.

Lemma attemptLogs_cons (e : event) (evs : list event) :
  attemptLogs (e :: evs) = attemptLogs [e] ++ attemptLogs evs.
Proof. apply (attemptLogs_app [e] evs). Qed.

Lemma retryWaits_cons (e : event) (evs : list event) :
  retryWaits (e :: evs) = retryWaits [e] ++ retryWaits evs.
Proof. apply (retryWaits_app [e] evs). Qed.

Lemma uploads_cons (e : event) (evs : list event) :
  uploads (e :: evs) = uploads [e] ++ uploads evs.
Proof. apply (uploads_app [e] evs). Qed.

Ltac solve_frame :=
  first
    [ assumption
    | constructor; cbn in *; rewrite ?app_nil_r, <- ?app_assoc; cbn;
      first [ reflexivity | assumption | congruence ] ].

Ltac solve_quiet := repeat (first [ assumption | constructor ]).

(** The polling loop ends, with the result [pollOutcome] states. *)
Lemma pollStaged_run (a : DownloadAttempt) (remaining i : nat)
    (s : UploaderState) :
  exists s' evs,
    pollStaged a remaining i s =
      Some (match pollOutcome a remaining i with
            | Throw e => Throw e
            | Normal (Some _) => Normal true
            | Normal None => Normal false
            end, s')
    /\ frame s s' evs /\ Forall quiet evs
    /\ tempFile s' = match pollOutcome a remaining i with
                     | Normal (Some size) => Some size
                     | _ => tempFile s
                     end.
Proof.
  revert i s. induction remaining as [|r IH]; intros i s.
  - exists s, []. refine (conj _ (conj _ (conj _ _)));
      [reflexivity | solve_frame | solve_quiet | reflexivity].
  - cbn [pollStaged pollOutcome]. unfold bind at 1. cbn [emit modify addEvent].
    unfold bind at 1. unfold lift at 1.
    destruct (staged a i) as [[size|]|e].
    + destruct (1000 <? size) eqn:Esz.
      * eexists _, [Sleep 2000; Rename]. cbn.
        refine (conj _ (conj _ (conj _ _)));
          [reflexivity | solve_frame | solve_quiet | reflexivity].
      * edestruct (IH (S i)) as (s' & evs & Hrun & Hf & Hq & Ht).
        exists s', (Sleep 2000 :: evs). rewrite Hrun.
        destruct Hf as [H1 H2 H3 H4 H5]. cbn in H1, H2, H3, H4, H5, Ht.
        refine (conj _ (conj _ (conj _ _)));
          [reflexivity | | solve_quiet; exact I | exact Ht].
        constructor; try assumption. rewrite H5. now rewrite <- app_assoc.
    + edestruct (IH (S i)) as (s' & evs & Hrun & Hf & Hq & Ht).
      exists s', (Sleep 2000 :: evs). rewrite Hrun.
      destruct Hf as [H1 H2 H3 H4 H5]. cbn in H1, H2, H3, H4, H5, Ht.
      refine (conj _ (conj _ (conj _ _)));
        [reflexivity | | solve_quiet; exact I | exact Ht].
      constructor; try assumption. rewrite H5. now rewrite <- app_assoc.
    + eexists _, [Sleep 2000]. cbn.
      refine (conj _ (conj _ (conj _ _)));
        [reflexivity | solve_frame | solve_quiet | reflexivity].
Qed.

Lemma pollOutcome_size (a : DownloadAttempt) (remaining i : nat) (size : N) :
  pollOutcome a remaining i = Normal (Some size) -> 1000 < size.
Proof.
  revert i. induction remaining as [|r IH]; intros i; simpl; [discriminate|].
  destruct (staged a i) as [[sz|]|e]; try discriminate; try apply IH.
  destruct (1000 <? sz) eqn:E; [|apply IH].
  intros [= <-]. now apply N.ltb_lt.
Qed.

Lemma outcome_size (a : DownloadAttempt) (size : N) :
  outcome a = Normal size -> 1000 < size.
Proof.
  unfold outcome.
  destruct (gotoDownload a); try discriminate.
  destruct (gotoVideo a); try discriminate.
  destruct (downloadTriggered a) as [[|]|]; try discriminate.
  destruct (pollOutcome a 60 0) as [[sz|]|] eqn:E; try discriminate.
  intros [= <-]. eapply pollOutcome_size, E.
Qed.

(** One execution of the download sequence: it logs the attempt, ends
    with [outcome], and leaves the size of the file on success. *)
Lemma downloadSequence_run (a : DownloadAttempt)
    (downloadUrl videoUrl : jsstring) (retryCount : nat)
    (s : UploaderState) :
  exists s' evs,
    downloadSequence a downloadUrl videoUrl retryCount s =
      Some (match outcome a with
            | Normal _ => Normal tt
            | Throw e => Throw e
            end, s')
    /\ frame s s' (AttemptLog (retryCount + 1) :: evs)
    /\ Forall quiet evs
    /\ tempFile s' = match outcome a with
                     | Normal size => Some size
                     | Throw _ => tempFile s
                     end.
Proof.
  unfold downloadSequence, outcome.
  unfold bind at 1. cbn [emit modify addEvent].
  unfold bind at 1. cbn [emit modify addEvent].
  unfold bind at 1. unfold lift at 1.
  destruct (gotoDownload a) as [[]|e].
  2:{ eexists _, [Goto downloadUrl]. cbn.
      refine (conj _ (conj _ (conj _ _)));
        [reflexivity | solve_frame | solve_quiet | reflexivity]. }
  unfold bind at 1. cbn [emit modify addEvent].
  unfold bind at 1. cbn [emit modify addEvent].
  unfold bind at 1. unfold lift at 1.
  destruct (gotoVideo a) as [[]|e].
  2:{ eexists _, [Goto downloadUrl; Sleep 3000; Goto videoUrl]. cbn.
      refine (conj _ (conj _ (conj _ _)));
        [reflexivity | solve_frame | solve_quiet | reflexivity]. }
  unfold bind at 1. cbn [emit modify addEvent].
  unfold bind at 1. unfold lift at 1.
  destruct (downloadTriggered a) as [[|]|e].
  - unfold bind at 1.
    match goal with
    | |- context [pollStaged a 60 0 ?st] =>
        destruct (pollStaged_run a 60 0 st) as (s' & evs & Hrun & Hf & Hq & Ht)
    end.
    rewrite Hrun.
    exists s', ([Goto downloadUrl; Sleep 3000; Goto videoUrl; Sleep 3000]
                ++ evs).
    destruct Hf as [H1 H2 H3 H4 H5].
    cbn [uploadedCount failedCount ragMetadata uploadLog tempFile events
           addEvent] in H1, H2, H3, H4, H5, Ht.
    assert (Hfr : frame s s'
              (AttemptLog (retryCount + 1)
               :: [Goto downloadUrl; Sleep 3000; Goto videoUrl; Sleep 3000]
               ++ evs)).
    { constructor; try assumption. rewrite H5.
      rewrite <- !app_assoc. reflexivity. }
    assert (Hqu : Forall quiet
              ([Goto downloadUrl; Sleep 3000; Goto videoUrl; Sleep 3000]
               ++ evs)).
    { cbn. repeat (constructor; [exact I|]). exact Hq. }
    destruct (pollOutcome a 60 0) as [[sz|]|e]; cbn;
      (refine (conj _ (conj _ (conj _ _)));
       [reflexivity | exact Hfr | exact Hqu | exact Ht]).
  - eexists _, [Goto downloadUrl; Sleep 3000; Goto videoUrl; Sleep 3000].
    cbn. refine (conj _ (conj _ (conj _ _)));
        [reflexivity | solve_frame | solve_quiet | reflexivity].
  - eexists _, [Goto downloadUrl; Sleep 3000; Goto videoUrl; Sleep 3000].
    cbn. refine (conj _ (conj _ (conj _ _)));
        [reflexivity | solve_frame | solve_quiet | reflexivity].
Qed.

(** [downloadAuthenticatedMp3] ends.  It makes [n] attempts, numbered from
    [retryCount + 1], with a wait of [retryDelay] between two of them; all
    but the last one fail; the result is that of the last one, and it is
    an error only if no retry is left. *)
Lemma downloadAuthenticatedMp3_run (cfg : Config) (env : RecordEnv)
    (downloadUrl videoUrl : jsstring) :
  forall (fuel retryCount : nat) (s : UploaderState),
    (retryAttempts cfg - 1 - retryCount < fuel)%nat ->
    exists r s' evs n,
      downloadAuthenticatedMp3 fuel cfg env downloadUrl videoUrl
        retryCount s = Some (r, s')
      /\ frame s s' evs
      /\ uploads evs = []
      /\ attemptLogs evs = seq (retryCount + 1) n
      /\ retryWaits evs = repeat (retryDelay cfg) (n - 1)
      /\ (1 <= n)%nat
      /\ (retryCount + n - 1 <= Nat.max retryCount (retryAttempts cfg - 1))%nat
      /\ (forall k, (retryCount <= k < retryCount + n - 1)%nat ->
            fails (outcome (attempts env k)))
      /\ match outcome (attempts env (retryCount + n - 1)) with
         | Normal size => r = Normal tt /\ tempFile s' = Some size
         | Throw e =>
             r = Throw e /\ tempFile s' = tempFile s
             /\ (retryAttempts cfg - 1 <= retryCount + n - 1)%nat
         end.
Proof.
  induction fuel as [|fuel IH]; intros rc s Hfuel; [lia|].
  cbn [downloadAuthenticatedMp3]. unfold tryCatch.
  destruct (downloadSequence_run (attempts env rc) downloadUrl videoUrl rc s)
    as (s1 & evs1 & Hrun & Hf1 & Hq1 & Ht1).
  rewrite Hrun.
  assert (Hu1 : uploads (AttemptLog (rc + 1) :: evs1) = []).
  { rewrite uploads_cons, (quiet_uploads _ Hq1). reflexivity. }
  assert (Ha1 : attemptLogs (AttemptLog (rc + 1) :: evs1) = [(rc + 1)%nat]).
  { rewrite attemptLogs_cons, (quiet_attemptLogs _ Hq1). reflexivity. }
  assert (Hw1 : retryWaits (AttemptLog (rc + 1) :: evs1) = []).
  { rewrite retryWaits_cons, (quiet_retryWaits _ Hq1). reflexivity. }
  destruct (outcome (attempts env rc)) as [size|e] eqn:Eo.
  - exists (Normal tt), s1, (AttemptLog (rc + 1) :: evs1), 1%nat.
    replace (rc + 1 - 1)%nat with rc by lia. rewrite Eo.
    refine (conj eq_refl (conj Hf1 (conj Hu1 (conj Ha1 (conj Hw1 (conj _
              (conj _ (conj _ _)))))))).
    + lia.
    + lia.
    + intros k Hk. lia.
    + now split.
  - destruct (rc <? retryAttempts cfg - 1)%nat eqn:Erc.
    + apply Nat.ltb_lt in Erc.
      unfold bind at 1. cbn [emit modify].
      destruct (IH (rc + 1)%nat (addEvent (RetryWait (retryDelay cfg)) s1)
                  ltac:(lia))
        as (r & s2 & evs2 & n & Hrun2 & Hf2 & Hu2 & Ha2 & Hw2 & Hn
            & Hb & Hk & Hl).
      rewrite Hrun2.
      exists r, s2,
        ((AttemptLog (rc + 1) :: evs1) ++ RetryWait (retryDelay cfg) :: evs2),
        (S n).
      destruct Hf1 as [A1 A2 A3 A4 A5]. destruct Hf2 as [B1 B2 B3 B4 B5].
      cbn [uploadedCount failedCount ragMetadata uploadLog tempFile events
             addEvent] in B1, B2, B3, B4, B5, Hl.
      refine (conj eq_refl (conj _ (conj _ (conj _ (conj _ (conj _
                (conj _ (conj _ _)))))))).
      * constructor; try congruence.
        rewrite B5, A5, <- !app_assoc. reflexivity.
      * rewrite uploads_app, Hu1, uploads_cons, Hu2. reflexivity.
      * rewrite attemptLogs_app, Ha1, attemptLogs_cons, Ha2.
        cbn. now replace (rc + 1 + 1)%nat with (S (rc + 1)) by lia.
      * rewrite retryWaits_app, Hw1, retryWaits_cons, Hw2.
        destruct n; [lia|]. cbn. now rewrite Nat.sub_0_r.
      * lia.
      * lia.
      * intros k Hrange. destruct (Nat.eq_dec k rc) as [->|Hne].
        -- now rewrite Eo.
        -- apply Hk. lia.
      * replace (rc + S n - 1)%nat with (rc + 1 + n - 1)%nat by lia.
        destruct (outcome (attempts env (rc + 1 + n - 1))).
        -- exact Hl.
        -- destruct Hl as (-> & Ht2 & Hle).
           refine (conj eq_refl (conj _ _)); [congruence | lia].
    + apply Nat.ltb_ge in Erc.
      exists (Throw e), s1, (AttemptLog (rc + 1) :: evs1), 1%nat.
      replace (rc + 1 - 1)%nat with rc by lia. rewrite Eo.
      refine (conj eq_refl (conj Hf1 (conj Hu1 (conj Ha1 (conj Hw1 (conj _
                (conj _ (conj _ _)))))))).
      * lia.
      * lia.
      * intros k Hk. lia.
      * refine (conj eq_refl (conj Ht1 _)). lia.
Qed.

End DownloadFacts.

(** ** Per-record processing *)

Module ProcessFacts.
Import JsString Uploader Processing Outcome Eff DownloadFacts.

Lemma succeedsAt_not_alwaysFails (cfg : Config) (env : RecordEnv)
    (j : nat) (size : N) :
  retrievalSucceedsAt cfg env j size -> ~ retrievalAlwaysFails env.
Proof.
  intros (_ & _ & Hj) Hall. specialize (Hall j). now rewrite Hj in Hall.
Qed.

Lemma succeedsAt_unique (cfg : Config) (env : RecordEnv)
    (j j' : nat) (size size' : N) :
  retrievalSucceedsAt cfg env j size ->
  retrievalSucceedsAt cfg env j' size' ->
  j = j' /\ size = size'.
Proof.
  intros (_ & Hb & Hj) (_ & Hb' & Hj').
  assert (j = j').
  { destruct (Nat.lt_trichotomy j j') as [Hlt|[Heq|Hgt]]; [|exact Heq|].
    - specialize (Hb' j Hlt). now rewrite Hj in Hb'.
    - specialize (Hb j' Hgt). now rewrite Hj' in Hb. }
  subst j'. split; [reflexivity | congruence].
Qed.

(** The retrieval of [processSingleMp3]: it ends; either some attempt
    succeeded and the file is at [tempFilePath], or every attempt the
    configuration allows failed and the error of the last one is
    thrown. *)
Lemma retrieval_run (cfg : Config) (env : RecordEnv)
    (downloadUrl videoUrl : jsstring) (s : UploaderState) :
  exists r s' evs n,
    downloadAuthenticatedMp3 (downloadFuel cfg) cfg env downloadUrl
      videoUrl 0 s = Some (r, s')
    /\ frame s s' evs
    /\ uploads evs = []
    /\ attemptLogs evs = seq 1 n
    /\ retryWaits evs = repeat (retryDelay cfg) (n - 1)
    /\ (1 <= n <= S (retryAttempts cfg - 1))%nat
    /\ ((exists size, r = Normal tt /\ tempFile s' = Some size
                      /\ retrievalSucceedsAt cfg env (n - 1) size)
        \/ (exists e, r = Throw e /\ tempFile s' = tempFile s
                      /\ n = S (retryAttempts cfg - 1)
                      /\ outcome (attempts env (retryAttempts cfg - 1))
                         = Throw e
                      /\ forall k, (k <= retryAttempts cfg - 1)%nat ->
                                   fails (outcome (attempts env k)))).
Proof.
  destruct (downloadAuthenticatedMp3_run cfg env downloadUrl videoUrl
              (downloadFuel cfg) 0 s)
    as (r & s' & evs & n & Hrun & Hf & Hu & Ha & Hw & Hn & Hb & Hk & Hl).
  { unfold downloadFuel. lia. }
  exists r, s', evs, n. cbn in Hb, Hk, Hl, Ha.
  refine (conj Hrun (conj Hf (conj Hu (conj Ha (conj Hw (conj _ _)))))).
  { lia. }
  destruct (outcome (attempts env (n - 1))) as [size|e] eqn:Eo.
  - left. exists size. destruct Hl as [-> Ht].
    refine (conj eq_refl (conj Ht _)).
    refine (conj _ (conj _ Eo)); [lia|].
    intros k Hlt. apply Hk. lia.
  - right. exists e. destruct Hl as (-> & Ht & Hle).
    assert (Hn' : (n - 1 = retryAttempts cfg - 1)%nat) by lia.
    refine (conj eq_refl (conj Ht (conj _ (conj _ _)))); [lia | congruence |].
    intros k Hle'. destruct (Nat.eq_dec k (n - 1)%nat) as [->|Hne].
    + now rewrite Eo.
    + apply Hk. lia.
Qed.

(** [processSingleMp3] ends, and in one of four ways. *)
Lemma processSingleMp3_run (cfg : Config) (env : RecordEnv)
    (r : Mp3Data) (index : N) (s : UploaderState) :
  exists res s' evs n,
    processSingleMp3 cfg env r index s = Some (res, s')
    /\ attemptLogs evs = seq 1 n
    /\ retryWaits evs = repeat (retryDelay cfg) (n - 1)
    /\ (1 <= n <= S (retryAttempts cfg - 1))%nat
    /\ ((* uploaded *)
        (exists size key url,
           retrievalSucceedsAt cfg env (n - 1) size
           /\ generateS3Key r index = Normal key
           /\ s3upload env key = Normal url
           /\ res = Normal (createRAGMetadata r url key index)
           /\ uploads evs = [key]
           /\ advance s s' 1 0 [createRAGMetadata r url key index]
                [LogSuccess index (title (metadata r)) key url size] evs)
        \/ (exists e,
              res = Throw e
              /\ advance s s' 0 1 []
                   [LogFailed index (title (metadata r)) (downloadUrl r)
                      (videoUrl r) e] evs
              /\ ((* the retrieval failed *)
                  (uploads evs = []
                   /\ n = S (retryAttempts cfg - 1)
                   /\ outcome (attempts env (retryAttempts cfg - 1))
                      = Throw e
                   /\ forall k, (k <= retryAttempts cfg - 1)%nat ->
                                fails (outcome (attempts env k)))
                  \/ (* the key derivation failed *)
                  (uploads evs = []
                   /\ generateS3Key r index = Throw e
                   /\ exists size, retrievalSucceedsAt cfg env (n - 1) size)
                  \/ (* the upload failed *)
                  (exists size key,
                     retrievalSucceedsAt cfg env (n - 1) size
                     /\ generateS3Key r index = Normal key
                     /\ s3upload env key = Throw e
                     /\ uploads evs = [key])))).
Proof.
  unfold processSingleMp3.
  unfold bind at 1. cbn [setTempFile modify].
  unfold tryCatch. unfold bind at 1.
  match goal with
  | |- context [downloadAuthenticatedMp3 _ _ _ _ _ _ ?st] =>
      destruct (retrieval_run cfg env (downloadUrl r) (videoUrl r) st)
        as (r0 & s1 & evs1 & n & Hrun & Hf & Hu & Ha & Hw & Hn & Hcase)
  end.
  rewrite Hrun. destruct Hf as [F1 F2 F3 F4 F5].
  cbn in F1, F2, F3, F4, F5.
  destruct Hcase as [(size & -> & Ht & Hsucc) | (e & -> & Ht & Hn' & Ho & Hall)].
  - unfold bind at 1. cbn [get]. rewrite Ht.
    assert (Hsz : (size <? 1000) = false).
    { destruct Hsucc as (_ & _ & Hj). apply outcome_size in Hj.
      apply N.ltb_ge. lia. }
    rewrite Hsz. unfold bind at 1. unfold lift at 1.
    destruct (generateS3Key r index) as [key|e] eqn:Ekey.
    + unfold uploadToS3. unfold bind at 1. unfold bind at 1.
      cbn [emit modify addEvent]. unfold lift at 1.
      destruct (s3upload env key) as [url|e] eqn:Eup.
      * cbn. eexists _, _, (evs1 ++ [Upload key _; Unlink]), n.
        refine (conj eq_refl (conj _ (conj _ (conj Hn _)))).
        -- rewrite attemptLogs_app, Ha. cbn. now rewrite app_nil_r.
        -- rewrite retryWaits_app, Hw. cbn. now rewrite app_nil_r.
        -- left. exists size, key, url.
           refine (conj Hsucc (conj eq_refl (conj Eup (conj eq_refl
                     (conj _ _))))).
           ++ rewrite uploads_app, Hu. reflexivity.
           ++ constructor; cbn; try congruence.
              ** rewrite F2. lia.
              ** rewrite F5, <- !app_assoc. reflexivity.
      * cbn. rewrite Ht.
        eexists _, _, (evs1 ++ [Upload key _; Unlink]), n.
        refine (conj eq_refl (conj _ (conj _ (conj Hn _)))).
        -- rewrite attemptLogs_app, Ha. cbn. now rewrite app_nil_r.
        -- rewrite retryWaits_app, Hw. cbn. now rewrite app_nil_r.
        -- right. exists e. refine (conj eq_refl (conj _ _)).
           ++ constructor; cbn; try congruence.
              ** rewrite F1. lia.
              ** now rewrite app_nil_r.
              ** rewrite F5, <- !app_assoc. reflexivity.
           ++ right. right. exists size, key.
              refine (conj Hsucc (conj eq_refl (conj Eup _))).
              rewrite uploads_app, Hu. reflexivity.
    + cbn. rewrite Ht. eexists _, _, (evs1 ++ [Unlink]), n.
      refine (conj eq_refl (conj _ (conj _ (conj Hn _)))).
      -- rewrite attemptLogs_app, Ha. cbn. now rewrite app_nil_r.
      -- rewrite retryWaits_app, Hw. cbn. now rewrite app_nil_r.
      -- right. exists e. refine (conj eq_refl (conj _ _)).
         ++ constructor; cbn; try congruence.
            ** rewrite F1. lia.
            ** now rewrite app_nil_r.
            ** rewrite F5, <- !app_assoc. reflexivity.
         ++ right. left. refine (conj _ (conj eq_refl _)).
            ** rewrite uploads_app, Hu. reflexivity.
            ** now exists size.
  - cbn in Ht. cbn. rewrite Ht. cbn.
    eexists _, _, evs1, n.
    refine (conj eq_refl (conj Ha (conj Hw (conj Hn _)))).
    right. exists e. refine (conj eq_refl (conj _ _)).
    + constructor; cbn; try congruence.
      * rewrite F1. lia.
      * now rewrite app_nil_r.
    + left. now refine (conj Hu (conj Hn' (conj Ho Hall))).
Qed.

(** The loop goes on with the next record whatever the completion of
    [processSingleMp3]. *)
Lemma processLoop_cons (cfg : Config) (env : nat -> RecordEnv)
    (total i : nat) (r : Mp3Data) (rest : list Mp3Data)
    (s s1 : UploaderState) (res : completion RagEntry) :
  processSingleMp3 cfg (env i) r (N.of_nat (i + 1)) s = Some (res, s1) ->
  processLoop cfg env total i (r :: rest) s =
  processLoop cfg env total (S i) rest (paused total i s1).
Proof.
  intros Hrun. cbn [processLoop]. unfold bind at 1. unfold tryCatch.
  unfold bind at 1. rewrite Hrun. unfold paused.
  destruct res; cbn [ret]; unfold bind at 1;
    destruct (i + 1 <? total)%nat; reflexivity.
Qed.

Lemma paused_counts (total i : nat) (s : UploaderState) :
  uploadedCount (paused total i s) = uploadedCount s
  /\ failedCount (paused total i s) = failedCount s
  /\ ragMetadata (paused total i s) = ragMetadata s
  /\ uploadLog (paused total i s) = uploadLog s.
Proof. unfold paused. destruct (i + 1 <? total)%nat; repeat split. Qed.

(** Every record is processed and logged once, whatever fails. *)
Lemma processLoop_run (cfg : Config) (env : nat -> RecordEnv) (total : nat) :
  forall (rest : list Mp3Data) (i : nat) (s : UploaderState),
  exists s',
    processLoop cfg env total i rest s = Some (Normal tt, s')
    /\ uploadedCount s' + failedCount s'
       = uploadedCount s + failedCount s + N.of_nat (length rest)
    /\ length (uploadLog s') = (length (uploadLog s) + length rest)%nat.
Proof.
  induction rest as [|r rest IH]; intros i s.
  - exists s. cbn. repeat split; lia.
  - destruct (processSingleMp3_run cfg (env i) r (N.of_nat (i + 1)) s)
      as (res & s1 & evs & n & Hrun & _ & _ & _ & Hcase).
    rewrite (processLoop_cons _ _ _ _ _ _ _ _ _ Hrun).
    destruct (IH (S i) (paused total i s1)) as (s' & Hloop & Hc & Hl).
    exists s'. destruct (paused_counts total i s1) as (P1 & P2 & P3 & P4).
    rewrite P1, P2 in Hc. rewrite P4 in Hl.
    refine (conj Hloop _).
    destruct Hcase as [(size & key & url & _ & _ & _ & _ & _ & Hadv)
                      | (e & _ & Hadv & _)];
      destruct Hadv as [A1 A2 A3 A4 A5]; rewrite A1, A2 in Hc;
      rewrite A4, length_app in Hl; cbn [length] in *; split; lia.
Qed.

Lemma processSingleMp3_uploaded (cfg : Config) (env : RecordEnv)
    (r : Mp3Data) (index : N) (s : UploaderState)
    (j : nat) (size : N) (key url : jsstring) :
  retrievalSucceedsAt cfg env j size ->
  generateS3Key r index = Normal key ->
  s3upload env key = Normal url ->
  exists s' evs,
    processSingleMp3 cfg env r index s
      = Some (Normal (createRAGMetadata r url key index), s')
    /\ uploads evs = [key]
    /\ advance s s' 1 0 [createRAGMetadata r url key index]
         [LogSuccess index (title (metadata r)) key url size] evs.
Proof.
  intros Hsucc Hkey Hup.
  destruct (processSingleMp3_run cfg env r index s)
    as (res & s' & evs & n & Hrun & _ & _ & _ & Hcase).
  exists s', evs.
  destruct Hcase as [(size' & key' & url' & Hs' & Hk' & Hu' & -> & Hupl & Hadv)
                    | (e & -> & _ & [Hfail | [Hder | Hupf]])].
  - rewrite Hkey in Hk'. injection Hk' as <-.
    rewrite Hup in Hu'. injection Hu' as <-.
    destruct (succeedsAt_unique _ _ _ _ _ _ Hsucc Hs') as [_ <-].
    now refine (conj Hrun (conj Hupl Hadv)).
  - exfalso. destruct Hfail as (_ & _ & _ & Hall).
    destruct Hsucc as (Hle & _ & Hj). specialize (Hall j Hle).
    now rewrite Hj in Hall.
  - exfalso. destruct Hder as (_ & Hk' & _). congruence.
  - exfalso. destruct Hupf as (size' & key' & _ & Hk' & Hu' & _).
    rewrite Hkey in Hk'. injection Hk' as <-. congruence.
Qed.

Lemma processSingleMp3_retrieval_failed (cfg : Config) (env : RecordEnv)
    (r : Mp3Data) (index : N) (s : UploaderState) :
  (forall k, (k <= retryAttempts cfg - 1)%nat ->
             fails (outcome (attempts env k))) ->
  exists e s' evs,
    processSingleMp3 cfg env r index s = Some (Throw e, s')
    /\ outcome (attempts env (retryAttempts cfg - 1)) = Throw e
    /\ uploads evs = []
    /\ attemptLogs evs = seq 1 (S (retryAttempts cfg - 1))
    /\ retryWaits evs = repeat (retryDelay cfg) (retryAttempts cfg - 1)
    /\ advance s s' 0 1 []
         [LogFailed index (title (metadata r)) (downloadUrl r)
            (videoUrl r) e] evs.
Proof.
  intros Hall.
  destruct (processSingleMp3_run cfg env r index s)
    as (res & s' & evs & n & Hrun & Ha & Hw & Hn & Hcase).
  assert (Hno : forall size, ~ retrievalSucceedsAt cfg env (n - 1) size).
  { intros size (Hle & _ & Hj). specialize (Hall _ Hle).
    now rewrite Hj in Hall. }
  destruct Hcase as [(size & key & url & Hs & _)
                    | (e & -> & Hadv & [Hfail | [Hder | Hupf]])].
  - now destruct (Hno size).
  - destruct Hfail as (Hu & -> & Ho & _). exists e, s', evs.
    rewrite Hw. cbn [Nat.sub]. rewrite Nat.sub_0_r.
    now refine (conj Hrun (conj Ho (conj Hu (conj Ha (conj eq_refl Hadv))))).
  - destruct Hder as (_ & _ & size & Hs). now destruct (Hno size).
  - destruct Hupf as (size & key & Hs & _). now destruct (Hno size).
Qed.

End ProcessFacts.

(** ** The run of the uploader *)

Module RunFacts.
Import JsString Uploader Processing Outcome Eff DownloadFacts ProcessFacts.
Import Examples WorldExamples.

(** [processAllMp3s] up to the loop: the login succeeded, the
    authentication test left some events. *)
Lemma processAllMp3s_loop (cfg : Config) (w : World) (first : Mp3Data)
    (rest : list Mp3Data) :
  initializeAndLogin w = Normal tt ->
  exists s0,
    uploadedCount s0 = 0 /\ failedCount s0 = 0 /\ ragMetadata s0 = []
    /\ uploadLog s0 = [] /\ uploads (events s0) = []
    /\ processAllMp3s cfg w (first :: rest) initialState =
       tryFinally
         (processLoop cfg (recordEnv w) (length (first :: rest)) 0
            (first :: rest))
         (addEvent CloseBrowser) s0.
Proof.
  intros Hlogin. unfold processAllMp3s.
  unfold bind at 1. unfold lift at 1. rewrite Hlogin.
  unfold bind at 1. unfold tryCatch.
  unfold bind at 1. cbn [emit modify addEvent initialState].
  unfold bind at 1. unfold lift at 1.
  destruct (authTestGoto w) as [[]|e].
  - exists (addEvent (Sleep 2000)
              (addEvent (Goto (videoUrl first)) initialState)).
    now refine (conj eq_refl (conj eq_refl (conj eq_refl (conj eq_refl
                  (conj eq_refl _))))).
  - exists (addEvent (Goto (videoUrl first)) initialState).
    now refine (conj eq_refl (conj eq_refl (conj eq_refl (conj eq_refl
                  (conj eq_refl _))))).
Qed.

(** C4: in a batch of three records of which the first and the third are
    retrieved, keyed and uploaded, and the retrieval of the second fails
    at every attempt, the run ends normally; the log has a success entry
    for records 1 and 3 and a failure entry for record 2, their RAG
    entries are kept, their keys are the uploads made, and the summary is
    totalProcessed 3, successful 2, failed 1, successRate "66.67%". *)
Theorem partial_failure_isolated (cfg : Config) (w : World)
    (r1 r2 r3 : Mp3Data) (j1 j3 : nat) (size1 size3 : N)
    (key1 url1 key3 url3 : jsstring) :
  initializeAndLogin w = Normal tt ->
  retrievalSucceedsAt cfg (recordEnv w 0) j1 size1 ->
  generateS3Key r1 1 = Normal key1 ->
  s3upload (recordEnv w 0) key1 = Normal url1 ->
  retrievalAlwaysFails (recordEnv w 1) ->
  retrievalSucceedsAt cfg (recordEnv w 2) j3 size3 ->
  generateS3Key r3 3 = Normal key3 ->
  s3upload (recordEnv w 2) key3 = Normal url3 ->
  exists s' e2,
    processAllMp3s cfg w [r1; r2; r3] initialState = Some (Normal tt, s')
    /\ uploadLog s' =
         [ LogSuccess 1 (title (metadata r1)) key1 url1 size1;
           LogFailed 2 (title (metadata r2)) (downloadUrl r2) (videoUrl r2) e2;
           LogSuccess 3 (title (metadata r3)) key3 url3 size3 ]
    /\ ragMetadata s' =
         [ createRAGMetadata r1 url1 key1 1; createRAGMetadata r3 url3 key3 3 ]
    /\ uploads (events s') = [key1; key3]
    /\ summaryOf s' =
         {| totalProcessed := 3; successful := 2; failed := 1;
            successRate := Some (js "66.67%") |}.
Proof.
  intros Hlogin Hs1 Hk1 Hu1 Hf2 Hs3 Hk3 Hu3.
  destruct (processAllMp3s_loop cfg w r1 [r2; r3] Hlogin)
    as (s0 & C0 & F0 & R0 & L0 & U0 & ->).
  unfold tryFinally.
  destruct (processSingleMp3_uploaded cfg (recordEnv w 0) r1 1 s0
              j1 size1 key1 url1 Hs1 Hk1 Hu1) as (s1 & evs1 & Hrun1 & Hup1 & A1).
  rewrite (processLoop_cons cfg (recordEnv w) _ 0 r1 [r2; r3] s0 s1 _ Hrun1).
  destruct (processSingleMp3_retrieval_failed cfg (recordEnv w 1) r2 2
              (paused 3 0 s1) (fun k _ => Hf2 k))
    as (e2 & s2 & evs2 & Hrun2 & _ & Hup2 & _ & _ & A2).
  rewrite (processLoop_cons cfg (recordEnv w) _ 1 r2 [r3] _ s2 _ Hrun2).
  destruct (processSingleMp3_uploaded cfg (recordEnv w 2) r3 3
              (paused 3 1 s2) j3 size3 key3 url3 Hs3 Hk3 Hu3)
    as (s3 & evs3 & Hrun3 & Hup3 & A3).
  rewrite (processLoop_cons cfg (recordEnv w) _ 2 r3 [] _ s3 _ Hrun3).
  cbn [processLoop ret].
  exists (addEvent CloseBrowser (paused 3 2 s3)), e2.
  destruct A1 as [A11 A12 A13 A14 A15], A2 as [A21 A22 A23 A24 A25],
           A3 as [A31 A32 A33 A34 A35].
  cbn [paused Nat.ltb Nat.leb Nat.add addEvent uploadedCount failedCount
         ragMetadata uploadLog events] in *.
  assert (HU : uploadedCount s3 = 2) by (rewrite A31, A21, A11, C0; reflexivity).
  assert (HF : failedCount s3 = 1) by (rewrite A32, A22, A12, F0; reflexivity).
  refine (conj eq_refl (conj _ (conj _ (conj _ _)))).
  - rewrite A34, A24, A14, L0. reflexivity.
  - rewrite A33, A23, A13, R0. reflexivity.
  - rewrite A35, A25, A15. rewrite !uploads_app, U0, Hup1, Hup2, Hup3.
    reflexivity.
  - unfold summaryOf. cbn [uploadedCount failedCount addEvent].
    rewrite HU, HF.
    reflexivity.
Qed.

Lemma partial_failure_isolated_witness :
  exists s' e2,
    processAllMp3s config secondFails
      [gordonRecord; untitledRecord; gordonRecord] initialState
      = Some (Normal tt, s')
    /\ uploadLog s' =
         [ LogSuccess 1 (Some gordonTitle) gordonKey (s3Location gordonKey)
             5000000;
           LogFailed 2 None (downloadUrl untitledRecord)
             (videoUrl untitledRecord) e2;
           LogSuccess 3 (Some gordonTitle)
             (js "rabbi-gordon/rabbi-gordon-bereishit/4886452/0003-rabbi-gordon-bereishit.mp3")
             (s3Location
                (js "rabbi-gordon/rabbi-gordon-bereishit/4886452/0003-rabbi-gordon-bereishit.mp3"))
             5000000 ]
    /\ summaryOf s' =
         {| totalProcessed := 3; successful := 2; failed := 1;
            successRate := Some (js "66.67%") |}.
Proof.
  destruct (partial_failure_isolated config secondFails
              gordonRecord untitledRecord gordonRecord 0 0 5000000 5000000
              gordonKey (s3Location gordonKey)
              (js "rabbi-gordon/rabbi-gordon-bereishit/4886452/0003-rabbi-gordon-bereishit.mp3")
              (s3Location
                 (js "rabbi-gordon/rabbi-gordon-bereishit/4886452/0003-rabbi-gordon-bereishit.mp3")))
    as (s' & e2 & Hrun & Hlog & _ & _ & Hsum).
  - reflexivity.
  - split; [simpl; lia|]. split; [intros k Hk; lia | reflexivity].
  - reflexivity.
  - reflexivity.
  - intros k. exact I.
  - split; [simpl; lia|]. split; [intros k Hk; lia | reflexivity].
  - reflexivity.
  - reflexivity.
  - exists s', e2. exact (conj Hrun (conj Hlog Hsum)).
Defined.

(** C6: a call of [downloadAuthenticatedMp3] ends after at most
    [retryAttempts] executions of the download sequence (one when
    [retryAttempts] is 0), numbered from 1, each but the last one a
    failure, with a wait of [retryDelay] between two of them; it throws
    only when as many executions as allowed have failed, and then the
    error of the last one.  When they all fail, [processSingleMp3] logs
    the failure and counts it, nothing is uploaded, and the loop of
    [processAllMp3s] goes on with the records that follow.  The defaults
    are 3 attempts and 3000 ms. *)
Theorem download_retry_policy (cfg : Config) :
  (forall (env : RecordEnv) (downloadUrl videoUrl : jsstring)
          (s : UploaderState),
     exists res s' evs n,
       downloadAuthenticatedMp3 (downloadFuel cfg) cfg env downloadUrl
         videoUrl 0 s = Some (res, s')
       /\ events s' = events s ++ evs
       /\ attemptLogs evs = seq 1 n
       /\ (1 <= n <= Nat.max 1 (retryAttempts cfg))%nat
       /\ retryWaits evs = repeat (retryDelay cfg) (n - 1)
       /\ (forall k, (k < n - 1)%nat -> fails (outcome (attempts env k)))
       /\ (forall e, res = Throw e ->
             n = Nat.max 1 (retryAttempts cfg)
             /\ outcome (attempts env (n - 1)) = Throw e)
       /\ (res = Normal tt ->
             exists size, outcome (attempts env (n - 1)) = Normal size
                          /\ tempFile s' = Some size))
  /\ (forall (env : nat -> RecordEnv) (total i : nat) (r : Mp3Data)
             (rest : list Mp3Data) (s : UploaderState),
        (forall k, (k < Nat.max 1 (retryAttempts cfg))%nat ->
                   fails (outcome (attempts (env i) k))) ->
        exists e s' evs,
          processSingleMp3 cfg (env i) r (N.of_nat (i + 1)) s
            = Some (Throw e, s')
          /\ outcome (attempts (env i) (retryAttempts cfg - 1)) = Throw e
          /\ attemptLogs evs = seq 1 (Nat.max 1 (retryAttempts cfg))
          /\ retryWaits evs
             = repeat (retryDelay cfg) (Nat.max 1 (retryAttempts cfg) - 1)
          /\ uploads evs = []
          /\ advance s s' 0 1 []
               [LogFailed (N.of_nat (i + 1)) (title (metadata r))
                  (downloadUrl r) (videoUrl r) e] evs
          /\ processLoop cfg env total i (r :: rest) s
             = processLoop cfg env total (S i) rest (paused total i s'))
  /\ retryAttempts config = 3%nat /\ retryDelay config = 3000.
Proof.
  assert (Hmax : Nat.max 1 (retryAttempts cfg) = S (retryAttempts cfg - 1))
    by lia.
  refine (conj _ (conj _ (conj eq_refl eq_refl))).
  - intros env downloadUrl videoUrl s.
    destruct (retrieval_run cfg env downloadUrl videoUrl s)
      as (res & s' & evs & n & Hrun & Hf & _ & Ha & Hw & Hn & Hcase).
    exists res, s', evs, n.
    refine (conj Hrun (conj (frame_events _ _ _ Hf) (conj Ha (conj _
              (conj Hw _))))); [lia|].
    destruct Hcase as [(size & -> & Ht & _ & Hbefore & Hlast)
                      | (e & -> & _ & -> & Hlast & Hall)].
    + refine (conj Hbefore (conj _ _)); [discriminate|].
      intros _. now exists size.
    + refine (conj _ (conj _ _)).
      * intros k Hk. apply Hall. lia.
      * intros e' [= <-]. split; [lia|].
        now replace (S (retryAttempts cfg - 1) - 1)%nat
          with (retryAttempts cfg - 1)%nat by lia.
      * discriminate.
  - intros env total i r rest s Hall.
    destruct (processSingleMp3_retrieval_failed cfg (env i) r
                (N.of_nat (i + 1)) s)
      as (e & s' & evs & Hrun & Ho & Hu & Ha & Hw & Hadv).
    { intros k Hk. apply Hall. lia. }
    exists e, s', evs. rewrite Hmax.
    replace (S (retryAttempts cfg - 1) - 1)%nat
      with (retryAttempts cfg - 1)%nat by lia.
    refine (conj Hrun (conj Ho (conj Ha (conj Hw (conj Hu (conj Hadv _)))))).
    exact (processLoop_cons _ _ _ _ _ _ _ _ _ Hrun).
Qed.

(** The default configuration on a record whose file stays at 500 bytes:
    three attempts, two waits of 3000 ms, the timeout error, and the loop
    goes on. *)
Lemma download_retry_policy_witness :
  exists s' evs,
    processSingleMp3 config failingEnv gordonRecord 1 initialState
      = Some (Throw timeoutError, s')
    /\ attemptLogs evs = [1; 2; 3]%nat
    /\ retryWaits evs = [3000; 3000]
    /\ uploadLog s' =
         [LogFailed 1 (Some gordonTitle) (downloadUrl gordonRecord)
            (videoUrl gordonRecord) timeoutError]
    /\ processLoop config (fun _ => failingEnv) 2 0
         [gordonRecord; gordonRecord] initialState
       = processLoop config (fun _ => failingEnv) 2 1 [gordonRecord]
           (paused 2 0 s').
Proof.
  destruct (proj1 (proj2 (download_retry_policy config))
              (fun _ => failingEnv) 2%nat 0%nat gordonRecord [gordonRecord]
              initialState)
    as (e & s' & evs & Hrun & Ho & Ha & Hw & _ & Hadv & Hloop).
  - intros k _. exact I.
  - injection Ho as <-. exists s', evs.
    refine (conj Hrun (conj Ha (conj Hw (conj _ Hloop)))).
    exact (adv_log _ _ _ _ _ _ _ Hadv).
Defined.

(** C10: for a record without a title [generateS3Key] throws a TypeError,
    and [processSingleMp3] ends with an exception, a failure entry and one
    more failure, without any upload; when the file was retrieved, the
    exception is that TypeError. *)
Theorem generateS3Key_untitled_throws (r : Mp3Data) (index : N) :
  title (metadata r) = None ->
  generateS3Key r index = Throw TypeError
  /\ forall (cfg : Config) (env : RecordEnv) (s : UploaderState),
       exists e s' evs,
         processSingleMp3 cfg env r index s = Some (Throw e, s')
         /\ uploads evs = []
         /\ advance s s' 0 1 []
              [LogFailed index None (downloadUrl r) (videoUrl r) e] evs
         /\ (forall j size, retrievalSucceedsAt cfg env j size ->
                            e = TypeError).
Proof.
  intros Ht.
  assert (Hkey : generateS3Key r index = Throw TypeError).
  { unfold generateS3Key. now rewrite Ht. }
  split; [exact Hkey|]. intros cfg env s.
  destruct (processSingleMp3_run cfg env r index s)
    as (res & s' & evs & n & Hrun & _ & _ & _ & Hcase).
  rewrite Ht in Hcase.
  destruct Hcase as [(size & key & url & _ & Hk & _)
                    | (e & -> & Hadv & [Hfail | [Hder | Hupf]])].
  - congruence.
  - exists e, s', evs. destruct Hfail as (Hu & _ & _ & Hall).
    refine (conj Hrun (conj Hu (conj Hadv _))).
    intros j size (Hle & _ & Hj). specialize (Hall j Hle).
    now rewrite Hj in Hall.
  - exists e, s', evs. destruct Hder as (Hu & Hk & _).
    refine (conj Hrun (conj Hu (conj Hadv _))).
    intros _ _ _. congruence.
  - destruct Hupf as (size & key & _ & Hk & _). congruence.
Qed.

Lemma generateS3Key_untitled_throws_witness :
  generateS3Key untitledRecord 1 = Throw TypeError
  /\ exists s' evs,
       processSingleMp3 config goodEnv untitledRecord 1 initialState
         = Some (Throw TypeError, s')
       /\ uploads evs = []
       /\ advance initialState s' 0 1 []
            [LogFailed 1 None (downloadUrl untitledRecord)
               (videoUrl untitledRecord) TypeError] evs.
Proof.
  destruct (generateS3Key_untitled_throws untitledRecord 1 eq_refl)
    as [Hkey Hproc].
  split; [exact Hkey|].
  destruct (Hproc config goodEnv initialState)
    as (e & s' & evs & Hrun & Hu & Hadv & He).
  assert (e = TypeError) as ->.
  { apply (He 0%nat 5000000). split; [simpl; lia|].
    split; [intros k Hk; lia | reflexivity]. }
  now exists s', evs.
Defined.

End RunFacts.

(** ** The recursive strategy ends and visits no URL twice *)

Module ScraperFacts.
Import JsString Dom Eff Mp3Scraper Ledger.

Lemma grows_refl (st : ScraperState) : grows st st.
Proof.
  split; [set_solver|]. split; [|tauto].
  exists []. now rewrite app_nil_r.
Qed.

Lemma grows_trans (st1 st2 st3 : ScraperState) :
  grows st1 st2 -> grows st2 st3 -> grows st1 st3.
Proof.
  intros (H1 & [m1 E1] & W1) (H2 & [m2 E2] & W2).
  split; [set_solver|]. split; [|tauto].
  exists (m1 ++ m2). now rewrite E2, E1, app_assoc.
Qed.

(** Marking a fresh URL and navigating to it. *)
Lemma grows_visit (st : ScraperState) (url : jsstring) :
  url ∉ visitedUrls st ->
  grows st (mkScraperState ({[url]} ∪ visitedUrls st) (scrapedData st)
              (navigations st ++ [url])).
Proof.
  intros Hfresh. split; [cbn; set_solver|]. split; [now exists [url]|].
  intros [Hnd Hin]. split; cbn.
  - apply NoDup_app. split; [exact Hnd|]. split.
    + intros u Hu Hu'. apply list_elem_of_In in Hu.
      apply list_elem_of_singleton in Hu'. subst u.
      apply Hfresh, Hin, Hu.
    + apply NoDup_singleton.
  - intros u Hu. apply in_app_or in Hu as [Hu|[<-|[]]]; [|set_solver].
    specialize (Hin u Hu). set_solver.
Qed.

Lemma grows_pushData (st : ScraperState) (d : Mp3Data) :
  grows st (mkScraperState (visitedUrls st) (scrapedData st ++ [d])
              (navigations st)).
Proof.
  split; [cbn; set_solver|]. split; [|tauto].
  exists []. cbn. now rewrite app_nil_r.
Qed.

Section Site.
Context (site : gmap jsstring LoadedPage).

Lemma unvisited_mono (st st' : ScraperState) :
  visitedUrls st ⊆ visitedUrls st' ->
  (unvisited site st' <= unvisited site st)%nat.
Proof. intros H. unfold unvisited. apply subseteq_size. set_solver. Qed.

Lemma unvisited_visit (st : ScraperState) (url : jsstring)
    (loaded : LoadedPage) (data : list Mp3Data) (navs : list jsstring) :
  site !! url = Some loaded ->
  url ∉ visitedUrls st ->
  (unvisited site (mkScraperState ({[url]} ∪ visitedUrls st) data navs)
   < unvisited site st)%nat.
Proof.
  intros Hsite Hfresh. unfold unvisited. cbn. apply subset_size.
  assert (url ∈ dom site) by (apply elem_of_dom; eauto).
  set_solver.
Qed.

Lemma unvisited_initial :
  unvisited site initialState = size site.
Proof.
  unfold unvisited. cbn. rewrite difference_empty_L. apply size_dom.
Qed.
End Site.

(** A loop whose body ends and lets the state grow ends, and lets the
    state grow. *)
Lemma forEach_run {A : Type} (body : A -> M ScraperState unit)
    (l : list A) :
  forall st,
    (forall x st1, visitedUrls st ⊆ visitedUrls st1 ->
       exists st', body x st1 = Some (Normal tt, st') /\ grows st1 st') ->
    exists st', forEach l body st = Some (Normal tt, st') /\ grows st st'.
Proof.
  induction l as [|x l IH]; intros st Hbody.
  - exists st. split; [reflexivity | apply grows_refl].
  - cbn [forEach]. unfold bind at 1.
    destruct (Hbody x st) as (st1 & Hx & Hg1); [set_solver|].
    rewrite Hx.
    destruct (IH st1) as (st2 & Hl & Hg2).
    { intros y st' Hsub. apply Hbody. destruct Hg1 as [Hv _]. set_solver. }
    exists st2. split; [exact Hl | eapply grows_trans; eassumption].
Qed.

Section Traversal.
Context (cfg : Config.Settings)
        (resolveUrl : jsstring -> completion jsstring)
        (lower : jsstring -> jsstring)
        (site : gmap jsstring LoadedPage).

(** What is asked of the callee of the two link loops: from any later
    state it ends and lets the state grow. *)
Definition visits (st : ScraperState)
    (visit : VideoLink -> nat -> M ScraperState unit) : Prop :=
  forall link depth st1,
    visitedUrls st ⊆ visitedUrls st1 ->
    exists st', visit link depth st1 = Some (Normal tt, st')
                /\ grows st1 st'.

Lemma checkNestedVideoLinks_run
    (visit : VideoLink -> nat -> M ScraperState unit)
    (p : Page) (currentVideoUrl : jsstring) (depth : nat)
    (st : ScraperState) :
  visits st visit ->
  exists st',
    checkNestedVideoLinks resolveUrl visit p currentVideoUrl depth st
      = Some (Normal tt, st')
    /\ grows st st'.
Proof.
  intros Hvisit. unfold checkNestedVideoLinks, tryCatch.
  unfold bind at 1. cbn [get]. unfold bind at 1. unfold lift at 1.
  destruct (collectElements p Config.videoLinks) as [anchors|e].
  2:{ exists st. split; [reflexivity | apply grows_refl]. }
  unfold bind at 1. unfold lift at 1.
  destruct (videoLinksOf resolveUrl _ anchors) as [links|e].
  2:{ exists st. split; [reflexivity | apply grows_refl]. }
  destruct (forEach_run
              (fun nestedVideo => visit nestedVideo (depth + 1)%nat)
              links st) as (st' & Hrun & Hg).
  { intros x st1 Hsub. now apply Hvisit. }
  exists st'. now rewrite Hrun.
Qed.

Lemma extractVideoLinks_run
    (visit : VideoLink -> nat -> M ScraperState unit)
    (p : Page) (depth : nat) (st : ScraperState) :
  visits st visit ->
  exists st',
    extractVideoLinks resolveUrl visit p depth st = Some (Normal tt, st')
    /\ grows st st'.
Proof.
  intros Hvisit. unfold extractVideoLinks, tryCatch.
  unfold bind at 1. unfold lift at 1.
  destruct (collectElements p Config.videoLinks) as [anchors|e].
  2:{ exists st. split; [reflexivity | apply grows_refl]. }
  unfold bind at 1. unfold lift at 1.
  destruct (videoLinksOf resolveUrl _ anchors) as [links|e].
  2:{ exists st. split; [reflexivity | apply grows_refl]. }
  destruct (forEach_run
              (fun videoLink => visit videoLink (depth + 1)%nat)
              links st) as (st' & Hrun & Hg).
  { intros x st1 Hsub. now apply Hvisit. }
  exists st'. now rewrite Hrun.
Qed.

(** [extractMp3FromVideoPage] ends when the fuel exceeds the number of
    pages of the site that are not in the ledger. *)
Lemma extractMp3FromVideoPage_run :
  forall (fuel : nat) (videoLink : VideoLink) (depth : nat)
         (st : ScraperState),
    (unvisited site st < fuel)%nat ->
    exists st',
      extractMp3FromVideoPage resolveUrl site fuel videoLink depth st
        = Some (Normal tt, st')
      /\ grows st st'.
Proof.
  induction fuel as [|fuel IH]; intros videoLink depth st Hfuel; [lia|].
  cbn [extractMp3FromVideoPage]. unfold bind at 1. cbn [get].
  destruct (bool_decide (linkUrl videoLink ∈ visitedUrls st)) eqn:Evis.
  { exists st. split; [reflexivity | apply grows_refl]. }
  apply bool_decide_eq_false in Evis.
  unfold bind at 1. cbn [markVisited modify].
  unfold tryCatch. unfold bind at 1. unfold goto. unfold bind at 1.
  cbn [modify visitedUrls scrapedData navigations].
  pose proof (grows_visit st _ Evis) as Hg2.
  destruct (site !! linkUrl videoLink) as [loaded|] eqn:Esite.
  2:{ eexists. split; [reflexivity | exact Hg2]. }
  cbn [ret].
  destruct (truthyAttr (findDownloadLink resolveUrl (loaded 0%nat)
                          Config.downloadLinks)) as [downloadLink|].
  - cbn [pushData modify visitedUrls scrapedData navigations].
    eexists. split; [reflexivity|].
    eapply grows_trans; [exact Hg2|].
    exact (grows_pushData (mkScraperState _ _ _) _).
  - match goal with
    | |- context [checkNestedVideoLinks _ _ _ _ _ ?st2] =>
        destruct (checkNestedVideoLinks_run
                    (extractMp3FromVideoPage resolveUrl site fuel)
                    (loaded 0%nat) (linkUrl videoLink) depth st2)
          as (st' & Hrun & Hg)
    end.
    { intros link d st1 Hsub. apply IH.
      pose proof (unvisited_mono site _ _ Hsub) as Hle.
      pose proof (unvisited_visit site st _ loaded (scrapedData st)
                    (navigations st ++ [linkUrl videoLink]) Esite Evis).
      lia. }
    rewrite Hrun. exists st'. split; [reflexivity|].
    eapply grows_trans; eassumption.
Qed.

(** [scrapeRecursively] ends under the same condition, whatever
    [maxDepth] is. *)
Lemma scrapeRecursively_run :
  forall (fuel : nat) (url : jsstring) (depth : nat) (st : ScraperState),
    (unvisited site st < fuel)%nat ->
    exists st',
      scrapeRecursively cfg resolveUrl lower site fuel url depth st
        = Some (Normal tt, st')
      /\ grows st st'.
Proof.
  induction fuel as [|fuel IH]; intros url depth st Hfuel; [lia|].
  cbn [scrapeRecursively]. unfold bind at 1. cbn [get].
  destruct (bool_decide (url ∈ visitedUrls st)) eqn:Evis.
  { exists st. split; [reflexivity | apply grows_refl]. }
  destruct (Config.maxDepth cfg <? depth)%nat.
  { exists st. split; [reflexivity | apply grows_refl]. }
  cbn [orb]. apply bool_decide_eq_false in Evis.
  unfold bind at 1. cbn [markVisited modify].
  unfold tryCatch. unfold bind at 1. unfold goto. unfold bind at 1.
  cbn [modify visitedUrls scrapedData navigations].
  pose proof (grows_visit st _ Evis) as Hg2.
  destruct (site !! url) as [loaded|] eqn:Esite.
  2:{ eexists. split; [reflexivity | exact Hg2]. }
  cbn [ret]. unfold bind at 1.
  assert (Hless : forall st1,
            {[url]} ∪ visitedUrls st ⊆ visitedUrls st1 ->
            (unvisited site st1 < fuel)%nat).
  { intros st1 Hsub.
    pose proof (unvisited_mono site
                  (mkScraperState ({[url]} ∪ visitedUrls st)
                     (scrapedData st) (navigations st ++ [url]))
                  st1 Hsub) as Hle.
    pose proof (unvisited_visit site st _ loaded (scrapedData st)
                  (navigations st ++ [url]) Esite Evis).
    lia. }
  set (st2 := mkScraperState ({[url]} ∪ visitedUrls st) (scrapedData st)
                (navigations st ++ [url])) in *.
  assert (Hcleared : forall k : nat,
    exists r st',
      (viewAllButtons <-
         lift (collectElements (loaded k) Config.viewAllButtons) ;;
       match viewAllButtons with
       | _ :: _ =>
           viewAllUrls <- lift (resolveHrefs resolveUrl viewAllButtons) ;;
           forEach viewAllUrls
             (fun viewAllUrl =>
                scrapeRecursively cfg resolveUrl lower site fuel
                  viewAllUrl (depth + 1)%nat)
       | [] =>
           extractVideoLinks resolveUrl
             (extractMp3FromVideoPage resolveUrl site fuel)
             (loaded k) depth
       end)%eff st2 = Some (r, st')
      /\ grows st st').
  { intros k. unfold bind at 1. unfold lift at 1.
    destruct (collectElements (loaded k) Config.viewAllButtons)
      as [[|button buttons]|e].
    - destruct (extractVideoLinks_run
                  (extractMp3FromVideoPage resolveUrl site fuel)
                  (loaded k) depth st2) as (st' & Hrun & Hg).
      { intros link d st1 Hsub.
        apply extractMp3FromVideoPage_run, Hless, Hsub. }
      exists (Normal tt), st'. split; [exact Hrun|].
      eapply grows_trans; eassumption.
    - unfold bind at 1. unfold lift at 1.
      destruct (resolveHrefs resolveUrl (button :: buttons))
        as [viewAllUrls|e].
      + destruct (forEach_run
                    (fun viewAllUrl =>
                       scrapeRecursively cfg resolveUrl lower site fuel
                         viewAllUrl (depth + 1)%nat)
                    viewAllUrls st2) as (st' & Hrun & Hg).
        { intros u st1 Hsub. apply IH, Hless, Hsub. }
        exists (Normal tt), st'. split; [exact Hrun|].
        eapply grows_trans; eassumption.
      + exists (Throw e), st2. split; [reflexivity | exact Hg2].
    - exists (Throw e), st2. split; [reflexivity | exact Hg2]. }
  destruct (checkForCaptcha lower (loaded 0%nat)).
  - unfold lift at 1.
    destruct (handleCaptcha cfg lower loaded) as [[k|]|e].
    + destruct (Hcleared k) as (r & st' & Hrun & Hg).
      rewrite Hrun. exists st'. destruct r as [[]|e]; (split; [reflexivity | exact Hg]).
    + exists st2. split; [reflexivity | exact Hg2].
    + exists st2. split; [reflexivity | exact Hg2].
  - cbn [ret].
    destruct (Hcleared 0%nat) as (r & st' & Hrun & Hg).
    rewrite Hrun. exists st'. destruct r as [[]|e]; (split; [reflexivity | exact Hg]).
Qed.

End Traversal.

End ScraperFacts.

(** ** The two discovery strategies and the ledger *)

Module PaginatedFacts.
Import JsString Dom Eff Paginated.

Lemma mem_false (u : jsstring) (l : list jsstring) :
  mem u l = false -> ~ In u l.
Proof.
  unfold mem. intros H Hin.
  assert (existsb (fun v => bool_decide (u = v)) l = true) as E.
  { apply existsb_exists. exists u. split; [exact Hin|].
    now apply bool_decide_eq_true. }
  congruence.
Qed.

Lemma NoDup_snoc (l : list jsstring) (u : jsstring) :
  List.NoDup l -> ~ In u l -> List.NoDup (l ++ [u]).
Proof.
  intros Hl Hu. apply NoDup_ListNoDup. apply NoDup_app.
  split; [now apply NoDup_ListNoDup|]. split; [|apply NoDup_singleton].
  intros x Hx Hx'. apply list_elem_of_singleton in Hx'. subst x.
  apply Hu. now apply list_elem_of_In.
Qed.

(** The links of one listing page are pairwise distinct. *)
Lemma addLinks_NoDup (elements : list Element) :
  forall links, List.NoDup links -> List.NoDup (addLinks elements links).
Proof.
  induction elements as [|el elements IH]; intros links Hl; cbn [addLinks];
    [exact Hl|].
  destruct (truthyAttr (href el)) as [h|]; [|now apply IH].
  destruct (includes (js "/aid/") h); [|now apply IH].
  destruct (mem (absolute h) links) eqn:E; [now apply IH|].
  apply IH. apply NoDup_snoc; [exact Hl | now apply mem_false].
Qed.

Lemma evaluateLinks_NoDup (p : Page) (selectors : list selector) :
  forall links videoLinks,
    List.NoDup links ->
    evaluateLinks p selectors links = Normal videoLinks ->
    List.NoDup videoLinks.
Proof.
  induction selectors as [|sel rest IH]; intros links videoLinks Hl;
    cbn [evaluateLinks].
  - now intros [= <-].
  - destruct (querySelectorAll p sel) as [elements|e]; [|discriminate].
    apply IH. now apply addLinks_NoDup.
Qed.

(** [scrapeCurrentPage] ends normally; what it returns has no duplicate
    and is appended to [allVideoData]. *)
Lemma scrapeCurrentPage_run (b : Browser) (s : PaginatedState) :
  exists videoLinks s',
    scrapeCurrentPage b s = Some (Normal videoLinks, s')
    /\ List.NoDup videoLinks
    /\ allVideoData s' = allVideoData s ++ videoLinks
    /\ navigations s' = navigations s
    /\ clicks s' = clicks s.
Proof.
  unfold scrapeCurrentPage. unfold bind at 1. cbn [get].
  unfold tryCatch. unfold bind at 1. unfold lift at 1.
  destruct (evaluateLinks (listingDom (listingAfter b (clicks s)))
              Config.videoLinks []) as [videoLinks|e] eqn:E.
  - exists videoLinks. eexists. split; [reflexivity|].
    split; [|now repeat split].
    eapply evaluateLinks_NoDup; [|exact E]. constructor.
  - exists [], s. split; [reflexivity|]. split; [constructor|].
    now rewrite app_nil_r.
Qed.

(** Phase 2 navigates to every collected entry, in order, whatever
    the pages show. *)
Lemma extractLoop_run (b : Browser) (videos : list jsstring) :
  forall extractedData s,
  exists data s',
    extractLoop b videos extractedData s = Some (Normal data, s')
    /\ navigations s' = navigations s ++ videos
    /\ allVideoData s' = allVideoData s.
Proof.
  induction videos as [|videoUrl rest IH]; intros extractedData s.
  - exists extractedData, s. split; [reflexivity|].
    now rewrite app_nil_r.
  - cbn [extractLoop]. unfold bind at 1.
    unfold extractMp3FromVideoPage, tryCatch.
    unfold bind at 1. cbn [modify]. unfold bind at 1. unfold lift at 1.
    set (s1 := mkPaginatedState (allVideoData s) (processedPages s)
                 (totalFound s) (clicks s) (navigations s ++ [videoUrl])).
    assert (Hnext : forall acc,
      exists data s',
        extractLoop b rest acc s1 = Some (Normal data, s')
        /\ navigations s' = navigations s ++ videoUrl :: rest
        /\ allVideoData s' = allVideoData s).
    { intros acc. destruct (IH acc s1) as (data & s' & Hrun & Hn & Ha).
      exists data, s'. split; [exact Hrun|]. split; [|exact Ha].
      rewrite Hn. unfold s1. cbn. now rewrite <- app_assoc. }
    destruct (videoPage b videoUrl) as [p|e].
    + destruct (truthyAttr (findDownloadLink p Config.downloadLinks))
        as [downloadLink|]; cbn [ret]; apply Hnext.
    + cbn [ret]. apply Hnext.
Qed.

End PaginatedFacts.

Module StrategyFacts.
Import JsString Dom Eff Ledger ScraperFacts PaginatedFacts SiteExamples.

Lemma wellVisited_initial : wellVisited Mp3Scraper.initialState.
Proof. split; [constructor | intros u []]. Qed.

(** A run of the recursive strategy from the initial state ends, and its
    navigations are pairwise distinct. *)
Lemma recursive_run (cfg : Config.Settings)
    (resolveUrl : jsstring -> completion jsstring)
    (lower : jsstring -> jsstring) (site : gmap jsstring LoadedPage)
    (startUrl : jsstring) :
  exists st',
    Mp3Scraper.scrapeRecursively cfg resolveUrl lower site
      (Mp3Scraper.scrapeFuel site) startUrl 0 Mp3Scraper.initialState
      = Some (Normal tt, st')
    /\ wellVisited st'.
Proof.
  destruct (scrapeRecursively_run cfg resolveUrl lower site
              (Mp3Scraper.scrapeFuel site) startUrl 0%nat
              Mp3Scraper.initialState) as (st' & Hrun & _ & _ & Hw).
  { rewrite unvisited_initial. unfold Mp3Scraper.scrapeFuel. lia. }
  exists st'. split; [exact Hrun | exact (Hw wellVisited_initial)].
Qed.

(** C2: on every finite site, cyclic or not, and for every [maxDepth]
    (a field of [cfg]), the run of [scrapeRecursively] from the start URL
    ends with the fuel [scrapeFuel], no URL is navigated to twice, and
    every URL navigated to was put in [visitedUrls]; on the site whose
    only page links to itself the page is navigated to once, also when
    [maxDepth] is 1000. *)
Theorem scrapeRecursively_terminates (cfg : Config.Settings)
    (resolveUrl : jsstring -> completion jsstring)
    (lower : jsstring -> jsstring) (site : gmap jsstring LoadedPage)
    (startUrl : jsstring) :
  (exists st',
     Mp3Scraper.scrapeRecursively cfg resolveUrl lower site
       (Mp3Scraper.scrapeFuel site) startUrl 0 Mp3Scraper.initialState
       = Some (Normal tt, st')
     /\ NoDup (Mp3Scraper.navigations st')
     /\ forall u, In u (Mp3Scraper.navigations st') ->
                  u ∈ Mp3Scraper.visitedUrls st')
  /\ (exists st',
        Mp3Scraper.scrapeRecursively (Config.mkSettings false 1000) resolve
          toLowerCase selfLoopSite (Mp3Scraper.scrapeFuel selfLoopSite)
          (Config.BASE_URL ++ sectionA) 0 Mp3Scraper.initialState
        = Some (Normal tt, st')
        /\ Mp3Scraper.navigations st' = [Config.BASE_URL ++ sectionA]).
Proof.
  split.
  - destruct (recursive_run cfg resolveUrl lower site startUrl)
      as (st' & Hrun & Hnd & Hin).
    exists st'. now split.
  - eexists. split; [vm_compute; reflexivity | reflexivity].
Qed.

(** What the two strategies do about the ledger.  The recursive strategy
    consults it before every navigation, so a run navigates to no URL
    twice.  The pagination strategy keeps none: the links it collects from
    one listing page are pairwise distinct, and its second phase navigates
    once to every collected entry, in the order of collection. *)
Theorem strategies_and_ledger :
  (forall cfg resolveUrl lower (site : gmap jsstring LoadedPage) startUrl,
     exists st',
       Mp3Scraper.scrapeRecursively cfg resolveUrl lower site
         (Mp3Scraper.scrapeFuel site) startUrl 0 Mp3Scraper.initialState
         = Some (Normal tt, st')
       /\ NoDup (Mp3Scraper.navigations st'))
  /\ (forall (b : Paginated.Browser) (s : Paginated.PaginatedState),
        exists videoLinks s',
          Paginated.scrapeCurrentPage b s = Some (Normal videoLinks, s')
          /\ List.NoDup videoLinks
          /\ Paginated.allVideoData s'
             = Paginated.allVideoData s ++ videoLinks)
  /\ (forall (b : Paginated.Browser) (s : Paginated.PaginatedState),
        exists data s',
          Paginated.extractMetadataFromAllVideos b s
            = Some (Normal data, s')
          /\ Paginated.navigations s'
             = Paginated.navigations s ++ Paginated.allVideoData s).
Proof.
  split; [|split].
  - intros cfg resolveUrl lower site startUrl.
    destruct (recursive_run cfg resolveUrl lower site startUrl)
      as (st' & Hrun & Hnd & _).
    exists st'. now split.
  - intros b s.
    destruct (scrapeCurrentPage_run b s)
      as (videoLinks & s' & Hrun & Hnd & Ha & _).
    now exists videoLinks, s'.
  - intros b s. unfold Paginated.extractMetadataFromAllVideos.
    unfold bind at 1. cbn [get].
    destruct (extractLoop_run b (Paginated.allVideoData s) [] s)
      as (data & s' & Hrun & Hn & _).
    now exists data, s'.
Qed.

(** C3: the pagination strategy does not consult a ledger before it
    visits a URL.  When two listing pages show the same video, the first
    phase collects its URL twice and the second phase navigates to it
    twice in one run, whereas the claim says that it is visited only
    once. *)
Lemma pagination_visits_twice :
  exists data s',
    Paginated.processAllPages 51 repeatedListing Paginated.initialState
      = Some (Normal data, s')
    /\ Paginated.navigations s'
       = [Config.BASE_URL ++ videoB; Config.BASE_URL ++ videoB]
    /\ ~ List.NoDup (Paginated.navigations s').
Proof.
  eexists _, _. split; [vm_compute; reflexivity|].
  split; [reflexivity|].
  cbn [Paginated.navigations]. intros H. inversion H as [|x l Hx _]; subst.
  apply Hx. now left.
Qed.

End StrategyFacts.

(** ** The shape of the derived keys *)

Module KeyFacts.
Import JsString Uploader KeyShape JsStringFacts UploaderFacts Examples.

Ltac bool_lia :=
  repeat match goal with
    | H : context [(?a <=? ?b)] |- _ => destruct (N.leb_spec a b)
    | |- context [(?a <=? ?b)] => destruct (N.leb_spec a b)
    | H : context [(?a =? ?b)] |- _ => destruct (N.eqb_spec a b)
    | |- context [(?a =? ?b)] => destruct (N.eqb_spec a b)
    end;
  cbn in *; try reflexivity; try discriminate; try lia.

Lemma lowerUnit_slug (c : N) :
  isLower c || isUpper c || isDigit c || (c =? 45) = true ->
  isSlugChar (lowerUnit c) = true.
Proof.
  unfold isSlugChar, lowerUnit, isLower, isUpper, isDigit, inRange.
  intros H. bool_lia.
Qed.

Lemma cleanChain_slug (t : jsstring) :
  Forall (fun c => isSlugChar c = true) (cleanChain t).
Proof.
  unfold cleanChain, toLowerCase.
  pose proof (cleanChain_receiver_ascii t) as H.
  induction H as [|c s Hc Hs IH]; cbn [List.map]; constructor;
    [now apply lowerUnit_slug | exact IH].
Qed.

Lemma takeWhile_Forall (p : N -> bool) (s : jsstring) :
  Forall (fun c => p c = true) (takeWhile p s).
Proof.
  induction s as [|c s IH]; cbn [takeWhile]; [constructor|].
  destruct (p c) eqn:E; constructor; assumption.
Qed.

Lemma aidAt_digits (s ds : jsstring) :
  aidAt s = Some ds -> ds <> [] /\ Forall (fun c => isDigit c = true) ds.
Proof.
  unfold aidAt. destruct (stripPrefix (js "/aid/") s) as [r|]; [|discriminate].
  pose proof (takeWhile_Forall isDigit r) as H.
  destruct (takeWhile isDigit r) as [|d ds']; [discriminate|].
  intros [= <-]. split; [discriminate | exact H].
Qed.

Lemma matchAid_digits (s ds : jsstring) :
  matchAid s = Some ds -> ds <> [] /\ Forall (fun c => isDigit c = true) ds.
Proof.
  induction s as [|c s IH].
  - cbn. discriminate.
  - cbn [matchAid]. destruct (aidAt (c :: s)) as [d|] eqn:E.
    + intros [= <-]. now apply aidAt_digits in E.
    + exact IH.
Qed.

Lemma string_of_uint_digits (d : Decimal.uint) :
  Forall (fun c => isDigit c = true) (js (NilEmpty.string_of_uint d)).
Proof. induction d; cbn; constructor; try reflexivity; assumption. Qed.

Lemma ofNumber_digits (n : N) :
  Forall (fun c => isDigit c = true) (ofNumber n).
Proof. apply string_of_uint_digits. Qed.

Lemma padStart0_digits (len : nat) (s : jsstring) :
  Forall (fun c => isDigit c = true) s ->
  Forall (fun c => isDigit c = true) (padStart0 len s).
Proof.
  intros H. unfold padStart0. apply Forall_app. split; [|exact H].
  induction (len - length s)%nat; cbn; constructor; [reflexivity | assumption].
Qed.

Lemma padStart0_length (len : nat) (s : jsstring) :
  (len <= length (padStart0 len s))%nat.
Proof.
  unfold padStart0. rewrite length_app, repeat_length. lia.
Qed.

(** *** The value of a padded index *)

Lemma fold_value_zeros (k : nat) (s : jsstring) :
  decimalValue (repeat 48 k ++ s) = decimalValue s.
Proof.
  unfold decimalValue. rewrite fold_left_app.
  replace (fold_left (fun acc c => 10 * acc + (c - 48)) (repeat 48 k) 0)
    with 0; [reflexivity|].
  induction k; cbn; [reflexivity | assumption].
Qed.

Lemma fold_value_acc (d : Decimal.uint) (acc : positive) :
  fold_left (fun acc c => 10 * acc + (c - 48))
    (js (NilEmpty.string_of_uint d)) (N.pos acc)
  = N.pos (Pos.of_uint_acc d acc).
Proof.
  revert acc. induction d; intros acc; cbn [NilEmpty.string_of_uint js
    list_ascii_of_string List.map fold_left Pos.of_uint_acc];
    [reflexivity| ..];
    match goal with
    | |- fold_left _ _ ?a = _ =>
        match goal with
        | |- context [Pos.of_uint_acc d ?b] =>
            replace a with (N.pos b) by (cbn; lia)
        end
    end; apply IHd.
Qed.

Lemma fold_value_uint (d : Decimal.uint) :
  decimalValue (js (NilEmpty.string_of_uint d)) = Pos.of_uint d.
Proof.
  unfold decimalValue.
  induction d; cbn [NilEmpty.string_of_uint js list_ascii_of_string List.map
    fold_left Pos.of_uint]; [reflexivity | exact IHd | ..];
    match goal with
    | |- fold_left _ _ ?a = N.pos (Pos.of_uint_acc d ?b) =>
        replace a with (N.pos b) by (cbn; lia)
    end; apply fold_value_acc.
Qed.

Lemma decimalValue_ofNumber (n : N) : decimalValue (ofNumber n) = n.
Proof.
  unfold ofNumber. rewrite fold_value_uint.
  apply DecimalN.Unsigned.of_to.
Qed.

Lemma decimalValue_padded (len : nat) (n : N) :
  decimalValue (padStart0 len (ofNumber n)) = n.
Proof. unfold padStart0. now rewrite fold_value_zeros, decimalValue_ofNumber. Qed.

(** *** Parsing a key back *)

Lemma split_at_sep (sep : N) (a1 a2 b1 b2 : jsstring) :
  a1 ++ sep :: b1 = a2 ++ sep :: b2 ->
  ~ In sep a1 -> ~ In sep a2 -> a1 = a2 /\ b1 = b2.
Proof.
  revert a2. induction a1 as [|c a1 IH]; intros [|c2 a2] E H1 H2; cbn in E.
  - injection E as E. now split.
  - injection E as -> _. exfalso. apply H2. now left.
  - injection E as <- _. exfalso. apply H1. now left.
  - injection E as <- E. destruct (IH a2 E) as [-> ->].
    + intros Hin. apply H1. now right.
    + intros Hin. apply H2. now right.
    + now split.
Qed.

Lemma Forall_not_In (p : N -> bool) (sep : N) (s : jsstring) :
  p sep = false -> Forall (fun c => p c = true) s -> ~ In sep s.
Proof.
  intros Hsep H Hin. rewrite List.Forall_forall in H.
  specialize (H sep Hin). congruence.
Qed.

Lemma generateS3Key_parts (r : Mp3Data) (index : N) (k : jsstring) :
  generateS3Key r index = Normal k ->
  exists ct seg aid fname, keyParts index k ct seg aid fname.
Proof.
  unfold generateS3Key. destruct (title (metadata r)) as [t|]; [|discriminate].
  intros [= <-].
  exists (contentTypeOf (videoUrl r)), (substring0 80 (cleanChain t)),
    (aidOf (videoUrl r)), (substring0 100 (cleanChain t)).
  constructor.
  - reflexivity.
  - unfold contentTypeOf, contentTypes.
    destruct (includes (js "/library/tanya/") (videoUrl r)); [now left|].
    destruct (includes (js "/multimedia/video_cdo/") (videoUrl r));
      [now right; left | now right; right; left].
  - apply Forall_substring0, cleanChain_slug.
  - unfold substring0. rewrite firstn_firstn. reflexivity.
  - unfold aidOf. destruct (matchAid (videoUrl r)) as [ds|] eqn:E.
    + right. now apply matchAid_digits in E.
    + now left.
  - apply Forall_substring0, cleanChain_slug.
  - apply length_substring0.
Qed.

Lemma slug_no_slash (s : jsstring) :
  Forall (fun c => isSlugChar c = true) s -> ~ In 47 s.
Proof. now apply Forall_not_In. Qed.

Lemma digits_no_slash (s : jsstring) :
  Forall (fun c => isDigit c = true) s -> ~ In 47 s.
Proof. now apply Forall_not_In. Qed.

Lemma digits_no_hyphen (s : jsstring) :
  Forall (fun c => isDigit c = true) s -> ~ In 45 s.
Proof. now apply Forall_not_In. Qed.

Lemma ct_no_slash (ct : jsstring) : In ct contentTypes -> ~ In 47 ct.
Proof.
  intros [<-|[<-|[<-|[]]]]; cbn; intros H;
    repeat (destruct H as [H|H]; [discriminate H|]); exact H.
Qed.

Lemma aid_no_slash (aid : jsstring) :
  aid = js "unknown" \/ (aid <> [] /\ Forall (fun c => isDigit c = true) aid) ->
  ~ In 47 aid.
Proof.
  intros [->|[_ H]]; [|now apply digits_no_slash].
  cbn. intros H. repeat (destruct H as [H|H]; [discriminate H|]). exact H.
Qed.

Lemma slug_key (s : jsstring) :
  Forall (fun c => isSlugChar c = true) s ->
  Forall (fun c => isKeyChar c = true) s.
Proof.
  apply List.Forall_impl. intros c Hc. unfold isKeyChar. now rewrite Hc.
Qed.

Lemma digits_slug (s : jsstring) :
  Forall (fun c => isDigit c = true) s ->
  Forall (fun c => isSlugChar c = true) s.
Proof.
  apply List.Forall_impl. intros c Hc. unfold isSlugChar. rewrite Hc.
  now rewrite orb_true_r.
Qed.

(** X1: for an index that is a safe integer (at most 2^53 - 1, as every
    position of an array is), a derived key is made of lower-case letters,
    digits, hyphens, slashes and points only: it is one of the three
    content types, the slug of the title cut at 80, the id (digits, or
    "unknown"), the index padded to four digits at least, and the slug of
    the title cut at 100, with the extension [.mp3]. *)
Theorem generateS3Key_shape (r : Mp3Data) (index : N) (k : jsstring) :
  isSafeInteger index = true ->
  generateS3Key r index = Normal k ->
  Forall (fun c => isKeyChar c = true) k
  /\ exists ct seg aid fname,
       k = ct ++ js "/" ++ seg ++ js "/" ++ aid ++ js "/"
           ++ padStart0 4 (ofNumber index) ++ js "-" ++ fname ++ js ".mp3"
       /\ In ct contentTypes
       /\ Forall (fun c => isSlugChar c = true) seg
       /\ seg = substring0 80 fname
       /\ (aid = js "unknown"
           \/ (aid <> [] /\ Forall (fun c => isDigit c = true) aid))
       /\ Forall (fun c => isDigit c = true) (padStart0 4 (ofNumber index))
       /\ (4 <= length (padStart0 4 (ofNumber index)))%nat
       /\ Forall (fun c => isSlugChar c = true) fname
       /\ (length fname <= 100)%nat.
Proof.
  intros _ H. destruct (generateS3Key_parts r index k H)
    as (ct & seg & aid & fname & [Hk Hct Hseg Hpre Haid Hf Hlen]).
  pose proof (padStart0_digits 4 _ (ofNumber_digits index)) as Hidx.
  split.
  - assert (Hct' : Forall (fun c => isKeyChar c = true) ct).
    { destruct Hct as [<-|[<-|[<-|[]]]]; repeat constructor. }
    assert (Haid' : Forall (fun c => isKeyChar c = true) aid).
    { destruct Haid as [->|[_ Hd]]; [repeat constructor|].
      now apply slug_key, digits_slug. }
    rewrite Hk.
    apply Forall_app; split; [exact Hct'|]. constructor; [reflexivity|].
    apply Forall_app; split; [now apply slug_key|]. constructor; [reflexivity|].
    apply Forall_app; split; [exact Haid'|]. constructor; [reflexivity|].
    apply Forall_app; split; [now apply slug_key, digits_slug|].
    constructor; [reflexivity|].
    apply Forall_app; split; [now apply slug_key | repeat constructor].
  - exists ct, seg, aid, fname.
    refine (conj Hk (conj Hct (conj Hseg (conj Hpre (conj Haid (conj Hidx
              (conj (padStart0_length 4 _) (conj Hf Hlen)))))))).
Qed.

Lemma generateS3Key_shape_witness :
  Forall (fun c => isKeyChar c = true) gordonKey.
Proof.
  exact (proj1 (generateS3Key_shape gordonRecord 1 gordonKey eq_refl
                  eq_refl)).
Defined.

(** The index can be read back from a key: two keys that are equal were
    derived with the same index. *)
Lemma keys_same_index (i j : N) (k ct1 seg1 aid1 f1 ct2 seg2 aid2 f2 : jsstring) :
  keyParts i k ct1 seg1 aid1 f1 -> keyParts j k ct2 seg2 aid2 f2 -> i = j.
Proof.
  intros [K1 C1 S1 _ A1 _ _] [K2 C2 S2 _ A2 _ _].
  rewrite K1 in K2.
  apply split_at_sep in K2 as [_ K2];
    [|now apply ct_no_slash | now apply ct_no_slash].
  apply split_at_sep in K2 as [_ K2];
    [|now apply slug_no_slash | now apply slug_no_slash].
  apply split_at_sep in K2 as [_ K2];
    [|now apply aid_no_slash | now apply aid_no_slash].
  apply split_at_sep in K2 as [K2 _];
    [|apply digits_no_hyphen, padStart0_digits, ofNumber_digits
     |apply digits_no_hyphen, padStart0_digits, ofNumber_digits].
  apply (f_equal decimalValue) in K2.
  now rewrite !decimalValue_padded in K2.
Qed.

(** X2: the index makes the keys unique: whatever the two records are,
    for two indices that are safe integers (at most 2^53 - 1, as every
    position of an array is) [generateS3Key] yields the same key only at
    the same index. *)
Theorem generateS3Key_index_injective (r1 r2 : Mp3Data) (i j : N)
    (k : jsstring) :
  isSafeInteger i = true ->
  isSafeInteger j = true ->
  generateS3Key r1 i = Normal k ->
  generateS3Key r2 j = Normal k ->
  i = j.
Proof.
  intros _ _ H1 H2.
  destruct (generateS3Key_parts r1 i k H1) as (c1 & s1 & a1 & f1 & P1).
  destruct (generateS3Key_parts r2 j k H2) as (c2 & s2 & a2 & f2 & P2).
  exact (keys_same_index i j k _ _ _ _ _ _ _ _ P1 P2).
Qed.

Lemma generateS3Key_index_injective_witness :
  isSafeInteger 1 = true
  /\ generateS3Key gordonRecord 1 = Normal gordonKey
  /\ generateS3Key
       (mkMp3Data (videoUrl gordonRecord) [] gordonMetadata []) 1
     = Normal gordonKey
  /\ (1 : N) = 1.
Proof.
  refine (conj eq_refl (conj eq_refl (conj eq_refl _))).
  exact (generateS3Key_index_injective gordonRecord
           (mkMp3Data (videoUrl gordonRecord) [] gordonMetadata []) 1 1
           gordonKey eq_refl eq_refl eq_refl eq_refl).
Defined.

End KeyFacts.

(** ** What a run of the uploader keeps *)

Module AccountFacts.
Import JsString Uploader Processing Outcome Eff Logs.
Import DownloadFacts ProcessFacts KeyFacts RunFacts.
Import Examples WorldExamples.

(** The loop over the records: it ends normally, every record gets the
    next index and one log entry, the RAG entries are as many as the
    uploads counted, and the keys of the uploads are pairwise distinct. *)
Lemma processLoop_account (cfg : Config) (env : nat -> RecordEnv)
    (total : nat) :
  forall (rest : list Mp3Data) (i : nat) (s : UploaderState),
  exists s' evs,
    processLoop cfg env total i rest s = Some (Normal tt, s')
    /\ events s' = events s ++ evs
    /\ List.NoDup (uploads evs)
    /\ (forall k, In k (uploads evs) ->
          exists r idx, (i < idx)%nat
                        /\ generateS3Key r (N.of_nat idx) = Normal k)
    /\ uploadedCount s' + failedCount s'
       = uploadedCount s + failedCount s + N.of_nat (length rest)
    /\ List.map logIndex (uploadLog s')
       = List.map logIndex (uploadLog s)
         ++ List.map N.of_nat (seq (i + 1) (length rest))
    /\ N.of_nat (length (ragMetadata s')) + uploadedCount s
       = N.of_nat (length (ragMetadata s)) + uploadedCount s'.
Proof.
  induction rest as [|r rest IH]; intros i s.
  - exists s, []. cbn. rewrite !app_nil_r.
    refine (conj eq_refl (conj eq_refl (conj _ (conj _ (conj _
              (conj eq_refl _)))))); [constructor | intros k [] | lia | lia].
  - destruct (processSingleMp3_run cfg (env i) r (N.of_nat (i + 1)) s)
      as (res & s1 & evs1 & n & Hrun & _ & _ & _ & Hcase).
    rewrite (processLoop_cons _ _ _ _ _ _ _ _ _ Hrun).
    destruct (IH (S i) (paused total i s1))
      as (s' & evs2 & Hloop & He & Hnd & Hkeys & Hc & Hl & Hr).
    destruct (paused_counts total i s1) as (P1 & P2 & P3 & P4).
    rewrite P1, P2 in Hc. rewrite P4 in Hl. rewrite P1, P3 in Hr.
    assert (Hpe : exists pause, events (paused total i s1)
                                = events s1 ++ pause /\ uploads pause = []).
    { unfold paused. destruct (i + 1 <? total)%nat.
      - now exists [Sleep 2000].
      - exists []. now rewrite app_nil_r. }
    destruct Hpe as (pause & Hpe & Hpu). rewrite Hpe in He.
    assert (Hone : exists entry du df rags,
              advance s s1 du df rags [entry] evs1
              /\ logIndex entry = N.of_nat (i + 1)
              /\ du + df = 1 /\ N.of_nat (length rags) = du
              /\ (uploads evs1 = []
                  \/ exists key, uploads evs1 = [key]
                       /\ generateS3Key r (N.of_nat (i + 1)) = Normal key)).
    { destruct Hcase as [(size & key & url & _ & Hk & _ & _ & Hup & Hadv)
                        | (e & _ & Hadv & Hwhy)].
      - eexists _, 1, 0, _. refine (conj Hadv (conj eq_refl (conj eq_refl
          (conj eq_refl _)))). right. now exists key.
      - eexists _, 0, 1, _. refine (conj Hadv (conj eq_refl (conj eq_refl
          (conj eq_refl _)))).
        destruct Hwhy as [(Hu & _) | [(Hu & _) | (sz & key & _ & Hk & _ & Hup)]];
          [now left | now left | right; now exists key]. }
    destruct Hone as (entry & du & df & rags & [A1 A2 A3 A4 A5] & Hidx & Hsum
                      & Hrags & Hup).
    exists s', (evs1 ++ pause ++ evs2).
    refine (conj Hloop (conj _ (conj _ (conj _ (conj _ (conj _ _)))))).
    + rewrite He, A5, <- !app_assoc. reflexivity.
    + rewrite !uploads_app, Hpu. cbn [app].
      destruct Hup as [-> | (key & -> & Hk)]; [exact Hnd|].
      cbn [app]. constructor; [|exact Hnd].
      intros Hin. destruct (Hkeys key Hin) as (r' & idx & Hlt & Hk').
      destruct (generateS3Key_parts _ _ _ Hk) as (c1 & g1 & a1 & f1 & Q1).
      destruct (generateS3Key_parts _ _ _ Hk') as (c2 & g2 & a2 & f2 & Q2).
      pose proof (keys_same_index _ _ _ _ _ _ _ _ _ _ _ Q1 Q2) as E.
      apply Nat2N.inj in E. lia.
    + intros k Hin. rewrite !uploads_app, Hpu in Hin. cbn [app] in Hin.
      apply in_app_or in Hin as [Hin|Hin].
      * destruct Hup as [E | (key & E & Hk)]; rewrite E in Hin;
          [destruct Hin|].
        destruct Hin as [<-|[]]. exists r, (i + 1)%nat. split; [lia | exact Hk].
      * destruct (Hkeys k Hin) as (r' & idx & Hlt & Hk').
        exists r', idx. split; [lia | exact Hk'].
    + rewrite A1, A2 in Hc. cbn [length]. lia.
    + rewrite Hl, A4, List.map_app. cbn [List.map length seq].
      rewrite Hidx, <- app_assoc. cbn [app].
      now replace (S i + 1)%nat with (S (i + 1)) by lia.
    + rewrite A3, length_app in Hr. rewrite A1 in Hr. lia.
Qed.

(** [processAllMp3s] after a successful login: the loop starts from a
    state without uploads, counters or entries. *)
Lemma processAllMp3s_start (cfg : Config) (w : World)
    (records : list Mp3Data) :
  initializeAndLogin w = Normal tt ->
  exists s0,
    uploadedCount s0 = 0 /\ failedCount s0 = 0 /\ ragMetadata s0 = []
    /\ uploadLog s0 = [] /\ uploads (events s0) = []
    /\ (records = [] -> s0 = initialState)
    /\ processAllMp3s cfg w records initialState =
       tryFinally (processLoop cfg (recordEnv w) (length records) 0 records)
         (addEvent CloseBrowser) s0.
Proof.
  intros Hlogin. destruct records as [|first rest].
  - exists initialState. unfold processAllMp3s.
    unfold bind at 1. unfold lift at 1. rewrite Hlogin.
    now refine (conj eq_refl (conj eq_refl (conj eq_refl (conj eq_refl
                  (conj eq_refl (conj _ eq_refl)))))).
  - destruct (processAllMp3s_loop cfg w first rest Hlogin)
      as (s0 & C0 & F0 & R0 & L0 & U0 & Hrun).
    exists s0.
    refine (conj C0 (conj F0 (conj R0 (conj L0 (conj U0 (conj _ Hrun)))))).
    discriminate.
Qed.

(** X4: in one run no two uploads use the same key, whatever the records
    and whatever fails. *)
Theorem uploads_pairwise_distinct (cfg : Config) (w : World)
    (records : list Mp3Data) :
  exists res s',
    processAllMp3s cfg w records initialState = Some (res, s')
    /\ List.NoDup (uploads (events s')).
Proof.
  destruct (initializeAndLogin w) as [[]|e] eqn:Hlogin.
  - destruct (processAllMp3s_start cfg w records Hlogin)
      as (s0 & _ & _ & _ & _ & U0 & _ & ->).
    unfold tryFinally.
    destruct (processLoop_account cfg (recordEnv w) (length records)
                records 0 s0)
      as (s' & evs & Hloop & He & Hnd & _).
    rewrite Hloop. exists (Normal tt), (addEvent CloseBrowser s').
    split; [reflexivity|]. cbn [addEvent events].
    rewrite He, !uploads_app, U0. cbn. now rewrite app_nil_r.
  - exists (Throw e), initialState. split; [|constructor].
    unfold processAllMp3s. unfold bind at 1. unfold lift at 1.
    now rewrite Hlogin.
Qed.

(** X5: for an empty batch the run only closes the browser, and the
    summary that [saveRAGMetadata] writes has the counts 0 and the success
    rate "NaN%", the quotient being 0/0. *)
Theorem empty_batch_summary (cfg : Config) (w : World) :
  initializeAndLogin w = Normal tt ->
  exists s',
    processAllMp3s cfg w [] initialState = Some (Normal tt, s')
    /\ events s' = [CloseBrowser]
    /\ summaryOf s' =
         {| totalProcessed := 0; successful := 0; failed := 0;
            successRate := Some (js "NaN%") |}.
Proof.
  intros Hlogin.
  destruct (processAllMp3s_start cfg w [] Hlogin)
    as (s0 & _ & _ & _ & _ & _ & Hs0 & ->).
  rewrite (Hs0 eq_refl).
  exists (addEvent CloseBrowser initialState). now repeat split.
Qed.

Lemma empty_batch_summary_witness :
  exists s',
    processAllMp3s config secondFails [] initialState = Some (Normal tt, s')
    /\ successRate (summaryOf s') = Some (js "NaN%").
Proof.
  destruct (empty_batch_summary config secondFails eq_refl)
    as (s' & Hrun & _ & Hsum).
  exists s'. split; [exact Hrun | now rewrite Hsum].
Defined.

End AccountFacts.

(** ** The size threshold of the retrieval *)

Module ThresholdFacts.
Import JsString Uploader Processing Outcome Eff DownloadFacts WorldExamples.
Import Threshold.

Lemma pollStaged_undersized (a : DownloadAttempt) :
  forall (remaining i : nat) (s : UploaderState),
    (forall k, (i <= k < i + remaining)%nat -> undersized a k) ->
    exists s',
      pollStaged a remaining i s = Some (Normal false, s')
      /\ frame s s' (repeat (Sleep 2000) remaining)
      /\ tempFile s' = tempFile s.
Proof.
  induction remaining as [|r IH]; intros i s Hsmall.
  - exists s. split; [reflexivity|]. split; [apply frame_refl | reflexivity].
  - cbn [pollStaged]. unfold bind at 1. cbn [emit modify].
    unfold bind at 1. unfold lift at 1.
    pose proof (Hsmall i ltac:(lia)) as Hi. unfold undersized in Hi.
    destruct (IH (S i) (addEvent (Sleep 2000) s)) as (s' & Hrun & Hf & Ht).
    { intros k Hk. apply Hsmall. lia. }
    assert (Hframe : frame s s' (repeat (Sleep 2000) (S r))).
    { destruct Hf as [H1 H2 H3 H4 H5]. constructor; try assumption.
      rewrite H5. cbn [addEvent events repeat]. now rewrite <- app_assoc. }
    destruct (staged a i) as [[size|]|e]; [| |contradiction].
    + assert (E : (1000 <? size) = false) by (apply N.ltb_ge; exact Hi).
      rewrite E. exists s'. now split.
    + exists s'. now split.
Qed.

(** X7: an execution of the download sequence in which the navigations
    succeed and a link is clicked, but every poll finds no file or a file
    of at most 1000 bytes (1000 included), polls 60 times at 2 s, moves no
    file to [tempFilePath] and ends with the timeout error. *)
Theorem undersized_file_rejected (a : DownloadAttempt)
    (downloadUrl videoUrl : jsstring) (retryCount : nat)
    (s : UploaderState) :
  gotoDownload a = Normal tt ->
  gotoVideo a = Normal tt ->
  downloadTriggered a = Normal true ->
  (forall i, (i < 60)%nat -> undersized a i) ->
  exists s',
    downloadSequence a downloadUrl videoUrl retryCount s
      = Some (Throw timeoutError, s')
    /\ events s' =
         events s
         ++ [AttemptLog (retryCount + 1); Goto downloadUrl; Sleep 3000;
             Goto videoUrl; Sleep 3000]
         ++ repeat (Sleep 2000) 60
    /\ tempFile s' = tempFile s
    /\ outcome a = Throw timeoutError.
Proof.
  intros Hd Hv Hc Hsmall.
  unfold downloadSequence.
  unfold bind at 1. cbn [emit modify].
  unfold bind at 1. cbn [emit modify].
  unfold bind at 1. unfold lift at 1. rewrite Hd.
  unfold bind at 1. cbn [emit modify].
  unfold bind at 1. cbn [emit modify].
  unfold bind at 1. unfold lift at 1. rewrite Hv.
  unfold bind at 1. cbn [emit modify].
  unfold bind at 1. unfold lift at 1. rewrite Hc.
  unfold bind at 1.
  match goal with
  | |- context [pollStaged a 60 0 ?st] =>
      destruct (pollStaged_undersized a 60 0 st) as (s' & Hrun & Hf & Ht)
  end.
  { intros k Hk. apply Hsmall. lia. }
  rewrite Hrun. exists s'. split; [reflexivity|].
  destruct Hf as [_ _ _ _ H5].
  cbn [addEvent events tempFile] in H5, Ht.
  split; [|split; [exact Ht|]].
  - rewrite H5, <- !app_assoc. reflexivity.
  - destruct (downloadSequence_run a downloadUrl videoUrl retryCount s)
      as (s2 & evs2 & Hrun2 & _).
    revert Hrun2. unfold downloadSequence.
    unfold bind at 1. cbn [emit modify].
    unfold bind at 1. cbn [emit modify].
    unfold bind at 1. unfold lift at 1. rewrite Hd.
    unfold bind at 1. cbn [emit modify].
    unfold bind at 1. cbn [emit modify].
    unfold bind at 1. unfold lift at 1. rewrite Hv.
    unfold bind at 1. cbn [emit modify].
    unfold bind at 1. unfold lift at 1. rewrite Hc.
    unfold bind at 1. rewrite Hrun.
    destruct (outcome a); [discriminate|]. now intros [= <- _].
Qed.

Lemma undersized_file_rejected_witness :
  exists s',
    downloadSequence smallFileAttempt [] [] 0 initialState
      = Some (Throw timeoutError, s')
    /\ tempFile s' = None.
Proof.
  destruct (undersized_file_rejected smallFileAttempt [] [] 0 initialState
              eq_refl eq_refl eq_refl)
    as (s' & Hrun & _ & Ht & _).
  - intros i _. unfold undersized. cbn. lia.
  - exists s'. split; [exact Hrun | exact Ht].
Defined.

End ThresholdFacts.

(** ** The wait of [handleCaptcha] *)

Module CaptchaFacts.
Import JsString Dom Mp3Scraper PageExamples.

Lemma waitForCaptcha_spec (lower : jsstring -> jsstring)
    (loaded : LoadedPage) :
  forall remaining k : nat,
    match waitForCaptcha lower loaded remaining k with
    | Some m =>
        (k < m <= k + remaining)%nat
        /\ checkForCaptcha lower (loaded m) = false
        /\ forall j, (k < j < m)%nat -> checkForCaptcha lower (loaded j) = true
    | None =>
        forall j, (k < j <= k + remaining)%nat ->
                  checkForCaptcha lower (loaded j) = true
    end.
Proof.
  induction remaining as [|r IH]; intros k; cbn [waitForCaptcha].
  - intros j Hj. lia.
  - destruct (checkForCaptcha lower (loaded (S k))) eqn:E; cbn [negb].
    + specialize (IH (S k)).
      destruct (waitForCaptcha lower loaded r (S k)) as [m|].
      * destruct IH as (Hm & Hclear & Hbefore).
        split; [lia|]. split; [exact Hclear|].
        intros j Hj. destruct (Nat.eq_dec j (S k)) as [->|Hne];
          [exact E | apply Hbefore; lia].
      * intros j Hj. destruct (Nat.eq_dec j (S k)) as [->|Hne];
          [exact E | apply IH; lia].
    + split; [lia|]. split; [exact E|]. intros j Hj. lia.
Qed.

(** X8: [handleCaptcha] waits for 60 checks at most.  It answers true at
    the first of the checks 1..60 at which [checkForCaptcha] is false,
    and only with a visible browser; it answers false in headless mode
    without any check, or when the CAPTCHA is there at all 60 checks; it
    throws only when the title of the page cannot be read for the
    banner. *)
Theorem handleCaptcha_bounded_wait (cfg : Config.Settings)
    (lower : jsstring -> jsstring) (loaded : LoadedPage) :
  match handleCaptcha cfg lower loaded with
  | Normal (Some k) =>
      Config.headless cfg = false
      /\ (1 <= k <= 60)%nat
      /\ checkForCaptcha lower (loaded k) = false
      /\ forall j, (1 <= j < k)%nat -> checkForCaptcha lower (loaded j) = true
  | Normal None =>
      Config.headless cfg = true
      \/ forall j, (1 <= j <= 60)%nat ->
                   checkForCaptcha lower (loaded j) = true
  | Throw e => pageTitle (loaded 0%nat) = Throw e
  end.
Proof.
  unfold handleCaptcha.
  destruct (pageTitle (loaded 0%nat)) as [t|e]; [|reflexivity].
  destruct (Config.headless cfg); cbn [negb]; [now left|].
  pose proof (waitForCaptcha_spec lower loaded 60 0) as H.
  destruct (waitForCaptcha lower loaded 60 0) as [k|].
  - destruct H as (Hk & Hclear & Hbefore).
    split; [reflexivity|]. split; [lia|]. split; [exact Hclear|].
    intros j Hj. apply Hbefore. lia.
  - right. intros j Hj. apply H. lia.
Qed.

End CaptchaFacts.

(** ** What the traversal keeps, for any relation kept by its steps *)

Module TraversalFacts.
Import JsString Dom Eff Mp3Scraper Ledger Output ScraperFacts.

Lemma truthyAttr_Some (o : option jsstring) (d : jsstring) :
  truthyAttr o = Some d -> d <> [].
Proof. destruct o as [[|c s]|]; cbn; intros [= <-]; discriminate. Qed.

Section Generic.
Context (R : ScraperState -> ScraperState -> Prop).
Hypothesis R_refl : forall st, R st st.
Hypothesis R_trans : forall st1 st2 st3, R st1 st2 -> R st2 st3 -> R st1 st3.
Hypothesis R_sub : forall st st', R st st' -> visitedUrls st ⊆ visitedUrls st'.
Hypothesis R_visit :
  forall st url, url ∉ visitedUrls st -> R st (visited st url).
Hypothesis R_record :
  forall st url downloadLink md,
    url ∉ visitedUrls st -> downloadLink <> [] ->
    R st (recordedAt st url (mkMp3Data url downloadLink md [])).

Context (cfg : Config.Settings)
        (resolveUrl : jsstring -> completion jsstring)
        (lower : jsstring -> jsstring)
        (site : gmap jsstring LoadedPage).

Definition visitsR (st : ScraperState)
    (visit : VideoLink -> nat -> M ScraperState unit) : Prop :=
  forall link depth st1,
    visitedUrls st ⊆ visitedUrls st1 ->
    exists st', visit link depth st1 = Some (Normal tt, st') /\ R st1 st'.

Lemma forEach_keeps {A : Type} (body : A -> M ScraperState unit)
    (l : list A) :
  forall st,
    (forall x st1, visitedUrls st ⊆ visitedUrls st1 ->
       exists st', body x st1 = Some (Normal tt, st') /\ R st1 st') ->
    exists st', forEach l body st = Some (Normal tt, st') /\ R st st'.
Proof.
  induction l as [|x l IH]; intros st Hbody.
  - exists st. split; [reflexivity | apply R_refl].
  - cbn [forEach]. unfold bind at 1.
    destruct (Hbody x st) as (st1 & Hx & Hg1); [set_solver|].
    rewrite Hx.
    destruct (IH st1) as (st2 & Hl & Hg2).
    { intros y st' Hsub. apply Hbody. apply R_sub in Hg1. set_solver. }
    exists st2. split; [exact Hl | eapply R_trans; eassumption].
Qed.

Lemma checkNestedVideoLinks_keeps
    (visit : VideoLink -> nat -> M ScraperState unit)
    (p : Page) (currentVideoUrl : jsstring) (depth : nat)
    (st : ScraperState) :
  visitsR st visit ->
  exists st',
    checkNestedVideoLinks resolveUrl visit p currentVideoUrl depth st
      = Some (Normal tt, st')
    /\ R st st'.
Proof.
  intros Hvisit. unfold checkNestedVideoLinks, tryCatch.
  unfold bind at 1. cbn [get]. unfold bind at 1. unfold lift at 1.
  destruct (collectElements p Config.videoLinks) as [anchors|e].
  2:{ exists st. split; [reflexivity | apply R_refl]. }
  unfold bind at 1. unfold lift at 1.
  destruct (videoLinksOf resolveUrl _ anchors) as [links|e].
  2:{ exists st. split; [reflexivity | apply R_refl]. }
  destruct (forEach_keeps
              (fun nestedVideo => visit nestedVideo (depth + 1)%nat)
              links st) as (st' & Hrun & Hg).
  { intros x st1 Hsub. now apply Hvisit. }
  exists st'. now rewrite Hrun.
Qed.

Lemma extractVideoLinks_keeps
    (visit : VideoLink -> nat -> M ScraperState unit)
    (p : Page) (depth : nat) (st : ScraperState) :
  visitsR st visit ->
  exists st',
    extractVideoLinks resolveUrl visit p depth st = Some (Normal tt, st')
    /\ R st st'.
Proof.
  intros Hvisit. unfold extractVideoLinks, tryCatch.
  unfold bind at 1. unfold lift at 1.
  destruct (collectElements p Config.videoLinks) as [anchors|e].
  2:{ exists st. split; [reflexivity | apply R_refl]. }
  unfold bind at 1. unfold lift at 1.
  destruct (videoLinksOf resolveUrl _ anchors) as [links|e].
  2:{ exists st. split; [reflexivity | apply R_refl]. }
  destruct (forEach_keeps
              (fun videoLink => visit videoLink (depth + 1)%nat)
              links st) as (st' & Hrun & Hg).
  { intros x st1 Hsub. now apply Hvisit. }
  exists st'. now rewrite Hrun.
Qed.

Lemma unvisited_after (st st1 : ScraperState) (url : jsstring)
    (loaded : LoadedPage) (fuel : nat) :
  (unvisited site st < S fuel)%nat ->
  site !! url = Some loaded ->
  url ∉ visitedUrls st ->
  {[url]} ∪ visitedUrls st ⊆ visitedUrls st1 ->
  (unvisited site st1 < fuel)%nat.
Proof.
  intros Hfuel Hsite Hfresh Hsub.
  pose proof (unvisited_mono site (visited st url) st1 Hsub) as Hle.
  pose proof (unvisited_visit site st url loaded (scrapedData st)
                (navigations st ++ [url]) Hsite Hfresh) as Hlt.
  unfold visited in Hle. lia.
Qed.

Lemma extractMp3FromVideoPage_keeps :
  forall (fuel : nat) (videoLink : VideoLink) (depth : nat)
         (st : ScraperState),
    (unvisited site st < fuel)%nat ->
    exists st',
      extractMp3FromVideoPage resolveUrl site fuel videoLink depth st
        = Some (Normal tt, st')
      /\ R st st'.
Proof.
  induction fuel as [|fuel IH]; intros videoLink depth st Hfuel; [lia|].
  cbn [extractMp3FromVideoPage]. unfold bind at 1. cbn [get].
  destruct (bool_decide (linkUrl videoLink ∈ visitedUrls st)) eqn:Evis.
  { exists st. split; [reflexivity | apply R_refl]. }
  apply bool_decide_eq_false in Evis.
  unfold bind at 1. cbn [markVisited modify].
  unfold tryCatch. unfold bind at 1. unfold goto. unfold bind at 1.
  cbn [modify visitedUrls scrapedData navigations].
  fold (visited st (linkUrl videoLink)).
  pose proof (R_visit st _ Evis) as Hg2.
  destruct (site !! linkUrl videoLink) as [loaded|] eqn:Esite.
  2:{ exists (visited st (linkUrl videoLink)).
      split; [reflexivity | exact Hg2]. }
  cbn [ret].
  destruct (truthyAttr (findDownloadLink resolveUrl (loaded 0%nat)
                          Config.downloadLinks)) as [downloadLink|] eqn:Edl.
  - cbn [pushData modify visited visitedUrls scrapedData navigations].
    eexists. split; [reflexivity|].
    apply (R_record st (linkUrl videoLink) downloadLink
             (extractMetadata (loaded 0%nat)) Evis).
    now apply truthyAttr_Some in Edl.
  - destruct (checkNestedVideoLinks_keeps
                (extractMp3FromVideoPage resolveUrl site fuel)
                (loaded 0%nat) (linkUrl videoLink) depth
                (visited st (linkUrl videoLink)))
      as (st' & Hrun & Hg).
    { intros link d st1 Hsub. apply IH.
      eapply unvisited_after; eassumption. }
    rewrite Hrun. exists st'. split; [reflexivity|].
    eapply R_trans; eassumption.
Qed.

Lemma scrapeRecursively_keeps :
  forall (fuel : nat) (url : jsstring) (depth : nat) (st : ScraperState),
    (unvisited site st < fuel)%nat ->
    exists st',
      scrapeRecursively cfg resolveUrl lower site fuel url depth st
        = Some (Normal tt, st')
      /\ R st st'.
Proof.
  induction fuel as [|fuel IH]; intros url depth st Hfuel; [lia|].
  cbn [scrapeRecursively]. unfold bind at 1. cbn [get].
  destruct (bool_decide (url ∈ visitedUrls st)) eqn:Evis.
  { exists st. split; [reflexivity | apply R_refl]. }
  destruct (Config.maxDepth cfg <? depth)%nat.
  { exists st. split; [reflexivity | apply R_refl]. }
  cbn [orb]. apply bool_decide_eq_false in Evis.
  unfold bind at 1. cbn [markVisited modify].
  unfold tryCatch. unfold bind at 1. unfold goto. unfold bind at 1.
  cbn [modify visitedUrls scrapedData navigations].
  fold (visited st url).
  pose proof (R_visit st _ Evis) as Hg2.
  destruct (site !! url) as [loaded|] eqn:Esite.
  2:{ exists (visited st url). split; [reflexivity | exact Hg2]. }
  cbn [ret]. unfold bind at 1.
  assert (Hcleared : forall k : nat,
    exists r st',
      (viewAllButtons <-
         lift (collectElements (loaded k) Config.viewAllButtons) ;;
       match viewAllButtons with
       | _ :: _ =>
           viewAllUrls <- lift (resolveHrefs resolveUrl viewAllButtons) ;;
           forEach viewAllUrls
             (fun viewAllUrl =>
                scrapeRecursively cfg resolveUrl lower site fuel
                  viewAllUrl (depth + 1)%nat)
       | [] =>
           extractVideoLinks resolveUrl
             (extractMp3FromVideoPage resolveUrl site fuel)
             (loaded k) depth
       end)%eff (visited st url) = Some (r, st')
      /\ R st st').
  { intros k. unfold bind at 1. unfold lift at 1.
    destruct (collectElements (loaded k) Config.viewAllButtons)
      as [[|button buttons]|e].
    - destruct (extractVideoLinks_keeps
                  (extractMp3FromVideoPage resolveUrl site fuel)
                  (loaded k) depth (visited st url)) as (st' & Hrun & Hg).
      { intros link d st1 Hsub.
        apply extractMp3FromVideoPage_keeps.
        eapply unvisited_after; eassumption. }
      exists (Normal tt), st'. split; [exact Hrun|].
      eapply R_trans; eassumption.
    - unfold bind at 1. unfold lift at 1.
      destruct (resolveHrefs resolveUrl (button :: buttons))
        as [viewAllUrls|e].
      + destruct (forEach_keeps
                    (fun viewAllUrl =>
                       scrapeRecursively cfg resolveUrl lower site fuel
                         viewAllUrl (depth + 1)%nat)
                    viewAllUrls (visited st url)) as (st' & Hrun & Hg).
        { intros u st1 Hsub. apply IH.
          eapply unvisited_after; eassumption. }
        exists (Normal tt), st'. split; [exact Hrun|].
        eapply R_trans; eassumption.
      + exists (Throw e), (visited st url). split; [reflexivity | exact Hg2].
    - exists (Throw e), (visited st url). split; [reflexivity | exact Hg2]. }
  destruct (checkForCaptcha lower (loaded 0%nat)).
  - unfold lift at 1.
    destruct (handleCaptcha cfg lower loaded) as [[k|]|e].
    + destruct (Hcleared k) as (r & st' & Hrun & Hg).
      rewrite Hrun. exists st'.
      destruct r as [[]|e]; (split; [reflexivity | exact Hg]).
    + exists (visited st url). split; [reflexivity | exact Hg2].
    + exists (visited st url). split; [reflexivity | exact Hg2].
  - cbn [ret].
    destruct (Hcleared 0%nat) as (r & st' & Hrun & Hg).
    rewrite Hrun. exists st'.
    destruct r as [[]|e]; (split; [reflexivity | exact Hg]).
Qed.

End Generic.

(** *** The records are kept in order *)

Lemma keeps_refl (st : ScraperState) : keeps st st.
Proof.
  split; [set_solver|]. split; [|tauto]. exists []. now rewrite app_nil_r.
Qed.

Lemma keeps_trans (st1 st2 st3 : ScraperState) :
  keeps st1 st2 -> keeps st2 st3 -> keeps st1 st3.
Proof.
  intros (H1 & [m1 E1] & W1) (H2 & [m2 E2] & W2).
  split; [set_solver|]. split; [|tauto].
  exists (m1 ++ m2). now rewrite E2, E1, app_assoc.
Qed.

Lemma keeps_sub (st st' : ScraperState) :
  keeps st st' -> visitedUrls st ⊆ visitedUrls st'.
Proof. now intros [H _]. Qed.

Lemma wellVisited_visited (st : ScraperState) (url : jsstring)
    (data : list Mp3Data) :
  url ∉ visitedUrls st ->
  wellVisited st ->
  wellVisited (mkScraperState ({[url]} ∪ visitedUrls st) data
                 (navigations st ++ [url])).
Proof.
  intros Hfresh Hw.
  destruct (grows_visit st url Hfresh) as (_ & _ & H).
  exact (H Hw).
Qed.

Lemma keeps_visit (st : ScraperState) (url : jsstring) :
  url ∉ visitedUrls st -> keeps st (visited st url).
Proof.
  intros Hfresh. split; [cbn; set_solver|]. split.
  - exists []. cbn. now rewrite app_nil_r.
  - intros (Hw & Hnd & Hrec). split; [now apply wellVisited_visited|].
    split; [exact Hnd|]. cbn. intros d Hd.
    destruct (Hrec d Hd) as [Hin Hdl]. split; [|exact Hdl].
    apply in_or_app. now left.
Qed.

Lemma keeps_record (st : ScraperState) (url downloadLink : jsstring)
    (md : Metadata) :
  url ∉ visitedUrls st -> downloadLink <> [] ->
  keeps st (recordedAt st url (mkMp3Data url downloadLink md [])).
Proof.
  intros Hfresh Hdl. split; [cbn; set_solver|]. split.
  - now eexists.
  - intros (Hw & Hnd & Hrec). split; [now apply wellVisited_visited|].
    cbn [recordedAt scrapedData navigations]. split.
    + rewrite List.map_app. cbn [List.map videoUrl].
      apply NoDup_ListNoDup. apply NoDup_app.
      split; [now apply NoDup_ListNoDup|]. split; [|apply NoDup_singleton].
      intros u Hu Hu'. apply list_elem_of_singleton in Hu'. subst u.
      apply list_elem_of_In, in_map_iff in Hu as (d & Hd & Hin).
      destruct (Hrec d Hin) as [Hnav _]. rewrite Hd in Hnav.
      destruct Hw as [_ Hvis]. now apply Hfresh, Hvis.
    + intros d Hd. apply in_app_or in Hd as [Hd|[<-|[]]].
      * destruct (Hrec d Hd) as [Hin Hne]. split; [|exact Hne].
        apply in_or_app. now left.
      * cbn. split; [|exact Hdl]. apply in_or_app. right. now left.
Qed.

Lemma wellRecorded_initial : wellRecorded initialState.
Proof.
  split; [split; [constructor | intros u []]|].
  split; [constructor | intros d []].
Qed.

(** X9: the records that a run of the recursive strategy leaves in
    [scrapedData] have pairwise distinct video URLs, each of them a URL the
    run navigated to, and a download URL that is not empty. *)
Theorem scrapedData_distinct (cfg : Config.Settings)
    (resolveUrl : jsstring -> completion jsstring)
    (lower : jsstring -> jsstring) (site : gmap jsstring LoadedPage)
    (startUrl : jsstring) :
  exists st',
    scrapeRecursively cfg resolveUrl lower site (scrapeFuel site) startUrl 0
      initialState = Some (Normal tt, st')
    /\ List.NoDup (List.map videoUrl (scrapedData st'))
    /\ forall d, In d (scrapedData st') ->
                 In (videoUrl d) (navigations st') /\ downloadUrl d <> [].
Proof.
  destruct (scrapeRecursively_keeps keeps keeps_refl keeps_trans keeps_sub
              keeps_visit keeps_record cfg resolveUrl lower site
              (scrapeFuel site) startUrl 0%nat initialState)
    as (st' & Hrun & _ & _ & Hw).
  { rewrite unvisited_initial. unfold scrapeFuel. lia. }
  exists st'. split; [exact Hrun|].
  destruct (Hw wellRecorded_initial) as (_ & Hnd & Hrec). now split.
Qed.

End TraversalFacts.

(** ** The pagination strategy: what it collects and when it stops *)

Module PaginationFacts.
Import JsString Dom Eff Paginated Listings JsStringFacts PaginatedFacts.
Import SiteExamples ListingExamples.

Lemma includes_prefixed (sub pre s : jsstring) :
  includes sub s = true -> includes sub (pre ++ s) = true.
Proof.
  intros H. induction pre as [|c pre IH]; [exact H|].
  cbn [app includes]. rewrite IH. apply orb_true_r.
Qed.

Lemma absolute_collected (h : jsstring) :
  includes (js "/aid/") h = true -> collectedUrl (absolute h).
Proof.
  intros H. unfold collectedUrl, absolute.
  destruct (startsWith (js "http") h) eqn:E; [now split|].
  split; [reflexivity | now apply includes_prefixed].
Qed.

Lemma addLinks_collected (elements : list Element) :
  forall links, Forall collectedUrl links ->
                Forall collectedUrl (addLinks elements links).
Proof.
  induction elements as [|el elements IH]; intros links Hl; cbn [addLinks];
    [exact Hl|].
  destruct (truthyAttr (href el)) as [h|]; [|now apply IH].
  destruct (includes (js "/aid/") h) eqn:E; [|now apply IH].
  destruct (mem (absolute h) links); [now apply IH|].
  apply IH, Forall_app. split; [exact Hl|].
  constructor; [now apply absolute_collected | constructor].
Qed.

Lemma evaluateLinks_collected (p : Page) (selectors : list selector) :
  forall links videoLinks,
    Forall collectedUrl links ->
    evaluateLinks p selectors links = Normal videoLinks ->
    Forall collectedUrl videoLinks.
Proof.
  induction selectors as [|sel rest IH]; intros links videoLinks Hl;
    cbn [evaluateLinks].
  - now intros [= <-].
  - destruct (querySelectorAll p sel) as [elements|e]; [|discriminate].
    apply IH. now apply addLinks_collected.
Qed.

(** [scrapeCurrentPage] in full: the links of the page, or nothing when
    the evaluation throws; the page counts only in the first case. *)
Lemma scrapeCurrentPage_state (b : Browser) (s : PaginatedState) :
  exists s',
    scrapeCurrentPage b s = Some (Normal (linksOf b (clicks s)), s')
    /\ allVideoData s' = allVideoData s ++ linksOf b (clicks s)
    /\ clicks s' = clicks s
    /\ navigations s' = navigations s
    /\ processedPages s' =
         match linksAt b (clicks s) with
         | Normal _ => S (processedPages s)
         | Throw _ => processedPages s
         end.
Proof.
  unfold scrapeCurrentPage. unfold bind at 1. cbn [get].
  unfold tryCatch. unfold bind at 1. unfold lift at 1.
  unfold linksOf, linksAt.
  destruct (evaluateLinks (listingDom (listingAfter b (clicks s)))
              Config.videoLinks []) as [videoLinks|e].
  - eexists. split; [reflexivity|]. cbn. repeat split. lia.
  - exists s. split; [reflexivity|]. rewrite app_nil_r. now repeat split.
Qed.

(** X10: the links that [scrapeCurrentPage] returns and appends to
    [allVideoData] start with "http" and contain "/aid/", whatever the
    page holds; when the evaluation throws it returns none and the page is
    not counted. *)
Theorem scrapeCurrentPage_links (b : Browser) (s : PaginatedState) :
  exists videoLinks s',
    scrapeCurrentPage b s = Some (Normal videoLinks, s')
    /\ Forall collectedUrl videoLinks
    /\ allVideoData s' = allVideoData s ++ videoLinks
    /\ match linksAt b (clicks s) with
       | Normal links =>
           videoLinks = links /\ processedPages s' = S (processedPages s)
       | Throw _ =>
           videoLinks = [] /\ processedPages s' = processedPages s
       end.
Proof.
  destruct (scrapeCurrentPage_state b s) as (s' & Hrun & Ha & _ & _ & Hp).
  exists (linksOf b (clicks s)), s'.
  refine (conj Hrun (conj _ (conj Ha _))).
  - unfold linksOf, linksAt.
    destruct (evaluateLinks (listingDom (listingAfter b (clicks s)))
                Config.videoLinks []) as [links|e] eqn:E; [|constructor].
    eapply evaluateLinks_collected; [|exact E]. constructor.
  - unfold linksOf. destruct (linksAt b (clicks s)); now split.
Qed.

(** One round of the loop of [collectAllVideoUrls]. *)
Lemma collectLoop_round (fuel : nat) (b : Browser) (s s1 : PaginatedState)
    (links : list jsstring) :
  (processedPages s < maxPages)%nat ->
  scrapeCurrentPage b s = Some (Normal links, s1) ->
  collectLoop (S fuel) b s =
    if hasEnabledNextButton (listingAfter b (clicks s1))
    then if clicksNext (listingAfter b (clicks s1))
         then collectLoop fuel b
                (mkPaginatedState (allVideoData s1) (processedPages s1)
                   (totalFound s1) (clicks s1 + 1) (navigations s1))
         else Some (Normal tt, s1)
    else Some (Normal tt, s1).
Proof.
  intros Hp Hrun. cbn [collectLoop]. unfold bind at 1. cbn [get].
  apply Nat.ltb_lt in Hp. rewrite Hp.
  unfold bind at 1. rewrite Hrun. unfold bind at 1. cbn [get].
  destruct (hasEnabledNextButton (listingAfter b (clicks s1)));
    [|reflexivity].
  unfold bind at 1. unfold clickNextButton. unfold bind at 1. cbn [get].
  unfold clicksNext.
  destruct (existsb (fun img => negb (fst img) && snd img)
              (nextImages (listingAfter b (clicks s1)))
            || nextTextLinkClick (listingAfter b (clicks s1))); reflexivity.
Qed.

Lemma collectLoop_full (fuel : nat) (b : Browser) (s : PaginatedState) :
  (maxPages <= processedPages s)%nat ->
  collectLoop (S fuel) b s = Some (Normal tt, s).
Proof.
  intros Hp. cbn [collectLoop]. unfold bind at 1. cbn [get].
  apply Nat.ltb_ge in Hp. now rewrite Hp.
Qed.

(** Pagination up to a page without an enabled next button. *)
Lemma collectLoop_until (b : Browser) :
  forall (m fuel : nat) (s : PaginatedState),
    (m < fuel)%nat ->
    (processedPages s + m < maxPages)%nat ->
    (forall k, (clicks s <= k < clicks s + m)%nat ->
       hasEnabledNextButton (listingAfter b k) = true
       /\ clicksNext (listingAfter b k) = true) ->
    hasEnabledNextButton (listingAfter b (clicks s + m)) = false ->
    exists s',
      collectLoop fuel b s = Some (Normal tt, s')
      /\ processedPages s' =
           (processedPages s
            + length (List.filter (evaluates b) (seq (clicks s) (S m))))%nat
      /\ clicks s' = (clicks s + m)%nat
      /\ allVideoData s' =
           allVideoData s
           ++ List.concat (List.map (linksOf b) (seq (clicks s) (S m))).
Proof.
  induction m as [|m IH]; intros fuel s Hfuel Hp Hnext Hlast;
    (destruct fuel as [|fuel]; [lia|]);
    destruct (scrapeCurrentPage_state b s)
      as (s1 & Hrun & Ha & Hc & _ & Hpp);
    rewrite (collectLoop_round fuel b s s1 _ ltac:(lia) Hrun), Hc;
    assert (Hpp' : processedPages s1
                   = (processedPages s
                      + length (List.filter (evaluates b) [clicks s]))%nat)
      by (cbn [List.filter]; unfold evaluates;
          destruct (linksAt b (clicks s)); cbn [length]; lia).
  - rewrite Nat.add_0_r in Hlast. rewrite Hlast.
    exists s1. split; [reflexivity|]. split; [exact Hpp'|]. split; [lia|].
    rewrite Ha. cbn. now rewrite app_nil_r.
  - destruct (Hnext (clicks s) ltac:(lia)) as [-> ->].
    assert (Hle : (processedPages s1 <= S (processedPages s))%nat).
    { rewrite Hpp'. cbn [List.filter].
      destruct (evaluates b (clicks s)); cbn [length]; lia. }
    destruct (IH fuel
                (mkPaginatedState (allVideoData s1) (processedPages s1)
                   (totalFound s1) (clicks s + 1) (navigations s1)))
      as (s' & Hloop & Hp' & Hc' & Ha').
    + lia.
    + cbn. lia.
    + cbn. intros k Hk. apply Hnext. lia.
    + cbn. now replace (clicks s + 1 + m)%nat with (clicks s + S m)%nat by lia.
    + exists s'. cbn [processedPages clicks allVideoData] in Hp', Hc', Ha'.
      split; [exact Hloop|].
      replace (clicks s + 1)%nat with (S (clicks s)) in Hp', Ha' by lia.
      split; [|split; [lia|]].
      * rewrite Hp', Hpp'.
        change (seq (clicks s) (S (S m)))
          with (clicks s :: seq (S (clicks s)) (S m)).
        cbn [List.filter]. destruct (evaluates b (clicks s));
          cbn [length]; lia.
      * rewrite Ha', Ha, <- app_assoc.
        change (seq (clicks s) (S (S m)))
          with (clicks s :: seq (S (clicks s)) (S m)).
        reflexivity.
Qed.

(** X11: when the listing shown after [n] clicks is the first one without
    an enabled next button, [n] below 50, and on the listings before it
    the next button is enabled and can be clicked, the first phase visits
    exactly the listings 0..n: it clicks [n] times and collects the links
    of these listings in order.  It counts as processed those of them
    whose evaluation does not throw: all [n + 1] when none throws. *)
Theorem pagination_stops_at_last_page (b : Browser) (n fuel : nat) :
  (n < maxPages)%nat ->
  (n < fuel)%nat ->
  (forall k, (k < n)%nat ->
     hasEnabledNextButton (listingAfter b k) = true
     /\ clicksNext (listingAfter b k) = true) ->
  hasEnabledNextButton (listingAfter b n) = false ->
  exists s',
    collectLoop fuel b initialState = Some (Normal tt, s')
    /\ clicks s' = n
    /\ allVideoData s' = List.concat (List.map (linksOf b) (seq 0 (S n)))
    /\ processedPages s'
       = length (List.filter (evaluates b) (seq 0 (S n)))
    /\ ((forall k, (k <= n)%nat -> scrapes b k) ->
        processedPages s' = S n).
Proof.
  intros Hn Hfuel Hnext Hlast.
  destruct (collectLoop_until b n fuel initialState Hfuel)
    as (s' & Hrun & Hp & Hc & Ha).
  - cbn. lia.
  - cbn. intros k Hk. apply Hnext. lia.
  - exact Hlast.
  - exists s'. cbn [initialState processedPages clicks allVideoData] in Hp, Hc, Ha.
    cbn [Nat.add app] in Hp, Hc, Ha.
    refine (conj Hrun (conj Hc (conj Ha (conj Hp _)))).
    intros Hscr. rewrite Hp.
    transitivity (length (seq 0 (S n))); [|apply length_seq]. f_equal.
    apply List.forallb_filter_id. apply forallb_forall.
    intros k Hk. apply in_seq in Hk. unfold evaluates.
    destruct (Hscr k ltac:(lia)) as (links & ->). reflexivity.
Qed.

Lemma pagination_stops_at_last_page_witness :
  exists s',
    collectLoop 51 fivePages initialState = Some (Normal tt, s')
    /\ processedPages s' = 5%nat /\ clicks s' = 4%nat.
Proof.
  destruct (pagination_stops_at_last_page fivePages 4 51)
    as (s' & Hrun & Hc & _ & Hp & _).
  - unfold maxPages. lia.
  - lia.
  - intros k Hk. cbn.
    destruct k as [|[|[|[|k]]]]; [split; reflexivity ..| lia].
  - reflexivity.
  - now exists s'.
Defined.

(** The loop ends within the page limit when no evaluation throws. *)
Lemma collectLoop_bounded (b : Browser) :
  (forall k, scrapes b k) ->
  forall (fuel : nat) (s : PaginatedState),
    (maxPages - processedPages s < fuel)%nat ->
    exists s',
      collectLoop fuel b s = Some (Normal tt, s')
      /\ (processedPages s' <= Nat.max (processedPages s) maxPages)%nat
      /\ (processedPages s <= processedPages s')%nat
      /\ (clicks s' - clicks s <= processedPages s' - processedPages s)%nat.
Proof.
  intros Hscr. induction fuel as [|fuel IH]; intros s Hfuel; [lia|].
  destruct (Nat.lt_ge_cases (processedPages s) maxPages) as [Hlt|Hge].
  - destruct (scrapeCurrentPage_state b s)
      as (s1 & Hrun & _ & Hc & _ & Hpp).
    destruct (Hscr (clicks s)) as (links & Hlinks). rewrite Hlinks in Hpp.
    rewrite (collectLoop_round fuel b s s1 _ Hlt Hrun).
    destruct (hasEnabledNextButton (listingAfter b (clicks s1)));
      [|exists s1; split; [reflexivity | lia]].
    destruct (clicksNext (listingAfter b (clicks s1)));
      [|exists s1; split; [reflexivity | lia]].
    destruct (IH (mkPaginatedState (allVideoData s1) (processedPages s1)
                    (totalFound s1) (clicks s1 + 1) (navigations s1)))
      as (s' & Hloop & Hp1 & Hp2 & Hc').
    + cbn [processedPages]. unfold maxPages in *. lia.
    + exists s'. cbn [processedPages clicks] in Hp1, Hp2, Hc'.
      split; [exact Hloop | lia].
  - exists s. rewrite (collectLoop_full fuel b s Hge). split; [reflexivity | lia].
Qed.

(** X12: when no evaluation throws, the first phase ends after 50 pages at
    most, however long the next buttons keep working: from the initial
    state, with fuel 51, it scrapes between 1 and 50 pages and clicks at
    most as often as it scrapes (as often, when the limit stops it after
    a click). *)
Theorem pagination_page_limit (b : Browser) :
  (forall k, scrapes b k) ->
  exists s',
    collectLoop 51 b initialState = Some (Normal tt, s')
    /\ (1 <= processedPages s' <= 50)%nat
    /\ (clicks s' <= processedPages s')%nat.
Proof.
  intros Hscr.
  destruct (scrapeCurrentPage_state b initialState)
    as (s1 & Hrun & _ & Hc & _ & Hpp).
  destruct (Hscr 0%nat) as (links & Hlinks).
  cbn [initialState clicks processedPages] in Hc, Hpp.
  rewrite Hlinks in Hpp.
  rewrite (collectLoop_round 50 b initialState s1 _
             ltac:(cbn; unfold maxPages; lia) Hrun).
  destruct (hasEnabledNextButton (listingAfter b (clicks s1)));
    [|exists s1; split; [reflexivity | lia]].
  destruct (clicksNext (listingAfter b (clicks s1)));
    [|exists s1; split; [reflexivity | lia]].
  destruct (collectLoop_bounded b Hscr 50
              (mkPaginatedState (allVideoData s1) (processedPages s1)
                 (totalFound s1) (clicks s1 + 1) (navigations s1)))
    as (s' & Hloop & Hp1 & Hp2 & Hc').
  - cbn [processedPages]. unfold maxPages. lia.
  - exists s'. cbn [processedPages clicks] in Hp1, Hp2, Hc'.
    unfold maxPages in Hp1. split; [exact Hloop | lia].
Qed.

Lemma pagination_page_limit_witness :
  exists s',
    collectLoop 51 endless initialState = Some (Normal tt, s')
    /\ (processedPages s' <= 50)%nat.
Proof.
  destruct (pagination_page_limit endless) as (s' & Hrun & Hp & _).
  - intros k. unfold scrapes, linksAt. cbn. eexists; reflexivity.
  - exists s'. split; [exact Hrun | lia].
Defined.

(** *** The records of the second phase *)

Lemma absolute_http (h : jsstring) :
  startsWith (js "http") (absolute h) = true.
Proof.
  unfold absolute. destruct (startsWith (js "http") h) eqn:E;
    [exact E | reflexivity].
Qed.

Lemma findDownloadLink_http (p : Page) (selectors : list selector)
    (u : jsstring) :
  findDownloadLink p selectors = Some u ->
  startsWith (js "http") u = true.
Proof.
  induction selectors as [|sel rest IH]; cbn [findDownloadLink];
    [discriminate|].
  destruct (querySelector p sel) as [[el|]|]; try exact IH.
  destruct (truthyAttr (href el)) as [h|]; [|exact IH].
  intros [= <-]. apply absolute_http.
Qed.

Lemma truthyAttr_eq (o : option jsstring) (d : jsstring) :
  truthyAttr o = Some d -> o = Some d.
Proof. destruct o as [[|c r]|]; cbn; intros [= <-]; reflexivity. Qed.

Lemma extractLoop_data (b : Browser) (videos : list jsstring) :
  forall extractedData s,
  exists more s',
    extractLoop b videos extractedData s
      = Some (Normal (extractedData ++ more), s')
    /\ navigations s' = navigations s ++ videos
    /\ List.map videoUrl more = List.filter (yieldsRecord b) videos
    /\ Forall (extractedFrom b videos) more.
Proof.
  induction videos as [|url rest IH]; intros extractedData s.
  - exists [], s. rewrite !app_nil_r. now repeat split.
  - cbn [extractLoop]. unfold bind at 1.
    unfold extractMp3FromVideoPage, tryCatch.
    unfold bind at 1. cbn [modify]. unfold bind at 1. unfold lift at 1.
    set (s1 := mkPaginatedState (allVideoData s) (processedPages s)
                 (totalFound s) (clicks s) (navigations s ++ [url])).
    assert (Hweaken : forall more,
              Forall (extractedFrom b rest) more ->
              Forall (extractedFrom b (url :: rest)) more).
    { apply List.Forall_impl. intros d (Hin & Hhttp & Hpage).
      split; [now right | now split]. }
    assert (Hskip : yieldsRecord b url = false ->
              exists more s',
                extractLoop b rest extractedData s1
                  = Some (Normal (extractedData ++ more), s')
                /\ navigations s' = navigations s ++ url :: rest
                /\ List.map videoUrl more
                   = List.filter (yieldsRecord b) (url :: rest)
                /\ Forall (extractedFrom b (url :: rest)) more).
    { intros Hno.
      destruct (IH extractedData s1) as (more & s' & Hrun & Hnav & Hurls & Hall).
      exists more, s'. split; [exact Hrun|].
      split; [rewrite Hnav; cbn [navigations s1];
              now rewrite <- app_assoc|].
      split; [cbn [List.filter]; now rewrite Hno|].
      now apply Hweaken. }
    unfold yieldsRecord, downloadLinkAt in Hskip.
    destruct (videoPage b url) as [p|e] eqn:Epage;
      [|exact (Hskip eq_refl)].
    destruct (truthyAttr (findDownloadLink p Config.downloadLinks))
      as [downloadLink|] eqn:Edl; cbn [ret]; [|exact (Hskip eq_refl)].
    destruct (IH (extractedData
                  ++ [mkMp3Data url downloadLink (extractMetadata p) []])
                s1) as (more & s' & Hrun & Hnav & Hurls & Hall).
    exists (mkMp3Data url downloadLink (extractMetadata p) [] :: more), s'.
    split; [rewrite Hrun, <- app_assoc; reflexivity|].
    split; [rewrite Hnav; cbn [navigations s1]; now rewrite <- app_assoc|].
    split.
    { cbn [List.map List.filter videoUrl].
      unfold yieldsRecord at 1, downloadLinkAt. rewrite Epage, Edl.
      now rewrite Hurls. }
    constructor; [|now apply Hweaken].
    split; [now left|]. split; [|split].
    + apply truthyAttr_eq in Edl. now apply findDownloadLink_http in Edl.
    + unfold downloadLinkAt. cbn [videoUrl downloadUrl].
      now rewrite Epage.
    + now exists p.
Qed.

(** X13: the second phase always ends normally and goes through the
    whole list: it navigates to every collected URL, in the order of
    collection, whatever fails on the way.  The records it returns are, in
    that order, those of exactly the URLs whose page loads and shows a
    download link; a URL whose page fails to load or shows no link leaves
    no record.  Each record has its collected URL as video URL, the link
    found on that page (made absolute, so starting with "http") as
    download URL, and the metadata extracted from that page. *)
Theorem extractMetadataFromAllVideos_records (b : Browser)
    (s : PaginatedState) :
  exists data s',
    extractMetadataFromAllVideos b s = Some (Normal data, s')
    /\ navigations s' = navigations s ++ allVideoData s
    /\ List.map videoUrl data
       = List.filter (yieldsRecord b) (allVideoData s)
    /\ Forall (extractedFrom b (allVideoData s)) data.
Proof.
  unfold extractMetadataFromAllVideos. unfold bind at 1. cbn [get].
  destruct (extractLoop_data b (allVideoData s) [] s)
    as (more & s' & Hrun & Hnav & Hurls & Hall).
  exists more, s'. now rewrite Hrun.
Qed.

End PaginationFacts.

(** ** Trimmed text: header values and metadata fields *)

Module TextFacts.
Import JsString Uploader Dom Text JsStringFacts PageFacts PageExamples.

Lemma dropWhile_head (p : N -> bool) (s r : jsstring) (c : N) :
  dropWhile p s = c :: r -> p c = false.
Proof.
  induction s as [|a s IH]; cbn [dropWhile]; [discriminate|].
  destruct (p a) eqn:E; [exact IH|]. now intros [= <- _].
Qed.

Lemma dropWhile_suffix (p : N -> bool) (s : jsstring) :
  exists pre, s = pre ++ dropWhile p s.
Proof.
  induction s as [|a s [pre IH]]; cbn [dropWhile]; [now exists []|].
  destruct (p a); [|now exists []].
  exists (a :: pre). cbn. now rewrite <- IH.
Qed.

(** [trim s] is a prefix of [s] without its leading white space. *)
Lemma trim_prefix (s : jsstring) :
  exists rest, dropWhile isWhiteSpace s = trim s ++ rest.
Proof.
  unfold trim.
  destruct (dropWhile_suffix isWhiteSpace (rev (dropWhile isWhiteSpace s)))
    as [pre E].
  exists (rev pre). apply (f_equal (@rev N)) in E.
  now rewrite rev_involutive, rev_app_distr in E.
Qed.

Lemma trim_first (s r : jsstring) (c : N) :
  trim s = c :: r -> isWhiteSpace c = false.
Proof.
  intros E. destruct (trim_prefix s) as [rest H]. rewrite E in H.
  cbn in H. exact (dropWhile_head _ _ _ _ H).
Qed.

Lemma trim_last (s init : jsstring) (c : N) :
  trim s = init ++ [c] -> isWhiteSpace c = false.
Proof.
  unfold trim. intros E. apply (f_equal (@rev N)) in E.
  rewrite rev_involutive, rev_app_distr in E. cbn in E.
  exact (dropWhile_head _ _ _ _ E).
Qed.

Lemma trim_trimmed (s : jsstring) :
  trim s <> [] -> trimmedNonEmpty (trim s).
Proof.
  intros Hne. destruct (trim s) as [|c r] eqn:E; [congruence|].
  exists c, r. split; [reflexivity|]. split; [exact (trim_first _ _ _ E)|].
  destruct (exists_last (l := c :: r)) as (init & z & Hz); [discriminate|].
  rewrite Hz, last_last. rewrite Hz in E. exact (trim_last _ _ _ E).
Qed.

Lemma length_filter_le (p : N -> bool) (s : jsstring) :
  (length (List.filter p s) <= length s)%nat.
Proof.
  induction s as [|c s IH]; cbn; [lia|]. destruct (p c); cbn; lia.
Qed.

Lemma length_dropWhile_le (p : N -> bool) (s : jsstring) :
  (length (dropWhile p s) <= length s)%nat.
Proof.
  induction s as [|c s IH]; cbn; [lia|]. destruct (p c); cbn; lia.
Qed.

Lemma length_trim_le (s : jsstring) : (length (trim s) <= length s)%nat.
Proof.
  unfold trim. rewrite length_rev.
  etransitivity; [apply length_dropWhile_le|]. rewrite length_rev.
  apply length_dropWhile_le.
Qed.

(** X14: the result of [sanitizeMetadataValue] never begins with white
    space; when the value has at most 1024 code units the result is the
    trimmed text itself and does not end with white space either (a longer
    value is cut after the trimming, and the cut may end on a space). *)
Theorem sanitizeMetadataValue_trimmed (value : option jsstring) :
  (forall c rest, sanitizeMetadataValue value = c :: rest ->
                  isWhiteSpace c = false)
  /\ (forall s init c,
        value = Some s -> (length s <= 1024)%nat ->
        sanitizeMetadataValue value = init ++ [c] ->
        isWhiteSpace c = false).
Proof.
  destruct value as [[|a s]|].
  1, 3: split; [intros c rest H; discriminate H
               | intros s0 init c _ _ H; now destruct init].
  change (sanitizeMetadataValue (Some (a :: s))) with
    (substring0 1024
       (trim (dropClass isControl (keepClass isPrintableAscii (a :: s))))).
  set (t := dropClass isControl (keepClass isPrintableAscii (a :: s))).
  split.
  - intros c rest H. unfold substring0 in H.
    destruct (trim t) as [|c' r'] eqn:E; [discriminate H|].
    cbn in H. injection H as <- _. exact (trim_first _ _ _ E).
  - intros s0 init c [= <-] Hlen H.
    assert (Hshort : (length (trim t) <= 1024)%nat).
    { etransitivity; [apply length_trim_le|]. unfold t, dropClass, keepClass.
      etransitivity; [apply length_filter_le|].
      etransitivity; [apply length_filter_le|]. exact Hlen. }
    unfold substring0 in H. rewrite firstn_all2 in H by exact Hshort.
    exact (trim_last _ _ _ H).
Qed.

(** A value that is cut on a space. *)
Lemma sanitizeMetadataValue_cut_on_space :
  List.last
    (sanitizeMetadataValue (Some (repeat 97 1023 ++ 32 :: repeat 97 5))) 0
  = 32.
Proof. vm_compute. reflexivity. Qed.

(** X15: a title or a synopsis that either scraper stores, and an author
    or a podcast that paginated_scraper.js stores, is not empty and has no
    white space at either end. *)
Theorem stored_fields_trimmed (p : Page) (t : jsstring) :
  title (Mp3Scraper.extractMetadata p) = Some t
  \/ synopsis (Mp3Scraper.extractMetadata p) = Some t
  \/ title (Paginated.extractMetadata p) = Some t
  \/ author (Paginated.extractMetadata p) = Some t
  \/ podcast (Paginated.extractMetadata p) = Some t
  \/ synopsis (Paginated.extractMetadata p) = Some t ->
  trimmedNonEmpty t.
Proof.
  assert (Hfield : forall selectors,
            Extract.firstOf (Extract.nonEmptyText p) selectors = Some t ->
            trimmedNonEmpty t).
  { intros selectors H. apply firstOf_Some in H.
    destruct H as (_ & sel & _ & _ & _ & H).
    apply nonEmptyText_Some in H as (Hne & el & text & _ & _ & ->).
    now apply trim_trimmed. }
  unfold Mp3Scraper.extractMetadata, Paginated.extractMetadata.
  cbn [title author podcast synopsis].
  intros [H|[H|[H|[H|[H|H]]]]]; exact (Hfield _ H).
Qed.

Lemma stored_fields_trimmed_witness :
  trimmedNonEmpty (js "Yehoshua B. Gordon").
Proof.
  apply (stored_fields_trimmed bylinePage (js "Yehoshua B. Gordon")).
  right. right. right. left. reflexivity.
Defined.

End TextFacts.

(** ** The login never reports "not logged in" *)

Module LoginFacts.
Import JsString Eff Login LoginFlow LoginExamples.

Lemma checkLoginStatus_true (lower : jsstring -> jsstring) (w : Probe) :
  checkLoginStatus lower w = true.
Proof. reflexivity. Qed.

(** [attemptLogin] never throws; it leaves [isLoggedIn] true exactly when
    it answers true, and does not ask the operator. *)
Lemma attemptLogin_run (lower : jsstring -> jsstring) (w : LoginWorld) :
  exists answer : bool,
    attemptLogin lower w loggedOut
      = Some (Normal answer, mkLoginState answer false).
Proof.
  unfold attemptLogin.
  destruct (bool_decide (email w = js "YOUR_EMAIL_HERE")
            || bool_decide (password w = js "YOUR_PASSWORD_HERE"));
    [now exists false|].
  unfold tryCatch. unfold bind at 1. unfold lift at 1.
  destruct (waitLoginLink w) as [[]|e]; [|now exists false].
  unfold bind at 1. unfold lift at 1.
  destruct (loginClicked w) as [[|]|e]; [|now exists false ..].
  cbn [negb]. unfold bind at 1. unfold lift at 1.
  destruct (waitLoginForm w) as [[]|e]; [|now exists false].
  unfold bind at 1. unfold lift at 1.
  destruct (typeEmail w) as [[]|e]; [|now exists false].
  unfold bind at 1. unfold lift at 1.
  destruct (typePassword w) as [[]|e]; [|now exists false].
  unfold bind at 1. unfold lift at 1.
  destruct (submit w) as [[]|e]; [|now exists false].
  rewrite checkLoginStatus_true. now exists true.
Qed.

(** X16: [initializeAndLogin] never throws "Login required but not
    completed".  It throws only the error of the browser connection, of
    the navigation to the home page, or of the wait for the operator; when
    it returns, [isLoggedIn] is true, whatever the login form and the page
    contents were; and the operator is asked exactly when the automatic
    login did not answer true. *)
Theorem initializeAndLogin_optimistic (lower : jsstring -> jsstring)
    (w : LoginWorld) :
  exists r s',
    initializeAndLogin lower w loggedOut = Some (r, s')
    /\ match r with
       | Normal _ => isLoggedIn s' = true
       | Throw e =>
           connect w = Throw e
           \/ gotoHome w = Throw e
           \/ (manualAsked s' = true /\ userInput w = Throw e)
       end
    /\ (forall u, connect w = Normal u -> forall u', gotoHome w = Normal u' ->
          exists answer,
            attemptLogin lower w loggedOut
              = Some (Normal answer, mkLoginState answer false)
            /\ manualAsked s' = negb answer).
Proof.
  unfold initializeAndLogin, tryCatch.
  unfold bind at 1. unfold lift at 1.
  destruct (connect w) as [[]|e].
  2:{ exists (Throw e), loggedOut. split; [reflexivity|].
      split; [now left | discriminate]. }
  unfold bind at 1. unfold lift at 1.
  destruct (gotoHome w) as [[]|e].
  2:{ exists (Throw e), loggedOut. split; [reflexivity|].
      split; [now right; left | intros _ _ u' H; discriminate H]. }
  unfold bind at 1.
  destruct (attemptLogin_run lower w) as [answer Hans]. rewrite Hans.
  unfold bind at 1. cbn [get isLoggedIn].
  destruct answer; cbn [negb].
  - exists (Normal tt), (mkLoginState true false).
    split; [reflexivity|]. split; [reflexivity|].
    intros _ _ _ _. now exists true.
  - unfold bind at 1. unfold handleManualLogin.
    unfold bind at 1. cbn [modify isLoggedIn].
    unfold bind at 1. unfold lift at 1.
    destruct (userInput w) as [[]|e].
    + rewrite checkLoginStatus_true.
      exists (Normal tt), (mkLoginState true true).
      split; [reflexivity|]. split; [reflexivity|].
      intros _ _ _ _. now exists false.
    + exists (Throw e), (mkLoginState false true).
      split; [reflexivity|]. split; [now right; right|].
      intros _ _ _ _. now exists false.
Qed.

(** The form is missing and the page asks to log in: the operator is
    asked, and the login is taken as done. *)
Lemma initializeAndLogin_formMissing :
  initializeAndLogin toLowerCase formMissing loggedOut
  = Some (Normal tt, mkLoginState true true).
Proof. reflexivity. Qed.

End LoginFacts.

(** ** The chunks partition the scraped entries *)

Module SplitFacts.
Import JsString KeyShape KeyFacts Splitter SplitExamples.
Local Open Scope nat_scope.

Lemma ceilDiv_50 (n : nat) :
  ceilDiv n CHUNK_SIZE * 50 < n + 50 /\ n <= ceilDiv n CHUNK_SIZE * 50.
Proof.
  unfold ceilDiv, CHUNK_SIZE. cbn [Nat.sub].
  pose proof (Nat.div_mod_eq (n + 49) 50) as E.
  pose proof (Nat.mod_upper_bound (n + 49) 50 ltac:(lia)) as U.
  lia.
Qed.

Lemma below_count (n i : nat) :
  i < ceilDiv n CHUNK_SIZE -> i * 50 < n.
Proof. pose proof (ceilDiv_50 n). lia. Qed.

Lemma firstn_firstn_skipn {A : Type} (a b : nat) (l : list A) :
  (firstn a l ++ firstn b (skipn a l))%list = firstn (a + b) l.
Proof.
  revert l. induction a as [|a IH]; intros l; [reflexivity|].
  destruct l as [|x l]; cbn; [now destruct b | now rewrite IH].
Qed.

Lemma slice_length {A : Type} (l : list A) (i : nat) :
  length (slice l (i * CHUNK_SIZE)
            (Nat.min (i * CHUNK_SIZE + CHUNK_SIZE) (length l)))
  = Nat.min 50 (length l - i * 50).
Proof.
  unfold slice, CHUNK_SIZE.
  rewrite List.length_firstn, List.length_skipn. lia.
Qed.

Lemma slices_join {A : Type} (l : list A) (t : nat) :
  concat (map (fun i => slice l (i * CHUNK_SIZE)
                          (Nat.min (i * CHUNK_SIZE + CHUNK_SIZE) (length l)))
              (seq 0 t))
  = firstn (t * CHUNK_SIZE) l.
Proof.
  induction t as [|t IH]; [reflexivity|].
  rewrite seq_S, map_app, concat_app, IH. cbn [map concat Nat.add].
  rewrite app_nil_r. unfold slice. rewrite firstn_firstn_skipn.
  unfold CHUNK_SIZE.
  destruct (Nat.le_gt_cases (t * 50 + 50) (length l)) as [Hle|Hgt].
  - f_equal. lia.
  - rewrite !firstn_all2 by lia. reflexivity.
Qed.

Lemma files_length {A : Type} (o : Original A) :
  length (files (splitMp3Data o)) = chunkCount o.
Proof.
  unfold splitMp3Data. cbn [files]. now rewrite length_map, length_seq.
Qed.

Lemma chunks_eq {A : Type} (o : Original A) :
  chunks o = map (chunkAt o (chunkCount o)) (seq 0 (chunkCount o)).
Proof.
  unfold chunks, splitMp3Data. cbn [files]. now rewrite map_map.
Qed.

Lemma chunks_nth {A : Type} (o : Original A) (i : nat) (c : Chunk A) :
  nth_error (chunks o) i = Some c ->
  i < chunkCount o /\ c = chunkAt o (chunkCount o) i.
Proof.
  rewrite chunks_eq. intros H.
  assert (Hi : i < chunkCount o).
  { assert (N : nth_error (map (chunkAt o (chunkCount o))
                               (seq 0 (chunkCount o))) i <> None)
      by (rewrite H; discriminate).
    apply List.nth_error_Some in N.
    now rewrite length_map, length_seq in N. }
  split; [exact Hi|].
  rewrite nth_error_map, nth_error_seq in H.
  destruct (Nat.ltb_spec i (chunkCount o)) as [_|]; [|lia].
  cbn in H. now injection H as <-.
Qed.

(** X17: the chunks are a partition of the entries in their order: joined
    they give back [data]; there are ceil(n/50) of them; every chunk has
    between 1 and 50 entries, and every chunk but the last has 50; chunk
    number i+1 starts at index 50*i and ends at the index of its last
    entry. *)
Theorem splitMp3Data_partition {A : Type} (o : Original A) :
  concat (map chunkData (chunks o)) = data o
  /\ length (chunks o) = ceilDiv (length (data o)) 50
  /\ forall i c, nth_error (chunks o) i = Some c ->
       chunkNumber c = i + 1
       /\ totalChunks c = length (chunks o)
       /\ chunkSize c = length (chunkData c)
       /\ 1 <= chunkSize c <= 50
       /\ (i + 1 < length (chunks o) -> chunkSize c = 50)
       /\ startIndex c = 50 * i
       /\ endIndex c = (Z.of_nat (startIndex c + chunkSize c) - 1)%Z
       /\ chunkData c = firstn (chunkSize c) (skipn (startIndex c) (data o)).
Proof.
  assert (Hlen : length (chunks o) = chunkCount o).
  { unfold chunks. now rewrite length_map, files_length. }
  split; [|split; [exact Hlen|]].
  - rewrite chunks_eq, map_map. cbn [chunkData chunkAt].
    rewrite slices_join. apply firstn_all2.
    pose proof (ceilDiv_50 (length (data o))). unfold chunkCount, CHUNK_SIZE in *.
    lia.
  - intros i c H. apply chunks_nth in H as [Hi ->]. rewrite Hlen.
    pose proof (below_count _ _ Hi) as Hlt.
    pose proof (slice_length (data o) i) as Hs.
    cbn [chunkNumber totalChunks chunkSize chunkData startIndex endIndex
         chunkAt].
    rewrite Hs.
    refine (conj eq_refl (conj eq_refl (conj eq_refl (conj _ (conj _
              (conj _ (conj _ _))))))).
    + lia.
    + intros Hnext. pose proof (below_count _ _ Hnext). lia.
    + unfold CHUNK_SIZE. lia.
    + unfold CHUNK_SIZE. lia.
    + unfold slice, CHUNK_SIZE. f_equal. lia.
Qed.

Lemma chunkFileName_inj (i j : nat) :
  chunkFileName i = chunkFileName j -> i = j.
Proof.
  unfold chunkFileName. intros H.
  apply app_inv_head, app_inv_tail in H.
  apply (f_equal decimalValue) in H.
  rewrite !decimalValue_padded in H. lia.
Qed.

Lemma NoDup_map_injective {X Y : Type} (f : X -> Y) (l : list X) :
  (forall x y, f x = f y -> x = y) ->
  List.NoDup l -> List.NoDup (map f l).
Proof.
  intros Hf H. induction H as [|x l Hx H IH]; cbn; constructor; [|exact IH].
  intros Hin. apply in_map_iff in Hin as (y & E & Hy).
  apply Hf in E. now subst y.
Qed.

(** X18: no chunk file is written twice: the names of the files that
    [splitMp3Data] writes are pairwise distinct, also beyond 99 chunks,
    where the number no longer fits the two digits of the padding. *)
Theorem chunk_files_distinct {A : Type} (o : Original A) :
  List.NoDup (map fst (files (splitMp3Data o))).
Proof.
  unfold splitMp3Data. cbn [files]. rewrite map_map. cbn [fst].
  apply NoDup_map_injective; [|apply List.seq_NoDup].
  intros i j. apply chunkFileName_inj.
Qed.

Lemma index_nth {A : Type} (o : Original A) (i : nat) (e : IndexEntry) :
  nth_error (indexEntries (splitMp3Data o)) i = Some e ->
  i < chunkCount o /\ e = indexEntry o (chunkFileName i) i.
Proof.
  unfold splitMp3Data. cbn [indexEntries].
  rewrite !map_map. cbn [fst]. rewrite !length_map, length_seq.
  intros H.
  assert (Hi : i < chunkCount o).
  { match type of H with
    | nth_error ?l _ = _ =>
        assert (N : nth_error l i <> None) by (rewrite H; discriminate)
    end.
    apply List.nth_error_Some in N.
    rewrite length_map, length_combine, length_map, !length_seq in N. lia. }
  split; [exact Hi|].
  rewrite nth_error_map in H.
  destruct (nth_error (combine _ _) i) as [[k name]|] eqn:E; [|discriminate].
  cbn in H. injection H as <-.
  pose proof (nth_error_nth _ _ (0, []) E) as N.
  rewrite combine_nth in N by now rewrite length_map, !length_seq.
  injection N as <- <-.
  rewrite seq_nth by exact Hi.
  rewrite (nth_indep _ _ (chunkFileName 0))
    by now rewrite length_map, length_seq.
  rewrite map_nth, seq_nth by exact Hi. reflexivity.
Qed.

(** X19: when the file declares as many entries as it holds, the index
    file describes the chunks: the entry i and the chunk i have the same
    number, start, end and count, and the entry names the file in which
    that chunk was written. *)
Theorem index_describes_chunks {A : Type} (o : Original A) :
  scrapedCount o = Z.of_nat (length (data o)) ->
  length (indexEntries (splitMp3Data o)) = length (chunks o)
  /\ forall i e, nth_error (indexEntries (splitMp3Data o)) i = Some e ->
       exists c, nth_error (files (splitMp3Data o)) i = Some (fileName e, c)
                 /\ agree e c.
Proof.
  intros Hcount. split.
  - unfold chunks, splitMp3Data. cbn [indexEntries files].
    now rewrite !length_map, length_combine, !length_map, !length_seq,
      Nat.min_id.
  - intros i e H. apply index_nth in H as [Hi ->].
    exists (chunkAt o (chunkCount o) i). split.
    + cbn [files splitMp3Data fileName indexEntry].
      rewrite nth_error_map, nth_error_seq.
      destruct (Nat.ltb_spec i (chunkCount o)) as [_|]; [|lia].
      reflexivity.
    + pose proof (below_count _ _ Hi) as Hlt.
      pose proof (slice_length (data o) i) as Hs.
      unfold agree.
      cbn [entryNumber entryStart entryEnd entryCount indexEntry
           chunkNumber startIndex endIndex chunkSize chunkAt].
      rewrite Hs, Hcount. unfold CHUNK_SIZE.
      refine (conj eq_refl (conj eq_refl (conj _ _))); lia.
Qed.

Lemma index_describes_chunks_witness :
  scrapedCount hundredTwenty = Z.of_nat (length (data hundredTwenty))
  /\ length (indexEntries (splitMp3Data hundredTwenty)) = 3.
Proof.
  split; [reflexivity|].
  exact (proj1 (index_describes_chunks hundredTwenty eq_refl)).
Defined.

End SplitFacts.

(** ** Every upload sends safe headers *)

Module HeaderFacts.
Import JsString JsStringFacts Uploader Processing Eff Headers ProcessFacts.
Local Open Scope eff_scope.

Lemma sanitized_safe (value : option jsstring) :
  safeHeader (sanitizeMetadataValue value).
Proof.
  destruct value as [[|c s]|]; [split; [constructor | cbn; lia] | |
                                split; [constructor | cbn; lia]].
  change (sanitizeMetadataValue (Some (c :: s))) with
    (substring0 1024
       (trim (dropClass isControl (keepClass isPrintableAscii (c :: s))))).
  split; [|apply length_substring0].
  eapply List.Forall_impl;
    [|apply Forall_substring0, Forall_trim, Forall_filter_keep,
        Forall_filter_true].
  intros a Ha. unfold isPrintableAscii, inRange in Ha.
  apply andb_true_iff in Ha as [H1 H2]. apply N.leb_le in H1, H2. now split.
Qed.

Lemma s3Headers_safe (m : Metadata) (sourceUrl : jsstring) :
  length (s3Headers m sourceUrl) = 5%nat
  /\ Forall safeHeader (s3Headers m sourceUrl).
Proof.
  split; [reflexivity|]. unfold s3Headers.
  repeat (constructor; [apply sanitized_safe|]). constructor.
Qed.

(** Computations that keep an invariant of the state, however they end. *)
Section Invariant.
Context (I : UploaderState -> Prop).

Definition preserves {A : Type} (c : M UploaderState A) : Prop :=
  forall s r s', c s = Some (r, s') -> I s -> I s'.

Lemma preserves_ret {A : Type} (a : A) : preserves (ret a).
Proof. intros s r s' H. now injection H as _ <-. Qed.

Lemma preserves_throw {A : Type} (e : jserror) : preserves (@throw _ A e).
Proof. intros s r s' H. now injection H as _ <-. Qed.

Lemma preserves_lift {A : Type} (c : completion A) : preserves (lift c).
Proof. intros s r s' H. now injection H as _ <-. Qed.

Lemma preserves_get : preserves get.
Proof. intros s r s' H. now injection H as _ <-. Qed.

Lemma preserves_outOfFuel {A : Type} : preserves (@outOfFuel _ A).
Proof. intros s r s' H. discriminate H. Qed.

Lemma preserves_modify (f : UploaderState -> UploaderState) :
  (forall s, I s -> I (f s)) -> preserves (modify f).
Proof. intros Hf s r s' H. injection H as _ <-. apply Hf. Qed.

Lemma preserves_bind {A B : Type} (m : M UploaderState A)
    (k : A -> M UploaderState B) :
  preserves m -> (forall a, preserves (k a)) -> preserves (bind m k).
Proof.
  intros Hm Hk s r s' H Hs. unfold bind in H.
  destruct (m s) as [[[a|e] s1]|] eqn:E; [| |discriminate].
  - exact (Hk a s1 r s' H (Hm s _ s1 E Hs)).
  - injection H as _ <-. exact (Hm s _ s1 E Hs).
Qed.

Lemma preserves_tryCatch {A : Type} (m : M UploaderState A)
    (h : jserror -> M UploaderState A) :
  preserves m -> (forall e, preserves (h e)) -> preserves (tryCatch m h).
Proof.
  intros Hm Hh s r s' H Hs. unfold tryCatch in H.
  destruct (m s) as [[[a|e] s1]|] eqn:E; [| |discriminate].
  - injection H as _ <-. exact (Hm s _ s1 E Hs).
  - exact (Hh e s1 r s' H (Hm s _ s1 E Hs)).
Qed.

Lemma preserves_tryFinally {A : Type} (m : M UploaderState A)
    (f : UploaderState -> UploaderState) :
  preserves m -> (forall s, I s -> I (f s)) -> preserves (tryFinally m f).
Proof.
  intros Hm Hf s r s' H Hs. unfold tryFinally in H.
  destruct (m s) as [[r1 s1]|] eqn:E; [|discriminate].
  injection H as _ <-. apply Hf. exact (Hm s _ s1 E Hs).
Qed.

End Invariant.

Lemma safe_addEvent (e : event) (s : UploaderState) :
  safeEvent e -> safeTrace s -> safeTrace (addEvent e s).
Proof.
  intros He Hs. unfold safeTrace, addEvent. cbn [events].
  apply Forall_app. split; [exact Hs | now constructor].
Qed.

Lemma safe_emit (e : event) : safeEvent e -> preserves safeTrace (emit e).
Proof. intros He. apply preserves_modify. intros s. now apply safe_addEvent. Qed.

Lemma safe_silent (f : UploaderState -> UploaderState) :
  (forall s, events (f s) = events s) -> preserves safeTrace (modify f).
Proof.
  intros Hf. apply preserves_modify. intros s. unfold safeTrace.
  now rewrite Hf.
Qed.

Ltac safe_step :=
  first
    [ apply preserves_ret | apply preserves_throw | apply preserves_lift
    | apply preserves_get | apply preserves_outOfFuel
    | apply safe_emit; exact Logic.I
    | apply safe_silent; intros ?; reflexivity
    | apply preserves_bind; [|intros ?]
    | apply preserves_tryCatch; [|intros ?] ].

Ltac safe_case :=
  match goal with
  | |- preserves _ (match ?x with _ => _ end) => destruct x
  end.

Lemma safe_pollStaged (a : DownloadAttempt) (remaining : nat) :
  forall i, preserves safeTrace (pollStaged a remaining i).
Proof.
  induction remaining as [|r IH]; intros i; cbn [pollStaged];
    [apply preserves_ret|].
  apply preserves_bind; [apply safe_emit; exact Logic.I | intros _].
  apply preserves_bind; [apply preserves_lift | intros files].
  destruct files as [size|]; [|apply IH].
  destruct (1000 <? size); [repeat safe_step | apply IH].
Qed.

Lemma safe_downloadSequence (a : DownloadAttempt) (d v : jsstring)
    (retryCount : nat) :
  preserves safeTrace (downloadSequence a d v retryCount).
Proof.
  unfold downloadSequence.
  apply preserves_bind; [apply safe_emit; exact Logic.I | intros _].
  apply preserves_bind; [apply safe_emit; exact Logic.I | intros _].
  apply preserves_bind; [apply preserves_lift | intros _].
  apply preserves_bind; [apply safe_emit; exact Logic.I | intros _].
  apply preserves_bind; [apply safe_emit; exact Logic.I | intros _].
  apply preserves_bind; [apply preserves_lift | intros _].
  apply preserves_bind; [apply safe_emit; exact Logic.I | intros _].
  apply preserves_bind; [apply preserves_lift | intros triggered].
  apply preserves_bind.
  - destruct triggered; [apply safe_pollStaged | apply preserves_ret].
  - intros found. destruct found; [apply preserves_ret | apply preserves_throw].
Qed.

Lemma safe_download (cfg : Config) (env : RecordEnv) (d v : jsstring)
    (fuel : nat) :
  forall retryCount,
    preserves safeTrace (downloadAuthenticatedMp3 fuel cfg env d v retryCount).
Proof.
  induction fuel as [|fuel IH]; intros retryCount;
    cbn [downloadAuthenticatedMp3]; [apply preserves_outOfFuel|].
  apply preserves_tryCatch; [apply safe_downloadSequence|].
  intros e. destruct (retryCount <? retryAttempts cfg - 1)%nat;
    [|apply preserves_throw].
  apply preserves_bind; [apply safe_emit; exact Logic.I | intros _; apply IH].
Qed.

Lemma safe_uploadToS3 (env : RecordEnv) (key : jsstring) (m : Metadata)
    (sourceUrl : jsstring) :
  preserves safeTrace (uploadToS3 env key m sourceUrl).
Proof.
  unfold uploadToS3. apply preserves_bind; [|intros _; apply preserves_lift].
  apply safe_emit. exact (s3Headers_safe m sourceUrl).
Qed.

Lemma safe_cleanupTemp : preserves safeTrace cleanupTemp.
Proof.
  unfold cleanupTemp. apply preserves_bind; [apply preserves_get|].
  intros s. destruct (tempFile s); repeat safe_step.
Qed.

Lemma safe_processSingleMp3 (cfg : Config) (env : RecordEnv) (r : Mp3Data)
    (index : N) :
  preserves safeTrace (processSingleMp3 cfg env r index).
Proof.
  unfold processSingleMp3.
  apply preserves_bind; [safe_step | intros _].
  apply preserves_tryCatch.
  - apply preserves_bind; [apply safe_download | intros _].
    apply preserves_bind; [apply preserves_get | intros s].
    destruct (tempFile s) as [size|]; [|apply preserves_throw].
    destruct (size <? 1000); [apply preserves_throw|].
    apply preserves_bind; [apply preserves_lift | intros key].
    apply preserves_bind; [apply safe_uploadToS3 | intros url].
    repeat safe_step.
  - intros e.
    apply preserves_bind; [safe_step | intros _].
    apply preserves_bind; [safe_step | intros _].
    apply preserves_bind; [apply safe_cleanupTemp | intros _].
    apply preserves_throw.
Qed.

Lemma safe_processLoop (cfg : Config) (env : nat -> RecordEnv) (total : nat)
    (rest : list Mp3Data) :
  forall i, preserves safeTrace (processLoop cfg env total i rest).
Proof.
  induction rest as [|r rest IH]; intros i; cbn [processLoop];
    [apply preserves_ret|].
  apply preserves_bind.
  - apply preserves_tryCatch; [|intros e; apply preserves_ret].
    apply preserves_bind; [apply safe_processSingleMp3|].
    intros a. apply preserves_ret.
  - intros _. apply preserves_bind; [|intros _; apply IH].
    destruct (i + 1 <? total)%nat; safe_step.
Qed.

Lemma safe_processAllMp3s (cfg : Config) (w : World)
    (records : list Mp3Data) :
  preserves safeTrace (processAllMp3s cfg w records).
Proof.
  unfold processAllMp3s.
  apply preserves_bind; [apply preserves_lift | intros _].
  apply preserves_bind.
  - destruct records as [|first rest]; [apply preserves_ret|].
    repeat safe_step.
  - intros _. apply preserves_tryFinally; [apply safe_processLoop|].
    intros s. now apply safe_addEvent.
Qed.

Lemma processAllMp3s_returns (cfg : Config) (w : World)
    (records : list Mp3Data) (s : UploaderState) :
  exists r s', processAllMp3s cfg w records s = Some (r, s').
Proof.
  unfold processAllMp3s. unfold bind at 1. unfold lift at 1.
  destruct (initializeAndLogin w) as [[]|e]; [|now eexists _, _].
  unfold bind at 1.
  assert (Hpre : exists s0,
    match records with
    | first :: _ =>
        tryCatch
          (emit (Goto (videoUrl first)) ;;; lift (authTestGoto w) ;;;
           emit (Sleep 2000))
          (fun _ => ret tt)
    | [] => ret tt
    end s = Some (Normal tt, s0)).
  { destruct records as [|first rest]; [now exists s|].
    unfold tryCatch, bind, lift, emit, modify, ret.
    destruct (authTestGoto w) as [[]|e]; now eexists. }
  destruct Hpre as (s0 & ->).
  destruct (processLoop_run cfg (recordEnv w) (length records) records 0 s0)
    as (s1 & Hloop & _).
  unfold tryFinally. rewrite Hloop. now eexists _, _.
Qed.

(** X20: a run of [processAllMp3s] ends, and every upload it made sent
    exactly five derived metadata headers, each of printable ASCII code
    units only and at most 1024 units long, whatever the titles, authors,
    topics, podcast names and URLs of the records are. *)
Theorem uploads_send_safe_headers (cfg : Config) (w : World)
    (records : list Mp3Data) :
  exists r s',
    processAllMp3s cfg w records initialState = Some (r, s')
    /\ forall key headers, In (Upload key headers) (events s') ->
         length headers = 5%nat
         /\ forall h, In h headers ->
              Forall (fun c => 32 <= c <= 126) h /\ (length h <= 1024)%nat.
Proof.
  destruct (processAllMp3s_returns cfg w records initialState)
    as (r & s' & Hrun).
  exists r, s'. split; [exact Hrun|].
  assert (Hsafe : safeTrace s').
  { apply (safe_processAllMp3s cfg w records _ _ _ Hrun). constructor. }
  intros key headers Hin.
  pose proof (proj1 (List.Forall_forall _ _) Hsafe _ Hin) as [Hlen Hall].
  split; [exact Hlen|].
  intros h Hh. exact (proj1 (List.Forall_forall _ _) Hall _ Hh).
Qed.

End HeaderFacts.

(** ** The uploader when a call on the temporary file fails *)

Module DiskFacts.
Import JsString Uploader Processing Outcome Eff Logs.
Import DownloadFacts ProcessFacts.
Import Examples WorldExamples DiskExamples.

(** On a disk whose calls succeed, this is [Processing.processSingleMp3]. *)
Lemma processSingleMp3_reliable (cfg : Config) (env : RecordEnv)
    (r : Mp3Data) (index : N) (s : UploaderState) :
  Disk.processSingleMp3 cfg env Disk.reliable r index s
  = processSingleMp3 cfg env r index s.
Proof. reflexivity. Qed.

Lemma processLoop_reliable (cfg : Config) (env : nat -> RecordEnv)
    (total : nat) (rest : list Mp3Data) :
  forall (i : nat) (s : UploaderState),
    Disk.processLoop cfg env (fun _ => Disk.reliable) total i rest s
    = processLoop cfg env total i rest s.
Proof.
  induction rest as [|r rest IH]; intros i s; [reflexivity|].
  cbn [Disk.processLoop processLoop]. unfold bind, tryCatch.
  rewrite processSingleMp3_reliable.
  destruct (processSingleMp3 cfg (env i) r (N.of_nat (i + 1)) s)
    as [[[a|e] s1]|]; [| |reflexivity];
    cbn [ret]; destruct (i + 1 <? total)%nat; cbn [emit modify ret];
    apply IH.
Qed.

Lemma processAllMp3s_reliable (cfg : Config) (w : World)
    (records : list Mp3Data) (s : UploaderState) :
  Disk.processAllMp3s cfg w (fun _ => Disk.reliable) records s
  = processAllMp3s cfg w records s.
Proof.
  unfold Disk.processAllMp3s, processAllMp3s, bind, tryFinally.
  destruct (lift (initializeAndLogin w) s) as [[[[]|e] s1]|];
    [|reflexivity ..].
  match goal with
  | |- match ?c with _ => _ end = _ => destruct c as [[[[]|e] s2]|]
  end; [|reflexivity ..].
  now rewrite processLoop_reliable.
Qed.

(** [processSingleMp3] ends, and in one of three ways. *)
Lemma processSingleMp3_cases (cfg : Config) (env : RecordEnv)
    (u : Disk.FileCalls) (r : Mp3Data) (index : N) (s : UploaderState) :
  exists res s' evs,
    Disk.processSingleMp3 cfg env u r index s = Some (res, s')
    /\ ((* uploaded, and the file deleted *)
        (exists j size key url,
           retrievalSucceedsAt cfg env j size
           /\ Disk.statTemp u = Normal tt
           /\ generateS3Key r index = Normal key
           /\ Disk.readTemp u = Normal tt
           /\ s3upload env key = Normal url
           /\ Disk.afterUpload u = Normal tt
           /\ res = Normal (createRAGMetadata r url key index)
           /\ uploads evs = [key]
           /\ advance s s' 1 0 [createRAGMetadata r url key index]
                [LogSuccess index (title (metadata r)) key url size] evs
           /\ tempFile s' = None)
        \/ (* uploaded, and the deletion failed *)
        (exists j size key url e1,
           retrievalSucceedsAt cfg env j size
           /\ Disk.statTemp u = Normal tt
           /\ generateS3Key r index = Normal key
           /\ Disk.readTemp u = Normal tt
           /\ s3upload env key = Normal url
           /\ Disk.afterUpload u = Throw e1
           /\ uploads evs = [key]
           /\ advance s s' 1 1 [createRAGMetadata r url key index]
                [LogSuccess index (title (metadata r)) key url size;
                 LogFailed index (title (metadata r)) (downloadUrl r)
                   (videoUrl r) e1] evs
           /\ ((Disk.inCatch u = Normal tt /\ res = Throw e1
                /\ tempFile s' = None)
               \/ (exists e2, Disk.inCatch u = Throw e2 /\ res = Throw e2
                               /\ tempFile s' = Some size)))
        \/ (* not uploaded *)
        (exists e0,
           (forall j size key url,
              retrievalSucceedsAt cfg env j size ->
              Disk.statTemp u = Normal tt ->
              generateS3Key r index = Normal key ->
              Disk.readTemp u = Normal tt ->
              s3upload env key = Normal url -> False)
           /\ (uploads evs = []
               \/ exists key, generateS3Key r index = Normal key
                              /\ s3upload env key = Throw e0
                              /\ uploads evs = [key])
           /\ advance s s' 0 1 []
                [LogFailed index (title (metadata r)) (downloadUrl r)
                   (videoUrl r) e0] evs
           /\ ((res = Throw e0 /\ tempFile s' = None)
               \/ (exists e2 size, Disk.inCatch u = Throw e2
                                    /\ res = Throw e2
                                    /\ tempFile s' = Some size)))).
Proof.
  unfold Disk.processSingleMp3.
  unfold bind at 1. cbn [setTempFile modify].
  unfold tryCatch. unfold bind at 1.
  match goal with
  | |- context [downloadAuthenticatedMp3 _ _ _ _ _ _ ?st] =>
      destruct (retrieval_run cfg env (downloadUrl r) (videoUrl r) st)
        as (r0 & s1 & evs1 & n & Hrun & Hf & Hu & Ha & Hw & Hn & Hcase)
  end.
  rewrite Hrun. destruct Hf as [F1 F2 F3 F4 F5].
  cbn in F1, F2, F3, F4, F5.
  destruct Hcase as [(size & -> & Ht & Hsucc) | (e & -> & Ht & Hn' & Ho & Hall)].
  - unfold bind at 1. cbn [get]. rewrite Ht.
    assert (Hsz : (size <? 1000) = false).
    { destruct Hsucc as (_ & _ & Hj). apply outcome_size in Hj.
      apply N.ltb_ge. lia. }
    unfold bind at 1. unfold lift at 1.
    destruct (Disk.statTemp u) as [[]|e] eqn:Estat.
    2:{ cbn. rewrite Ht. unfold Disk.unlinkSync.
        destruct (Disk.inCatch u) as [[]|e2] eqn:Ecatch; cbn;
          eexists _, _, (evs1 ++ [Unlink]);
          (split; [reflexivity|]); right; right; exists e;
          (split; [intros j' size' key' url' _ Hs' _ _ _; congruence|]);
          (split; [left; rewrite uploads_app, Hu; reflexivity|]);
          (split; [constructor; cbn; try congruence;
                   [ rewrite F1; lia | now rewrite app_nil_r
                   | rewrite F5, <- !app_assoc; reflexivity ]|]).
        - left. now split.
        - right. exists e2, size. now split. }
    rewrite Hsz. unfold bind at 1. unfold lift at 1.
    destruct (generateS3Key r index) as [key|e] eqn:Ekey.
    + unfold Disk.uploadToS3. unfold bind at 1. unfold bind at 1.
      unfold lift at 1.
      destruct (Disk.readTemp u) as [[]|e] eqn:Eread.
      2:{ cbn. rewrite Ht. unfold Disk.unlinkSync.
          destruct (Disk.inCatch u) as [[]|e2] eqn:Ecatch; cbn;
            eexists _, _, (evs1 ++ [Unlink]);
            (split; [reflexivity|]); right; right; exists e;
            (split; [intros j' size' key' url' _ _ _ Hr' _; congruence|]);
            (split; [left; rewrite uploads_app, Hu; reflexivity|]);
            (split; [constructor; cbn; try congruence;
                     [ rewrite F1; lia | now rewrite app_nil_r
                     | rewrite F5, <- !app_assoc; reflexivity ]|]).
          - left. now split.
          - right. exists e2, size. now split. }
      unfold uploadToS3. unfold bind at 1.
      cbn [emit modify addEvent]. unfold lift at 1.
      destruct (s3upload env key) as [url|e] eqn:Eup.
      * unfold Disk.unlinkSync.
        destruct (Disk.afterUpload u) as [[]|e1] eqn:Eafter.
        -- cbn. eexists _, _, (evs1 ++ [Upload key _; Unlink]).
           split; [reflexivity|]. left. exists (n - 1)%nat, size, key, url.
           refine (conj Hsucc (conj eq_refl (conj eq_refl (conj eq_refl
                     (conj Eup (conj eq_refl (conj eq_refl (conj _
                        (conj _ eq_refl))))))))).
           ++ rewrite uploads_app, Hu. reflexivity.
           ++ constructor; cbn; try congruence.
              ** rewrite F2. lia.
              ** rewrite F5, <- !app_assoc. reflexivity.
        -- cbn. rewrite Ht. unfold Disk.unlinkSync.
           destruct (Disk.inCatch u) as [[]|e2] eqn:Ecatch;
             cbn; eexists _, _, (evs1 ++ [Upload key _; Unlink; Unlink]);
             (split; [reflexivity|]); right; left;
             exists (n - 1)%nat, size, key, url, e1;
             refine (conj Hsucc (conj eq_refl (conj eq_refl (conj eq_refl
                       (conj Eup (conj eq_refl (conj _ (conj _ _))))))));
             [ rewrite uploads_app, Hu; reflexivity
             | constructor; cbn; try congruence;
               [ rewrite F4, <- app_assoc; reflexivity
               | rewrite F5, <- !app_assoc; reflexivity ]
             | left; now split
             | rewrite uploads_app, Hu; reflexivity
             | constructor; cbn; try congruence;
               [ rewrite F4, <- app_assoc; reflexivity
               | rewrite F5, <- !app_assoc; reflexivity ]
             | right; exists e2; now split ].
      * cbn. rewrite Ht. unfold Disk.unlinkSync.
        destruct (Disk.inCatch u) as [[]|e2] eqn:Ecatch; cbn;
          eexists _, _, (evs1 ++ [Upload key _; Unlink]);
          (split; [reflexivity|]); right; right; exists e;
          (split; [intros j' size' key' url' _ _ Hk' _ Hu'; congruence|]);
          (split; [right; exists key; refine (conj eq_refl (conj Eup _));
                   rewrite uploads_app, Hu; reflexivity|]);
          (split; [constructor; cbn; try congruence;
                   [ rewrite F1; lia | now rewrite app_nil_r
                   | rewrite F5, <- !app_assoc; reflexivity ]|]).
        -- left. now split.
        -- right. exists e2, size. now split.
    + cbn. rewrite Ht. unfold Disk.unlinkSync.
      destruct (Disk.inCatch u) as [[]|e2] eqn:Ecatch; cbn;
        eexists _, _, (evs1 ++ [Unlink]);
        (split; [reflexivity|]); right; right; exists e;
        (split; [intros j' size' key' url' _ _ Hk' _ _; congruence|]);
        (split; [left; rewrite uploads_app, Hu; reflexivity|]);
        (split; [constructor; cbn; try congruence;
                 [ rewrite F1; lia | now rewrite app_nil_r
                 | rewrite F5, <- !app_assoc; reflexivity ]|]).
      * left. now split.
      * right. exists e2, size. now split.
  - cbn in Ht. cbn. rewrite Ht. cbn.
    eexists _, _, evs1. split; [reflexivity|]. right. right. exists e.
    refine (conj _ (conj (or_introl Hu) (conj _ _))).
    + intros j size key url (Hle & _ & Hj) _ _ _ _. specialize (Hall j Hle).
      now rewrite Hj in Hall.
    + constructor; cbn; try congruence.
      * rewrite F1. lia.
      * now rewrite app_nil_r.
    + left. now split.
Qed.

(** X6: [processSingleMp3] always ends, whatever the retrieval, the calls
    of [fs] on the temporary file and the upload come to, in one of three
    ways.  It returns
    the RAG entry: a file of more than 1000 bytes was retrieved, the key
    derived, the upload accepted and the temporary file deleted; the
    success is counted and logged once.  It throws before an upload was
    accepted: the failure is counted and logged once with the error, and
    nothing else is counted.  Or it throws because the deletion of the
    temporary file failed after the upload was accepted: then the record
    is counted and logged twice, once as a success and once as a failure,
    and its RAG entry is kept.  The exception thrown is the logged error,
    unless the deletion in the [catch] fails: then it is the error of that
    deletion, and the temporary file is left behind. *)
Theorem processSingleMp3_outcomes (cfg : Config) (env : RecordEnv)
    (u : Disk.FileCalls) (r : Mp3Data) (index : N) (s : UploaderState) :
  exists res s' evs,
    Disk.processSingleMp3 cfg env u r index s = Some (res, s')
    /\ events s' = events s ++ evs
    /\ match res with
       | Normal ragEntry =>
           exists size key url,
             1000 < size
             /\ generateS3Key r index = Normal key
             /\ s3upload env key = Normal url
             /\ Disk.afterUpload u = Normal tt
             /\ ragEntry = createRAGMetadata r url key index
             /\ uploads evs = [key]
             /\ uploadedCount s' = uploadedCount s + 1
             /\ failedCount s' = failedCount s
             /\ ragMetadata s' = ragMetadata s ++ [ragEntry]
             /\ uploadLog s' = uploadLog s ++
                  [LogSuccess index (title (metadata r)) key url size]
             /\ tempFile s' = None
       | Throw e =>
           failedCount s' = failedCount s + 1
           /\ ((exists e0,
                  (uploads evs = []
                   \/ exists key, generateS3Key r index = Normal key
                                  /\ s3upload env key = Throw e0
                                  /\ uploads evs = [key])
                  /\ uploadedCount s' = uploadedCount s
                  /\ ragMetadata s' = ragMetadata s
                  /\ uploadLog s' = uploadLog s ++
                       [LogFailed index (title (metadata r)) (downloadUrl r)
                          (videoUrl r) e0]
                  /\ ((e = e0 /\ tempFile s' = None)
                      \/ (Disk.inCatch u = Throw e
                          /\ exists size, tempFile s' = Some size)))
               \/ (exists size key url e1,
                     1000 < size
                     /\ generateS3Key r index = Normal key
                     /\ s3upload env key = Normal url
                     /\ Disk.afterUpload u = Throw e1
                     /\ uploads evs = [key]
                     /\ uploadedCount s' = uploadedCount s + 1
                     /\ ragMetadata s' =
                          ragMetadata s ++ [createRAGMetadata r url key index]
                     /\ uploadLog s' = uploadLog s ++
                          [LogSuccess index (title (metadata r)) key url size;
                           LogFailed index (title (metadata r))
                             (downloadUrl r) (videoUrl r) e1]
                     /\ ((Disk.inCatch u = Normal tt /\ e = e1
                          /\ tempFile s' = None)
                         \/ (Disk.inCatch u = Throw e
                             /\ tempFile s' = Some size))))
       end.
Proof.
  destruct (processSingleMp3_cases cfg env u r index s)
    as (res & s' & evs & Hrun & Hcase).
  exists res, s', evs.
  destruct Hcase
    as [(j & size & key & url & Hs & _ & Hk & _ & Hu & Ha & -> & Hup & Hadv
         & Ht)
       | [(j & size & key & url & e1 & Hs & _ & Hk & _ & Hu & Ha & Hup & Hadv
           & Hend)
         | (e0 & _ & Hup & Hadv & Hend)]];
    destruct Hadv as [A1 A2 A3 A4 A5]; refine (conj Hrun (conj A5 _)).
  - exists size, key, url.
    destruct Hs as (_ & _ & Hj). apply outcome_size in Hj.
    rewrite N.add_0_r in A2.
    now refine (conj Hj (conj Hk (conj Hu (conj Ha (conj eq_refl (conj Hup
                  (conj A1 (conj A2 (conj A3 (conj A4 Ht)))))))))).
  - destruct Hs as (_ & _ & Hj). apply outcome_size in Hj.
    destruct Hend as [(Hc & -> & Ht) | (e2 & Hc & -> & Ht)];
      (split; [exact A2|]); right; exists size, key, url, e1;
      refine (conj Hj (conj Hk (conj Hu (conj Ha (conj Hup (conj A1
                (conj A3 (conj A4 _))))))));
      [left | right]; now repeat split.
  - rewrite N.add_0_r in A1. rewrite app_nil_r in A3.
    destruct Hend as [(-> & Ht) | (e2 & size & Hc & -> & Ht)];
      (split; [exact A2|]); left; exists e0;
      refine (conj Hup (conj A1 (conj A3 (conj A4 _))));
      [left; now split | right; split; [exact Hc | now exists size]].
Qed.

(** The loop goes on with the next record whatever the completion of
    [processSingleMp3]. *)
Lemma processLoop_next (cfg : Config) (env : nat -> RecordEnv)
    (disk : nat -> Disk.FileCalls) (total i : nat) (r : Mp3Data)
    (rest : list Mp3Data) (s s1 : UploaderState)
    (res : completion RagEntry) :
  Disk.processSingleMp3 cfg (env i) (disk i) r (N.of_nat (i + 1)) s
    = Some (res, s1) ->
  Disk.processLoop cfg env disk total i (r :: rest) s =
  Disk.processLoop cfg env disk total (S i) rest (paused total i s1).
Proof.
  intros Hrun. cbn [Disk.processLoop]. unfold bind at 1. unfold tryCatch.
  unfold bind at 1. rewrite Hrun. unfold paused.
  destruct res; cbn [ret]; unfold bind at 1;
    destruct (i + 1 <? total)%nat; reflexivity.
Qed.

Lemma processLoop_counts (cfg : Config) (env : nat -> RecordEnv)
    (disk : nat -> Disk.FileCalls) (total : nat) :
  forall (rest : list Mp3Data) (i : nat) (s : UploaderState),
  exists s' counts,
    Disk.processLoop cfg env disk total i rest s = Some (Normal tt, s')
    /\ length counts = length rest
    /\ (forall k c r,
          nth_error counts k = Some c -> nth_error rest k = Some r ->
          Disk.countOf cfg env disk (i + k) r c)
    /\ uploadedCount s' + failedCount s'
       = uploadedCount s + failedCount s + N.of_nat (list_sum counts)
    /\ List.map logIndex (uploadLog s')
       = List.map logIndex (uploadLog s) ++ Disk.loggedIndices i counts
    /\ N.of_nat (length (ragMetadata s')) + uploadedCount s
       = N.of_nat (length (ragMetadata s)) + uploadedCount s'.
Proof.
  induction rest as [|r rest IH]; intros i s.
  - exists s, []. cbn. rewrite app_nil_r.
    refine (conj eq_refl (conj eq_refl (conj _ (conj _ (conj eq_refl _)))));
      [intros [|k] c r'; discriminate | lia | lia].
  - destruct (processSingleMp3_cases cfg (env i) (disk i) r
                (N.of_nat (i + 1)) s)
      as (res & s1 & evs1 & Hrun & Hcase).
    rewrite (processLoop_next _ _ _ _ _ _ _ _ _ _ Hrun).
    destruct (IH (S i) (paused total i s1))
      as (s' & counts & Hloop & Hlen & Hcounts & Hc & Hl & Hr).
    destruct (paused_counts total i s1) as (P1 & P2 & P3 & P4).
    rewrite P1, P2 in Hc. rewrite P4 in Hl. rewrite P1, P3 in Hr.
    assert (Hone : exists c du df rags entries,
              advance s s1 du df rags entries evs1
              /\ Disk.countOf cfg env disk i r c
              /\ List.map logIndex entries = repeat (N.of_nat (i + 1)) c
              /\ du + df = N.of_nat c /\ N.of_nat (length rags) = du).
    { destruct Hcase
        as [(j & size & key & url & Hs & Hst & Hk & Hrd & Hu & Ha & _ & _
             & Hadv & _)
           | [(j & size & key & url & e1 & Hs & Hst & Hk & Hrd & Hu & Ha & _
               & Hadv & _)
             | (e0 & Hno & _ & Hadv & _)]].
      - eexists 1%nat, _, _, _, _.
        refine (conj Hadv (conj _ (conj eq_refl (conj eq_refl eq_refl)))).
        left. split; [reflexivity|].
        intros (j' & size' & key' & url' & e' & _ & _ & _ & _ & _ & Ha').
        congruence.
      - eexists 2%nat, _, _, _, _.
        refine (conj Hadv (conj _ (conj eq_refl (conj eq_refl eq_refl)))).
        right. split; [reflexivity|]. now exists j, size, key, url, e1.
      - eexists 1%nat, _, _, _, _.
        refine (conj Hadv (conj _ (conj eq_refl (conj eq_refl eq_refl)))).
        left. split; [reflexivity|].
        intros (j' & size' & key' & url' & e' & Hs' & Hst' & Hk' & Hrd'
                & Hu' & _).
        exact (Hno _ _ _ _ Hs' Hst' Hk' Hrd' Hu'). }
    destruct Hone as (c & du & df & rags & entries & [A1 A2 A3 A4 A5] & Hcount
                      & Hidx & Hsum & Hrags).
    exists s', (c :: counts).
    refine (conj Hloop (conj _ (conj _ (conj _ (conj _ _))))).
    + cbn [length]. now rewrite Hlen.
    + intros [|k] c' r' Hc' Hr'; cbn in Hc', Hr'.
      * injection Hc' as <-. injection Hr' as <-.
        now rewrite Nat.add_0_r.
      * replace (i + S k)%nat with (S i + k)%nat by lia.
        now apply Hcounts.
    + rewrite A1, A2 in Hc.
      change (list_sum (c :: counts)) with (c + list_sum counts)%nat. lia.
    + rewrite Hl, A4, List.map_app, Hidx, <- app_assoc. reflexivity.
    + rewrite A3, length_app in Hr. rewrite A1 in Hr. lia.
Qed.

Lemma list_sum_once (n : nat) : list_sum (repeat 1%nat n) = n.
Proof.
  induction n as [|n IH]; [reflexivity|]. cbn [repeat].
  change (list_sum (1%nat :: repeat 1%nat n))
    with (S (list_sum (repeat 1%nat n))).
  now rewrite IH.
Qed.

Lemma loggedIndices_once (n : nat) :
  forall i, Disk.loggedIndices i (repeat 1%nat n)
            = List.map N.of_nat (seq (i + 1) n).
Proof.
  induction n as [|n IH]; intros i; [reflexivity|].
  cbn [repeat Disk.loggedIndices app seq List.map]. rewrite IH.
  now replace (S i + 1)%nat with (S (i + 1)) by lia.
Qed.

(** [processAllMp3s] up to the loop, after a successful login. *)
Lemma processAllMp3s_begin (cfg : Config) (w : World)
    (disk : nat -> Disk.FileCalls) (records : list Mp3Data) :
  initializeAndLogin w = Normal tt ->
  exists s0,
    uploadedCount s0 = 0 /\ failedCount s0 = 0 /\ ragMetadata s0 = []
    /\ uploadLog s0 = []
    /\ Disk.processAllMp3s cfg w disk records initialState =
       tryFinally
         (Disk.processLoop cfg (recordEnv w) disk (length records) 0
            records)
         (addEvent CloseBrowser) s0.
Proof.
  intros Hlogin. unfold Disk.processAllMp3s.
  unfold bind at 1. unfold lift at 1. rewrite Hlogin.
  destruct records as [|first rest].
  - now exists initialState.
  - unfold bind at 1. unfold tryCatch.
    unfold bind at 1. cbn [emit modify addEvent initialState].
    unfold bind at 1. unfold lift at 1.
    destruct (authTestGoto w) as [[]|e].
    + now exists (addEvent (Sleep 2000)
                    (addEvent (Goto (videoUrl first)) initialState)).
    + now exists (addEvent (Goto (videoUrl first)) initialState).
Qed.

(** X3: when the login throws, [processAllMp3s] throws the same error
    before any record: nothing is logged and no event occurs, not even the
    closing of the browser.  Otherwise it ends normally whatever fails,
    the calls of [fs] on the temporary files included.  Every record is
    counted and logged once, except those whose upload was accepted and
    whose temporary file could then not be deleted: these are counted and
    logged twice, as a success and as a failure.  So [totalProcessed] is
    the number of records plus the number of such records, the log
    carries the indices 1, 2, ... in order, once or twice each, the RAG
    entries are as many as the successes counted, and the last event is
    the closing of the browser.  When no deletion after an upload fails,
    [totalProcessed] is the number of records and the log has the indices
    1, ..., n once each. *)
Theorem processAllMp3s_accounting (cfg : Config) (w : World)
    (disk : nat -> Disk.FileCalls) (records : list Mp3Data) :
  match initializeAndLogin w with
  | Throw e =>
      Disk.processAllMp3s cfg w disk records initialState
      = Some (Throw e, initialState)
  | Normal _ =>
      exists s' counts,
        Disk.processAllMp3s cfg w disk records initialState
        = Some (Normal tt, s')
        /\ length counts = length records
        /\ (forall k c r,
              nth_error counts k = Some c -> nth_error records k = Some r ->
              Disk.countOf cfg (recordEnv w) disk k r c)
        /\ totalProcessed (summaryOf s') = N.of_nat (list_sum counts)
        /\ List.map logIndex (uploadLog s') = Disk.loggedIndices 0 counts
        /\ N.of_nat (length (ragMetadata s')) = successful (summaryOf s')
        /\ List.last (events s') (Sleep 0) = CloseBrowser
        /\ ((forall k, (k < length records)%nat ->
                       Disk.afterUpload (disk k) = Normal tt) ->
            totalProcessed (summaryOf s') = N.of_nat (length records)
            /\ List.map logIndex (uploadLog s')
               = List.map N.of_nat (seq 1 (length records)))
  end.
Proof.
  destruct (initializeAndLogin w) as [[]|e] eqn:Hlogin.
  - destruct (processAllMp3s_begin cfg w disk records Hlogin)
      as (s0 & C0 & F0 & R0 & L0 & ->).
    unfold tryFinally.
    destruct (processLoop_counts cfg (recordEnv w) disk (length records)
                records 0 s0)
      as (s' & counts & Hloop & Hlen & Hcounts & Hc & Hl & Hr).
    rewrite Hloop. exists (addEvent CloseBrowser s'), counts.
    rewrite C0, F0 in Hc. rewrite L0 in Hl. rewrite R0, C0 in Hr.
    cbn [length List.map app] in Hl, Hr.
    assert (Htotal : totalProcessed (summaryOf (addEvent CloseBrowser s'))
                     = N.of_nat (list_sum counts)) by (cbn; lia).
    refine (conj eq_refl (conj Hlen (conj Hcounts (conj Htotal (conj Hl
              (conj _ (conj _ _))))))).
    + cbn. lia.
    + cbn [addEvent events]. apply last_last.
    + intros Hok.
      assert (Hall : counts = repeat 1%nat (length records)).
      { rewrite <- Hlen. apply List.Forall_eq_repeat.
        apply List.Forall_forall. intros c Hin.
        apply In_nth_error in Hin as (k & Hk).
        assert (Hlt : (k < length records)%nat).
        { rewrite <- Hlen. apply nth_error_Some. congruence. }
        destruct (nth_error records k) as [r|] eqn:Er;
          [|apply nth_error_None in Er; lia].
        destruct (Hcounts k c r Hk Er)
          as [[-> _] | [_ (j & size & key & url & e' & _ & _ & _ & _ & _
                            & Ha)]];
          [reflexivity|].
        change (0 + k)%nat with k in Ha.
        rewrite (Hok k Hlt) in Ha. discriminate. }
      rewrite Htotal. cbn [addEvent uploadLog]. rewrite Hl, Hall. split.
      * f_equal. apply list_sum_once.
      * apply loggedIndices_once.
  - unfold Disk.processAllMp3s. unfold bind at 1. unfold lift at 1.
    now rewrite Hlogin.
Qed.

(** One record, uploaded, whose temporary file is busy at the end of the
    [try]: the summary counts two records processed, one success and one
    failure. *)
Lemma busy_file_counted_twice :
  exists s',
    Disk.processAllMp3s config (mkWorld (Normal tt) (Normal tt)
                                 (fun _ => goodEnv))
      (fun _ => busyOnce) [gordonRecord] initialState
    = Some (Normal tt, s')
    /\ List.map isSuccess (uploadLog s') = [true; false]
    /\ length (ragMetadata s') = 1%nat
    /\ summaryOf s' =
         {| totalProcessed := 2; successful := 1; failed := 1;
            successRate := Some (js "50.00%") |}.
Proof.
  eexists. split; [vm_compute; reflexivity|].
  split; [reflexivity|]. split; reflexivity.
Qed.

End DiskFacts.
